(** * Post-processing and visualization helpers of the detection notebooks

    Shallow embedding of the helper code of two notebooks:

    - "Hello Object Detection": the cell that drops the zero-only rows of the
      model output ([boxes]) and [convert_result_to_image];
    - "Convert a TensorFlow Object Detection Model": [add_detection_box],
      [visualize_inference_result] and the cell building [coco_labels_map].

    Python floats are IEEE 754 binary64 numbers; they are modelled by
    [spec_float] with the binary64 parameters, so every arithmetic step
    rounds as the interpreter does.  The entries of the model output are
    float32 values, each of which is a binary64 number; their products with
    the Python float ratios are taken in binary64, as NumPy 1.x does for a
    float32 scalar and a Python float.  OpenCV's rasteriser is outside the
    notebooks: an image buffer is its base samples together with the ordered
    list of drawing calls applied to it. *)

From Corelib Require Import SpecFloat.
From stdpp Require Import base option list gmap strings pretty fin_maps.
From Stdlib Require Import ZArith Lia Ascii Reals Lra.

Open Scope Z_scope.

(** ** Python floats (binary64) *)

Module Py.

Abbreviation float := spec_float.

Definition prec : Z := 53.
Definition emax : Z := 1024.

Definition fmul : float -> float -> float := SFmul prec emax.
Definition fdiv : float -> float -> float := SFdiv prec emax.
Definition flt : float -> float -> bool := SFltb.
Definition fle : float -> float -> bool := SFleb.
Definition feq : float -> float -> bool := SFeqb.

(** [float(n)] for an integer [n], rounded to nearest even. *)
Definition of_Z (n : Z) : float := binary_normalize prec emax n 0 false.

(** A decimal literal [n / 10^k]: the nearest binary64 number, which the
    correctly rounded quotient of the two integers also is (for the short
    literals of the notebooks both integers are exact). *)
Definition lit (n : Z) (k : nat) : float := fdiv (of_Z n) (of_Z (10 ^ Z.of_nat k)).

Definition is_finite (x : float) : bool :=
  match x with
  | S754_zero _ | S754_finite _ _ _ => true
  | _ => false
  end.

(** Exceptions raised by the modelled code. *)
Inductive exn :=
  | IndexError
  | ValueError
  | OverflowError
  | ZeroDivisionError
  | KeyError (key : Z).

Inductive result (A : Type) :=
  | Ok (a : A)
  | Raise (e : exn).
Arguments Ok {A} a.
Arguments Raise {A} e.

#[export] Instance result_ret : MRet result := fun _ a => Ok a.
#[export] Instance result_bind : MBind result := fun _ _ k r =>
  match r with
  | Ok a => k a
  | Raise e => Raise e
  end.

(** [int(x)]: truncation toward zero; [ValueError] on NaN, [OverflowError]
    on an infinity. *)
Definition int (x : float) : result Z :=
  match x with
  | S754_zero _ => Ok 0
  | S754_finite s m e => Ok (cond_Zopp s (Z.shiftl (Z.pos m) e))
  | S754_infinity _ => Raise OverflowError
  | S754_nan => Raise ValueError
  end.

(** [round(x)] with no digits argument: nearest integer, ties to even. *)
Definition round_half_even (num den : Z) : Z :=
  let q := num / den in
  let r := num mod den in
  match Z.compare (2 * r) den with
  | Lt => q
  | Gt => q + 1
  | Eq => if Z.even q then q else q + 1
  end.

Definition round (x : float) : result Z :=
  match x with
  | S754_zero _ => Ok 0
  | S754_finite s m e =>
      Ok (cond_Zopp s
            (if 0 <=? e then Z.pos m * 2 ^ e
             else round_half_even (Z.pos m) (2 ^ (- e))))
  | S754_infinity _ => Raise OverflowError
  | S754_nan => Raise ValueError
  end.

(** [a / b] on two integers (true division). *)
Definition truediv (a b : Z) : result float :=
  if b =? 0 then Raise ZeroDivisionError else Ok (fdiv (of_Z a) (of_Z b)).

(** [f"{x:.2f}"]. *)
Definition digit2 (n : Z) : string :=
  if n <? 10 then "0" +:+ pretty n else pretty n.

Definition format_2f (x : float) : string :=
  match x with
  | S754_nan => "nan"
  | S754_infinity s => if s then "-inf" else "inf"
  | S754_zero s => if s then "-0.00" else "0.00"
  | S754_finite s m e =>
      let hundredths :=
        if 0 <=? e then 100 * Z.pos m * 2 ^ e
        else round_half_even (100 * Z.pos m) (2 ^ (- e)) in
      (if s then "-" else "") +:+ pretty (hundredths / 100) +:+ "." +:+
      digit2 (hundredths mod 100)
  end.

End Py.

Import Py.

(** ** OpenCV image buffers

    A buffer is a NumPy array of shape [(height, width, channels)].  The
    drawing primitives belong to OpenCV; their effect on a buffer is kept as
    the call itself, appended to the calls already applied. *)

Module Cv2.

Inductive line_type := LINE_8 | LINE_AA.
Inductive conversion := COLOR_BGR2RGB.

Definition point : Type := Z * Z.
Definition color : Type := Z * Z * Z.

Inductive call :=
  | CvtColor (code : conversion)
  | Rectangle (pt1 pt2 : point) (c : color) (thickness : Z) (lineType : line_type)
  | PutText (text : string) (org : point) (fontFace : Z) (fontScale : float)
            (c : color) (thickness : Z) (lineType : line_type).

Record image := Image {
  shape : Z * Z * Z;
  samples : list Z;
  drawn : list call
}.

Definition draw (c : call) (img : image) : image :=
  Image (shape img) (samples img) (drawn img ++ [c]).

Definition cvtColor (img : image) (code : conversion) : image :=
  draw (CvtColor code) img.

Definition rectangle img pt1 pt2 c thickness lineType : image :=
  draw (Rectangle pt1 pt2 c thickness lineType) img.

Definition putText img text org fontFace fontScale c thickness lineType : image :=
  draw (PutText text org fontFace fontScale c thickness lineType) img.

Definition FONT_HERSHEY_SIMPLEX : Z := 0.

End Cv2.

(** ** Hello Object Detection *)

Module Hello.
Import Cv2.

(** A row of the model output: [[x_min, y_min, x_max, y_max, conf]]. *)
Definition row : Type := list float.

Definition is_zero (x : float) : bool := feq x (of_Z 0).

(** [boxes = boxes[~np.all(boxes == 0, axis=1)]] *)
Definition boxes (output : list row) : list row :=
  List.filter (fun r => negb (forallb is_zero r)) output.

(** [box[-1]] and [box[:-1]] *)
Definition last_item (box : row) : result float :=
  match last box with
  | Some c => Ok c
  | None => Raise IndexError
  end.

Definition but_last (box : row) : row := removelast box.

(** [enumerate] *)
Definition enumerate {A} (l : list A) : list (Z * A) := imap (fun i a => (Z.of_nat i, a)) l.

(** [max(v, 10)] followed by [int]: the builtin keeps its first argument
    unless the second is greater. *)
Definition int_max_10 (v : float) : result Z :=
  if flt v (of_Z 10) then Ok 10 else int v.

(** The list comprehension of the loop body. *)
Definition corner (ratio_x ratio_y : float) (ic : Z * float) : result Z :=
  let '(idx, corner_position) := ic in
  if negb (idx mod 2 =? 0)
  then int_max_10 (fmul corner_position ratio_y)
  else int (fmul corner_position ratio_x).

Definition corners (ratio_x ratio_y : float) (box : row) : result (list Z) :=
  mapM (corner ratio_x ratio_y) (enumerate (but_last box)).

Definition unpack4 (l : list Z) : result (Z * Z * Z * Z) :=
  match l with
  | [a; b; c; d] => Ok (a, b, c, d)
  | _ => Raise ValueError
  end.

Definition green : color := (0, 255, 0).
Definition red : color := (255, 0, 0).

(** [(x_min, y_min, x_max, y_max) = [... for idx, corner_position in ...]] *)
Definition scaled_corners (ratio_x ratio_y : float) (box : row) : result (Z * Z * Z * Z) :=
  cs ← corners ratio_x ratio_y box; unpack4 cs.

Definition loop_body (ratio_x ratio_y threshold : float) (conf_labels : bool)
    (rgb_image : image) (box : row) : result image :=
  conf ← last_item box;
  if flt threshold conf then
    '(x_min, y_min, x_max, y_max) ← scaled_corners ratio_x ratio_y box;
    let rgb_image := rectangle rgb_image (x_min, y_min) (x_max, y_max) green 3 LINE_8 in
    if conf_labels then
      Ok (putText rgb_image (format_2f conf) (x_min, y_min - 10)
            FONT_HERSHEY_SIMPLEX (lit 8 1) red 1 LINE_AA)
    else Ok rgb_image
  else Ok rgb_image.

Fixpoint for_each (body : image -> row -> result image) (bs : list row)
    (rgb_image : image) : result image :=
  match bs with
  | [] => Ok rgb_image
  | box :: bs => rgb_image ← body rgb_image box; for_each body bs rgb_image
  end.

Definition convert_result_to_image (bgr_image resized_image : image)
    (boxes : list row) (threshold : float) (conf_labels : bool) : result image :=
  let '(real_y, real_x, _) := shape bgr_image in
  let '(resized_y, resized_x, _) := shape resized_image in
  ratio_x ← truediv real_x resized_x;
  ratio_y ← truediv real_y resized_y;
  let rgb_image := cvtColor bgr_image COLOR_BGR2RGB in
  for_each (loop_body ratio_x ratio_y threshold conf_labels) boxes rgb_image.

Definition default_threshold : float := lit 3 1.

(** The rows the loop draws: those whose confidence exceeds the threshold. *)
Definition retained (threshold : float) (box : row) : bool :=
  match last box with
  | Some conf => flt threshold conf
  | None => false
  end.

(** The Detection Filter of the notebook: the zero-only rows are dropped by
    the inference cell, the low-confidence rows by the test in the loop. *)
Definition detection_filter (threshold : float) (output : list row) : list row :=
  List.filter (retained threshold) (boxes output).

(** The scaling of one image size onto another, as [convert_result_to_image]
    computes it for the rows it draws. *)
Definition rescale (from_y from_x to_y to_x : Z) (box : row) : result (Z * Z * Z * Z) :=
  ratio_x ← truediv to_x from_x;
  ratio_y ← truediv to_y from_y;
  scaled_corners ratio_x ratio_y box.

(** Resized space to real space and back, with the inverse ratios. *)
Definition round_trip (resized_y resized_x real_y real_x : Z) (box : row)
    : result (Z * Z * Z * Z) :=
  '(x_min, y_min, x_max, y_max) ← rescale resized_y resized_x real_y real_x box;
  rescale real_y real_x resized_y resized_x
    [of_Z x_min; of_Z y_min; of_Z x_max; of_Z y_max; default (of_Z 0) (last box)].

(** Following the specification's words: only the top edge is clamped. *)
Definition scaled_corners_top_clamp_only (ratio_x ratio_y : float)
    (x_min y_min x_max y_max : float) : result (Z * Z * Z * Z) :=
  x0 ← int (fmul x_min ratio_x);
  y0 ← int_max_10 (fmul y_min ratio_y);
  x1 ← int (fmul x_max ratio_x);
  y1 ← int (fmul y_max ratio_y);
  Ok (x0, y0, x1, y1).

(** What the loop does with a row it retains. *)
Definition annotate (conf_labels : bool) (conf : float) (c : Z * Z * Z * Z)
    (rgb_image : image) : image :=
  let '(x_min, y_min, x_max, y_max) := c in
  let rgb_image := rectangle rgb_image (x_min, y_min) (x_max, y_max) green 3 LINE_8 in
  if conf_labels then
    putText rgb_image (format_2f conf) (x_min, y_min - 10)
      FONT_HERSHEY_SIMPLEX (lit 8 1) red 1 LINE_AA
  else rgb_image.

(** The padding row of the model output. *)
Definition zero_row : row := [of_Z 0; of_Z 0; of_Z 0; of_Z 0; of_Z 0].

(** The last cell of the notebook,
    [convert_result_to_image(image, resized_image, boxes, conf_labels=False)],
    on the rows the inference cell kept. *)
Definition show_result (bgr_image resized_image : image) (output : list row)
    : result image :=
  convert_result_to_image bgr_image resized_image (boxes output) default_threshold false.

End Hello.

(** ** TensorFlow object detection notebook

    [add_detection_box] draws on the array it is given and
    [visualize_inference_result] works on a copy, so arrays live in a store
    and are passed by reference.  The state also holds the global random
    generator and the images handed to [plt.imshow]. *)

Module Detection.
Import Cv2.

Definition loc := positive.

(** The generator: the raw draws still to come.  [randint a b] maps the next
    raw draw into [a..b]. *)
Record generator := Generator { tape : nat -> Z; position : nat }.

Record state := State {
  heap : gmap loc image;
  rng : generator;
  shown : list loc
}.

Definition M (A : Type) : Type := state -> result A * state.

#[export] Instance M_ret : MRet M := fun _ a s => (Ok a, s).
#[export] Instance M_bind : MBind M := fun _ _ k m s =>
  match m s with
  | (Ok a, s') => k a s'
  | (Raise e, s') => (Raise e, s')
  end.

Definition lift {A} (r : result A) : M A := fun s => (r, s).

Definition randint (a b : Z) : M Z := fun s =>
  let g := rng s in
  (Ok (a + tape g (position g) mod (b - a + 1)),
   State (heap s) (Generator (tape g) (S (position g))) (shown s)).

(** Reading and updating the array behind a reference.  A Python reference
    always denotes an object; the store is partial, and a reference outside
    it makes the operation raise. *)
Definition read (l : loc) : M image := fun s =>
  match heap s !! l with
  | Some img => (Ok img, s)
  | None => (Raise ValueError, s)
  end.

Definition modify (l : loc) (f : image -> image) : M unit := fun s =>
  match heap s !! l with
  | Some img => (Ok tt, State (<[l := f img]> (heap s)) (rng s) (shown s))
  | None => (Raise ValueError, s)
  end.

(** [np.copy]: a new array with the same contents. *)
Definition np_copy (l : loc) : M loc := fun s =>
  match heap s !! l with
  | Some img =>
      let l' := fresh (dom (heap s)) in
      (Ok l', State (<[l' := img]> (heap s)) (rng s) (shown s))
  | None => (Raise ValueError, s)
  end.

Definition plt_imshow (l : loc) : M unit := fun s =>
  (Ok tt, State (heap s) (rng s) (shown s ++ [l])).

(** The in-place OpenCV calls. *)
Definition cv2_rectangle (img : loc) pt1 pt2 c thickness lineType : M unit :=
  modify img (fun i => rectangle i pt1 pt2 c thickness lineType).

Definition cv2_putText (img : loc) text org fontFace fontScale c thickness lineType : M unit :=
  modify img (fun i => putText i text org fontFace fontScale c thickness lineType).

Definition box : Type := float * float * float * float.

Definition truthy (label : option string) : bool :=
  match label with
  | Some s => negb (String.eqb s "")
  | None => false
  end.

(** [round(0.002 * (image.shape[0] + image.shape[1]) / 2) + 1] *)
Definition line_thickness_of (sh : Z * Z * Z) : result Z :=
  let '(h, w, _) := sh in
  t ← round (fdiv (fmul (lit 2 3) (of_Z (h + w))) (of_Z 2));
  Ok (t + 1).

Definition draw_all (cs : list call) (img : image) : image :=
  Image (shape img) (samples img) (drawn img ++ cs).

(** The three colour components the next draws of a generator give, and the
    generator after [n] draws. *)
Definition colour_of (g : generator) : color :=
  (tape g (position g) mod 256,
   tape g (S (position g)) mod 256,
   tape g (S (S (position g))) mod 256).

Definition advance (n : nat) (g : generator) : generator :=
  Generator (tape g) (n + position g).

(** Two generators that agree on every colour draw to come. *)
Definition same_draws (g1 g2 : generator) : Prop :=
  forall n, tape g1 (n + position g1) mod 256 = tape g2 (n + position g2) mod 256.

(** [int] of the four coordinates, in the order the source converts them. *)
Definition corner_points (b : box) : result (point * point) :=
  let '(ymin, xmin, ymax, xmax) := b in
  x1 ← int xmin; y1 ← int ymin; x2 ← int xmax; y2 ← int ymax;
  Ok ((x1, y1), (x2, y2)).

Section WithFont.

(** [cv2.getTextSize(text, fontFace, fontScale, thickness)]: the size of the
    rendered text and its baseline, read from OpenCV's font tables. *)
Variable getTextSize : string -> Z -> float -> Z -> (Z * Z) * Z.

Definition add_detection_box (b : box) (image : loc) (label : option string) : M loc :=
  let '(ymin, xmin, ymax, xmax) := b in
  x1 ← lift (int xmin);
  y1 ← lift (int ymin);
  x2 ← lift (int xmax);
  y2 ← lift (int ymax);
  let point1 := (x1, y1) in
  let point2 := (x2, y2) in
  c0 ← randint 0 255;
  c1 ← randint 0 255;
  c2 ← randint 0 255;
  let box_color := (c0, c1, c2) in
  img ← read image;
  line_thickness ← lift (line_thickness_of (shape img));
  cv2_rectangle image point1 point2 box_color line_thickness LINE_AA;;
  (if truthy label then
     let text := default "" label in
     let font_thickness := Z.max (line_thickness - 1) 1 in
     let font_face := 0 in
     let font_scale := fdiv (of_Z line_thickness) (of_Z 3) in
     let font_color := (255, 255, 255) in
     let text_size := fst (getTextSize text font_face font_scale font_thickness) in
     let rectangle_point1 := point1 in
     let rectangle_point2 := (fst point1 + fst text_size, snd point1 - snd text_size - 3) in
     cv2_rectangle image rectangle_point1 rectangle_point2 box_color (-1) LINE_AA;;
     let text_position := (fst point1, snd point1 - 3) in
     cv2_putText image text text_position font_face font_scale font_color
       font_thickness LINE_AA
   else mret tt);;
  mret image.

(** The OpenCV calls one invocation of [add_detection_box] makes. *)
Definition box_calls (p1 p2 : point) (c : color) (t : Z) (label : option string) : list call :=
  Rectangle p1 p2 c t LINE_AA ::
  (if truthy label then
     let text := default "" label in
     let font_scale := fdiv (of_Z t) (of_Z 3) in
     let size := fst (getTextSize text 0 font_scale (Z.max (t - 1) 1)) in
     [Rectangle p1 (fst p1 + fst size, snd p1 - snd size - 3) c (-1) LINE_AA;
      PutText text (fst p1, snd p1 - 3) 0 font_scale (255, 255, 255)
        (Z.max (t - 1) 1) LINE_AA]
   else []).

(** The model outputs, batch index 0: [detection_boxes[0]],
    [detection_classes[0]], [detection_scores[0]], and [num_detections]. *)
Record inference_result := InferenceResult {
  detection_boxes : list box;
  detection_classes : list float;
  detection_scores : list float;
  num_detections : list float
}.

Definition index {A} (l : list A) (i : nat) : result A :=
  match l !! i with
  | Some a => Ok a
  | None => Raise IndexError
  end.

(** [labels_map[k]] *)
Definition getitem (labels_map : gmap Z string) (k : Z) : result string :=
  match labels_map !! k with
  | Some name => Ok name
  | None => Raise (KeyError k)
  end.

(** [int(min(detections_limit, num_detections[0]) if detections_limit is not
    None else num_detections[0])]; [min] keeps its first argument unless the
    second is smaller. *)
Definition limit_of (detections_limit : option Z) (nd : float) : result Z :=
  match detections_limit with
  | Some n => if flt nd (of_Z n) then int nd else Ok n
  | None => int nd
  end.

Definition normalize (h w : Z) (b : box) : box :=
  let '(ymin, xmin, ymax, xmax) := b in
  (fmul ymin (of_Z h), fmul xmin (of_Z w), fmul ymax (of_Z h), fmul xmax (of_Z w)).

Definition draw_detection (r : inference_result) (labels_map : gmap Z string)
    (normalized : list box) (target : loc) (i : nat) : M unit :=
  cls ← lift (index (detection_classes r) i);
  k ← lift (int cls);
  detected_class_name ← lift (getitem labels_map k);
  score ← lift (index (detection_scores r) i);
  let label := detected_class_name +:+ " " +:+ format_2f score in
  b ← lift (index normalized i);
  add_detection_box b target (Some label);;
  mret tt.

Fixpoint for_range (body : nat -> M unit) (i count : nat) : M unit :=
  match count with
  | O => mret tt
  | S count => body i;; for_range body (S i) count
  end.

Definition visualize_inference_result (r : inference_result) (image : loc)
    (labels_map : gmap Z string) (detections_limit : option Z) : M unit :=
  nd ← lift (index (num_detections r) 0);
  detections_limit ← lift (limit_of detections_limit nd);
  img ← read image;
  let '(original_image_height, original_image_width, _) := shape img in
  let normalized_detection_boxex :=
    map (normalize original_image_height original_image_width) (detection_boxes r) in
  image_with_detection_boxex ← np_copy image;
  for_range (draw_detection r labels_map normalized_detection_boxex image_with_detection_boxex)
    0 (Z.to_nat detections_limit);;
  plt_imshow image_with_detection_boxex.

(** A detection: box, class index and score. *)
Definition detection : Type := box * float * float.

Definition detections (r : inference_result) : list detection :=
  zip (zip (detection_boxes r) (detection_classes r)) (detection_scores r).

(** Geometry Normalizer, Label Map lookup and Box Renderer for one
    detection. *)
Definition render_detection (h w : Z) (labels_map : gmap Z string) (target : loc)
    (d : detection) : M unit :=
  let '(b, cls, score) := d in
  let normalized := normalize h w b in
  k ← lift (int cls);
  name ← lift (getitem labels_map k);
  add_detection_box normalized target (Some (name +:+ " " +:+ format_2f score));;
  mret tt.

Fixpoint for_each_detection (body : detection -> M unit) (ds : list detection) : M unit :=
  match ds with
  | [] => mret tt
  | d :: ds => body d;; for_each_detection body ds
  end.

(** Following the specification's words: Detection Filter, then truncation
    to the first N, then the three steps for each retained detection; the
    annotated image is returned. *)
Definition pipeline_as_specified (threshold : float) (r : inference_result) (image : loc)
    (labels_map : gmap Z string) (maximum : option Z) : M loc :=
  img ← read image;
  let '(h, w, _) := shape img in
  let filtered := List.filter (fun d : detection => flt threshold d.2) (detections r) in
  let retained :=
    match maximum with
    | Some n => take (Z.to_nat n) filtered
    | None => filtered
    end in
  annotated ← np_copy image;
  for_each_detection (render_detection h w labels_map annotated) retained;;
  mret annotated.

(** What the code does: no filter; the first [n] detections, in order. *)
Definition pipeline_unfiltered (r : inference_result) (image : loc)
    (labels_map : gmap Z string) (detections_limit : option Z) : M unit :=
  nd ← lift (index (num_detections r) 0);
  n ← lift (limit_of detections_limit nd);
  img ← read image;
  let '(h, w, _) := shape img in
  annotated ← np_copy image;
  for_each_detection (render_detection h w labels_map annotated)
    (take (Z.to_nat n) (detections r));;
  plt_imshow annotated.

End WithFont.

(** [str.strip()] and [str.split("\n")] on the text read from the labels
    file. *)
Definition is_space (a : ascii) : bool :=
  let n := nat_of_ascii a in
  ((9 <=? n)%nat && (n <=? 13)%nat) || ((28 <=? n)%nat && (n <=? 32)%nat).

Fixpoint lstrip (s : string) : string :=
  match s with
  | String a s' => if is_space a then lstrip s' else s
  | EmptyString => EmptyString
  end.

Definition strip (s : string) : string :=
  String.rev (lstrip (String.rev (lstrip s))).

Definition newline : ascii := ascii_of_nat 10.

Fixpoint split_lines (s : string) : list string :=
  match s with
  | EmptyString => [EmptyString]
  | String a s' =>
      if Ascii.eqb a newline then EmptyString :: split_lines s'
      else match split_lines s' with
           | w :: ws => String a w :: ws
           | [] => [String a EmptyString]
           end
  end.

Definition read_labels (content : string) : list string :=
  split_lines (strip content).

(** [coco_labels = file.read().strip().split("\n")] and
    [coco_labels_map = dict(enumerate(coco_labels, 1))] *)
Definition enumerate_from {A} (start : Z) (l : list A) : list (Z * A) :=
  imap (fun i a => (start + Z.of_nat i, a)) l.

Definition dict {A} (items : list (Z * A)) : gmap Z A :=
  foldl (fun m kv => <[kv.1 := kv.2]> m) ∅ items.

Definition coco_labels_map (coco_labels : list string) : gmap Z string :=
  dict (enumerate_from 1 coco_labels).

End Detection.

(** ** Concrete inputs *)

Section Inputs.
Import Cv2 Hello Detection.

(** A stand-in for OpenCV's font tables: ten pixels a character, twelve
    high. *)
Definition fixed_font (text : string) (fontFace : Z) (fontScale : float) (thickness : Z)
    : (Z * Z) * Z :=
  ((10 * Z.of_nat (String.length text), 12), 4).

Definition black (h w : Z) : image :=
  Image (h, w, 3) (replicate (Z.to_nat (h * w * 3)) 0) [].

Definition two_detections : inference_result :=
  InferenceResult
    [(lit 1 1, lit 2 1, lit 5 1, lit 6 1); (lit 3 1, lit 3 1, lit 9 1, lit 9 1)]
    [of_Z 1; of_Z 2]
    [lit 95 2; lit 12 2]
    [of_Z 2].

Definition start (g : nat -> Z) : state :=
  State {[ 1%positive := black 8 10 ]} (Generator g 0) [].

Definition unit_box : box := (lit 1 1, lit 2 1, lit 5 1, lit 6 1).

Definition cat_dog : gmap Z string := coco_labels_map ["cat"; "dog"].

Definition two_labels_file : string :=
  "cat" +:+ String newline "dog" +:+ String newline "".

End Inputs.

Lemma result_bind_ok {A B} (a : A) (k : A -> result B) : (Ok a ≫= k) = k a.
Proof. done. Qed.

(** ** Rounding in binary64

    What [binary_round_aux], the rounding step shared by every operation of
    the float specification, does to a positive mantissa: first on integers,
    then on the real numbers the floats stand for. *)

Section Rounding.

Lemma digits2_pos_size p : digits2_pos p = Pos.size p.
Proof. induction p; cbn; congruence. Qed.

Lemma Zdigits2_log2 m : 0 < m -> Zdigits2 m = Z.log2 m + 1.
Proof.
  destruct m as [|p|p]; try lia. intros _. cbn. rewrite digits2_pos_size.
  destruct p; cbn; lia.
Qed.

Lemma Zdigits2_bounds m :
  0 < m -> 2 ^ (Zdigits2 m - 1) <= m < 2 ^ Zdigits2 m.
Proof.
  intros Hm. rewrite Zdigits2_log2 by done.
  replace (Z.log2 m + 1 - 1) with (Z.log2 m) by lia.
  apply Z.log2_spec in Hm. unfold Z.succ in Hm. lia.
Qed.

Lemma Zdigits2_pos m : 0 < m -> 0 < Zdigits2 m.
Proof. intros Hm. rewrite Zdigits2_log2 by done. pose proof (Z.log2_nonneg m). lia. Qed.

(** digits are determined by the bracket *)
Lemma Zdigits2_unique m d : 0 < d -> 2 ^ (d - 1) <= m < 2 ^ d -> Zdigits2 m = d.
Proof.
  intros Hd Hm. assert (0 < m) by (pose proof (Z.pow_pos_nonneg 2 (d - 1)); lia).
  rewrite Zdigits2_log2 by done.
  rewrite (Z.log2_unique m (d - 1)); [lia|lia|].
  unfold Z.succ. replace (d - 1 + 1) with d by lia. done.
Qed.

Lemma iter_pos_nat {A} (f : A -> A) p x :
  SpecFloat.iter_pos f p x = Nat.iter (Pos.to_nat p) f x.
Proof.
  revert x. induction p as [p IH|p IH|]; intros x; cbn [SpecFloat.iter_pos].
  - rewrite !IH, Pos2Nat.inj_xI.
    replace (S (2 * Pos.to_nat p)) with (Pos.to_nat p + (Pos.to_nat p + 1))%nat by lia.
    rewrite !Nat.iter_add. done.
  - rewrite !IH, Pos2Nat.inj_xO.
    replace (2 * Pos.to_nat p)%nat with (Pos.to_nat p + Pos.to_nat p)%nat by lia.
    by rewrite Nat.iter_add.
  - done.
Qed.

Lemma shr_1_m mrs : 0 <= shr_m mrs -> shr_m (shr_1 mrs) = shr_m mrs / 2.
Proof.
  destruct mrs as [m r s]. cbn [shr_m]. intros Hm. rewrite <- Z.div2_div.
  destruct m as [|[p|p|]|p]; done.
Qed.

Lemma shr_nat_m n mrs :
  0 <= shr_m mrs -> shr_m (Nat.iter n shr_1 mrs) = shr_m mrs / 2 ^ Z.of_nat n.
Proof.
  intros Hm. induction n as [|n IH].
  - cbn. by rewrite Z.div_1_r.
  - rewrite Nat.iter_succ, shr_1_m.
    + rewrite IH, Nat2Z.inj_succ, Z.pow_succ_r by lia.
      rewrite Z.div_div by lia. f_equal. lia.
    + rewrite IH. apply Z.div_pos; lia.
Qed.

Lemma shr_1_exact m :
  shr_1 (Build_shr_record (2 * m) false false) = Build_shr_record m false false.
Proof. destruct m as [|p|p]; done. Qed.

Lemma shr_nat_exact n m :
  Nat.iter n shr_1 (Build_shr_record (m * 2 ^ Z.of_nat n) false false) =
  Build_shr_record m false false.
Proof.
  revert m. induction n as [|n IH]; intros m.
  - cbn. f_equal. lia.
  - rewrite Nat.iter_succ_r.
    replace (m * 2 ^ Z.of_nat (S n)) with (2 * (m * 2 ^ Z.of_nat n))
      by (rewrite Nat2Z.inj_succ, Z.pow_succ_r by lia; lia).
    by rewrite shr_1_exact, IH.
Qed.

Definition fexp64 (e : Z) : Z := fexp prec emax e.

Lemma fexp64_eq e : fexp64 e = Z.max (e - 53) (-1074).
Proof. done. Qed.

Lemma Zdigits2_nonneg m : 0 <= Zdigits2 m.
Proof. destruct m; cbn; lia. Qed.

Lemma Zdigits2_div m k :
  0 < m -> 0 <= k < Zdigits2 m -> Zdigits2 (m / 2 ^ k) = Zdigits2 m - k.
Proof.
  intros Hm Hk. pose proof (Zdigits2_bounds m Hm) as [Hlo Hhi].
  assert (H2k : 0 < 2 ^ k) by (apply Z.pow_pos_nonneg; lia).
  apply Zdigits2_unique; [lia|]. split.
  - apply Z.div_le_lower_bound; [done|].
    rewrite <- Z.pow_add_r by lia. by replace (k + (Zdigits2 m - k - 1)) with (Zdigits2 m - 1) by lia.
  - apply Z.div_lt_upper_bound; [done|].
    rewrite <- Z.pow_add_r by lia. by replace (k + (Zdigits2 m - k)) with (Zdigits2 m) by lia.
Qed.

Lemma Zdigits2_div_small m k :
  0 < m -> Zdigits2 m <= k -> m / 2 ^ k = 0.
Proof.
  intros Hm Hk. pose proof (Zdigits2_bounds m Hm) as [Hlo Hhi].
  apply Z.div_small. split; [lia|].
  eapply Z.lt_le_trans; [exact Hhi|]. apply Z.pow_le_mono_r; lia.
Qed.

Lemma Zdigits2_succ m :
  0 <= m ->
  Zdigits2 (m + 1) = Zdigits2 m \/
  (Zdigits2 (m + 1) = Zdigits2 m + 1 /\ m + 1 = 2 ^ Zdigits2 m).
Proof.
  intros Hm. destruct (Z.eq_dec m 0) as [->|Hne]; [by right|].
  assert (Hpos : 0 < m) by lia.
  pose proof (Zdigits2_bounds m Hpos) as [Hlo Hhi].
  pose proof (Zdigits2_pos m Hpos) as Hd.
  destruct (Z.eq_dec (m + 1) (2 ^ Zdigits2 m)) as [Heq|Hlt].
  - right. split; [|done]. apply Zdigits2_unique; [lia|].
    replace (Zdigits2 m + 1 - 1) with (Zdigits2 m) by lia.
    rewrite Z.pow_add_r by lia. lia.
  - left. apply Zdigits2_unique; [lia|]. lia.
Qed.

Lemma shr_record_of_loc_m m l : shr_m (shr_record_of_loc m l) = m.
Proof. by destruct l as [|[]]. Qed.

Lemma loc_of_shr_record_of_loc m l : loc_of_shr_record (shr_record_of_loc m l) = l.
Proof. by destruct l as [|[]]. Qed.

(** The first shift of [binary_round_aux]. *)
Definition shift_of (m e : Z) : Z := Z.max 0 (fexp64 (Zdigits2 m + e) - e).

Lemma shr_fexp_spec m e l :
  0 <= m ->
  shr_m (shr_fexp prec emax m e l).1 = m / 2 ^ shift_of m e /\
  (shr_fexp prec emax m e l).2 = e + shift_of m e.
Proof.
  intros Hm. unfold shr_fexp, shift_of, fexp64, shr.
  destruct (fexp prec emax (Zdigits2 m + e) - e) as [|p|p] eqn:Hk.
  - cbn [fst snd]. rewrite shr_record_of_loc_m. change (Z.max 0 0) with 0.
    rewrite Z.div_1_r. split; [done|lia].
  - cbn [fst snd]. rewrite iter_pos_nat, shr_nat_m by (rewrite shr_record_of_loc_m; lia).
    rewrite shr_record_of_loc_m, positive_nat_Z.
    replace (Z.max 0 (Z.pos p)) with (Z.pos p) by lia. done.
  - cbn [fst snd]. rewrite shr_record_of_loc_m.
    replace (Z.max 0 (Z.neg p)) with 0 by lia. rewrite Z.div_1_r. split; [done|lia].
Qed.

Lemma shr_fexp_exact m e :
  0 <= m -> m mod 2 ^ shift_of m e = 0 ->
  loc_of_shr_record (shr_fexp prec emax m e loc_Exact).1 = loc_Exact.
Proof.
  intros Hm Hmod. unfold shr_fexp, shift_of, fexp64, shr in *.
  destruct (fexp prec emax (Zdigits2 m + e) - e) as [|p|p] eqn:Hk; try done.
  cbn [fst]. rewrite iter_pos_nat. replace (Z.max 0 (Z.pos p)) with (Z.pos p) in Hmod by lia.
  apply Z.div_exact in Hmod; [|apply Z.pow_nonzero; lia].
  cbn [shr_record_of_loc]. rewrite Hmod at 1.
  rewrite <- (positive_nat_Z p), Z.mul_comm. by rewrite shr_nat_exact.
Qed.

Lemma round_nearest_even_range m l :
  round_nearest_even m l = m \/ round_nearest_even m l = m + 1.
Proof. destruct l as [|[]]; cbn; try tauto. destruct (Z.even m); tauto. Qed.

(** The float [binary_round_aux] builds from its final mantissa and
    exponent. *)
Definition pack (s : bool) (m e : Z) : float :=
  match m with
  | 0 => S754_zero s
  | Z.pos p => if e <=? emax - prec then S754_finite s p e else S754_infinity s
  | Z.neg _ => S754_nan
  end.

Lemma shift_of_fits m e :
  0 < m ->
  fexp64 (Zdigits2 (m / 2 ^ shift_of m e) + (e + shift_of m e)) <= e + shift_of m e.
Proof.
  intros Hm. unfold shift_of.
  destruct (Z.max_spec 0 (fexp64 (Zdigits2 m + e) - e)) as [[Hk ->]|[Hk ->]].
  - destruct (Z_lt_le_dec (fexp64 (Zdigits2 m + e) - e) (Zdigits2 m)) as [Hlt|Hge].
    + rewrite Zdigits2_div by lia.
      replace (Zdigits2 m - (fexp64 (Zdigits2 m + e) - e) + (e + (fexp64 (Zdigits2 m + e) - e)))
        with (Zdigits2 m + e) by lia. lia.
    + rewrite Zdigits2_div_small by lia. cbn [Zdigits2].
      rewrite !fexp64_eq in *. lia.
  - rewrite Z.div_1_r. replace (e + 0) with e by lia. lia.
Qed.

Lemma binary_round_aux_spec s m e l :
  0 < m ->
  exists m2 m3 e3,
    (m2 = m / 2 ^ shift_of m e \/ m2 = m / 2 ^ shift_of m e + 1) /\
    (l = loc_Exact -> m mod 2 ^ shift_of m e = 0 -> m2 = m / 2 ^ shift_of m e) /\
    e + shift_of m e <= e3 <= e + shift_of m e + 1 /\
    m3 * 2 ^ (e3 - (e + shift_of m e)) = m2 /\
    (0 < m3 -> fexp64 (Zdigits2 m3 + e3) <= e3) /\
    binary_round_aux prec emax s m e l = pack s m3 e3.
Proof.
  intros Hm. unfold binary_round_aux.
  pose proof (shr_fexp_spec m e l ltac:(lia)) as [Hm1 He1].
  pose proof (shift_of_fits m e Hm) as Hfits.
  assert (Hk0 : 0 <= shift_of m e) by (unfold shift_of; lia).
  assert (Hm1pos : 0 <= m / 2 ^ shift_of m e) by (apply Z.div_pos; lia).
  assert (Hexact : l = loc_Exact -> m mod 2 ^ shift_of m e = 0 ->
            loc_of_shr_record (shr_fexp prec emax m e l).1 = loc_Exact).
  { intros -> Hmod. apply shr_fexp_exact; [lia|done]. }
  destruct (shr_fexp prec emax m e l) as [mrs' e']. cbn [fst snd] in *. subst e'.
  set (m1 := m / 2 ^ shift_of m e) in *. set (e1 := e + shift_of m e) in *.
  rewrite Hm1.
  set (m2 := round_nearest_even m1 (loc_of_shr_record mrs')).
  assert (Hm2 : m2 = m1 \/ m2 = m1 + 1) by apply round_nearest_even_range.
  assert (Hm2pos : 0 <= m2) by lia.
  pose proof (shr_fexp_spec m2 e1 loc_Exact Hm2pos) as [Hm3 He3].
  assert (Hfits2 : 0 < m2 ->
    fexp64 (Zdigits2 (m2 / 2 ^ shift_of m2 e1) + (e1 + shift_of m2 e1)) <= e1 + shift_of m2 e1)
    by apply shift_of_fits.
  destruct (shr_fexp prec emax m2 e1 loc_Exact) as [mrs'' e'']. cbn [fst snd] in *.
  exists m2, (shr_m mrs''), e''. split; [done|]. split.
  { intros Hl Hmod. subst m2. by rewrite (Hexact Hl Hmod). }
  assert (Hk2 : shift_of m2 e1 = 0 \/ (shift_of m2 e1 = 1 /\ m2 = 2 * (m2 / 2))).
  { unfold shift_of. destruct Hm2 as [->| ->]; [left; lia|].
    destruct (Zdigits2_succ m1 Hm1pos) as [->|[-> Hpow]]; [left; lia|].
    rewrite !fexp64_eq in *.
    destruct (Z.eq_dec m1 0) as [Hz|Hnz].
    - left. rewrite Hz in *. cbn [Zdigits2] in *.
      assert (Hk : 0 < shift_of m e).
      { destruct (Z.eq_dec (shift_of m e) 0) as [H0|]; [|lia].
        subst m1. rewrite H0, Z.div_1_r in Hz. lia. }
      unfold shift_of in Hk. rewrite fexp64_eq in Hk. subst e1. unfold shift_of.
      rewrite fexp64_eq. lia.
    - assert (0 < Zdigits2 m1) by (apply Zdigits2_pos; lia).
      destruct (Z_le_gt_dec (Z.max (Zdigits2 m1 + 1 + e1 - 53) (-1074) - e1) 0); [left; lia|].
      right. split; [lia|]. rewrite Hpow.
      replace (Zdigits2 m1) with (Z.succ (Zdigits2 m1 - 1)) at 1 2 by lia.
      rewrite Z.pow_succ_r by lia.
      rewrite (Z.mul_comm 2), Z.div_mul by lia. lia. }
  split; [|split; [|split]].
  - rewrite He3. destruct Hk2 as [->|[-> _]]; lia.
  - rewrite Hm3, He3. destruct Hk2 as [->|[-> Heven]].
    + replace (e1 + 0 - e1) with 0 by lia. rewrite Z.div_1_r. lia.
    + replace (e1 + 1 - e1) with 1 by lia. change (2 ^ 1) with 2. lia.
  - rewrite Hm3, He3. intros Hpos. apply Hfits2.
    destruct (Z.eq_dec m2 0) as [Hz|]; [|lia]. rewrite Hz, Zdiv_0_l in Hpos. lia.
  - unfold pack. by destruct (shr_m mrs'').
Qed.

End Rounding.

(** ** Values of floats as real numbers *)

Section Values.

Definition pow2 (e : Z) : R := powerRZ 2 e.

Lemma pow2_pos e : (0 < pow2 e)%R.
Proof. apply powerRZ_lt. lra. Qed.

Lemma pow2_add a b : pow2 (a + b) = (pow2 a * pow2 b)%R.
Proof. apply powerRZ_add. lra. Qed.

Lemma pow2_IZR k : 0 <= k -> IZR (2 ^ k) = pow2 k.
Proof.
  intros Hk. unfold pow2. rewrite <- (Z2Nat.id k) by done.
  rewrite <- pow_IZR. apply pow_powerRZ.
Qed.

Lemma pow2_1 : pow2 1 = 2%R.
Proof. rewrite <- (pow2_IZR 1) by lia. done. Qed.

Lemma pow2_ge_1 k : 0 <= k -> (1 <= pow2 k)%R.
Proof.
  intros Hk. rewrite <- pow2_IZR by done. apply IZR_le.
  pose proof (Z.pow_pos_nonneg 2 k). lia.
Qed.

Lemma pow2_le a b : a <= b -> (pow2 a <= pow2 b)%R.
Proof.
  intros Hab. replace b with (a + (b - a)) by lia. rewrite pow2_add.
  pose proof (pow2_pos a). pose proof (pow2_ge_1 (b - a) ltac:(lia)). nra.
Qed.

Lemma pow2_0 : pow2 0 = 1%R.
Proof. done. Qed.


(** A positive finite float that fits its exponent, and the real number it
    stands for. *)
Definition represents (x : float) (v : R) : Prop :=
  exists m e, x = S754_finite false m e /\
              fexp64 (Zdigits2 (Z.pos m) + e) <= e /\
              v = (IZR (Z.pos m) * pow2 e)%R.

Lemma represents_pos x v : represents x v -> (0 < v)%R.
Proof.
  intros (m & e & -> & _ & ->). apply Rmult_lt_0_compat; [|apply pow2_pos].
  apply IZR_lt. lia.
Qed.

Lemma pack_represents m e :
  0 < m -> e <= 971 -> fexp64 (Zdigits2 m + e) <= e ->
  represents (pack false m e) (IZR m * pow2 e).
Proof.
  intros Hm He Hfits. destruct m as [|p|p]; try lia.
  unfold pack. replace (e <=? emax - prec) with true by (unfold emax, prec; lia).
  by exists p, e.
Qed.

(** [binary_round_aux] on a positive mantissa: the result stands for a real
    within one unit of the target exponent of [m * 2^e], and for [m * 2^e]
    itself when nothing is lost in the shift. *)
Lemma binary_round_aux_value m e l :
  0 < m ->
  0 < m / 2 ^ shift_of m e ->
  e + shift_of m e + 1 <= 971 ->
  exists v,
    represents (binary_round_aux prec emax false m e l) v /\
    (IZR m * pow2 e - pow2 (e + shift_of m e) < v <=
       IZR m * pow2 e + pow2 (e + shift_of m e))%R /\
    (l = loc_Exact -> m mod 2 ^ shift_of m e = 0 -> v = (IZR m * pow2 e)%R).
Proof.
  intros Hm Hm1 He.
  destruct (binary_round_aux_spec false m e l Hm)
    as (m2 & m3 & e3 & Hm2 & Hexact & He3 & Hm3 & Hfits & ->).
  set (k := shift_of m e) in *.
  assert (Hk : 0 <= k) by (unfold k, shift_of; lia).
  assert (H2k : 0 < 2 ^ k) by (apply Z.pow_pos_nonneg; lia).
  assert (Hm3pos : 0 < m3).
  { assert (0 < 2 ^ (e3 - (e + k))) by (apply Z.pow_pos_nonneg; lia). nia. }
  exists (IZR m3 * pow2 e3)%R. split; [apply pack_represents; [done|lia|auto]|].
  assert (Hval : (IZR m3 * pow2 e3 = IZR m2 * pow2 (e + k))%R).
  { replace e3 with ((e3 - (e + k)) + (e + k)) at 1 by lia.
    rewrite pow2_add, <- Hm3, mult_IZR, pow2_IZR by lia. ring. }
  rewrite Hval, (pow2_add e k), <- (pow2_IZR k) by done.
  pose proof (pow2_pos e) as Hpe.
  assert (Hdiv : (IZR (m / 2 ^ k) * IZR (2 ^ k) <= IZR m < (IZR (m / 2 ^ k) + 1) * IZR (2 ^ k))%R).
  { rewrite <- plus_IZR, <- !mult_IZR. split; [apply IZR_le|apply IZR_lt].
    - pose proof (Z.mul_div_le m (2 ^ k) H2k). lia.
    - pose proof (Z.mul_succ_div_gt m (2 ^ k) H2k). lia. }
  assert (H2kR : (0 < IZR (2 ^ k))%R) by (apply IZR_lt; lia).
  split.
  - destruct Hm2 as [-> | ->]; [|rewrite plus_IZR]; split; nra.
  - intros Hl Hmod. rewrite (Hexact Hl Hmod).
    apply Z.div_exact in Hmod; [|lia]. rewrite Hmod at 2. rewrite mult_IZR. ring.
Qed.

Lemma pow2_lt_inv a b : (pow2 a < pow2 b)%R -> a < b.
Proof.
  intros H. destruct (Z_lt_le_dec a b) as [|Hle]; [done|].
  apply pow2_le in Hle. lra.
Qed.

Lemma IZR_digits_bounds m :
  0 < m -> (pow2 (Zdigits2 m - 1) <= IZR m < pow2 (Zdigits2 m))%R.
Proof.
  intros Hm. pose proof (Zdigits2_bounds m Hm) as [Hlo Hhi].
  pose proof (Zdigits2_pos m Hm).
  rewrite <- !pow2_IZR by lia. split; [by apply IZR_le|by apply IZR_lt].
Qed.

Lemma Zdigits2_mul_pow2 m j :
  0 < m -> 0 <= j -> Zdigits2 (m * 2 ^ j) = Zdigits2 m + j.
Proof.
  intros Hm Hj. pose proof (Zdigits2_bounds m Hm) as [Hlo Hhi].
  pose proof (Zdigits2_pos m Hm).
  assert (0 < 2 ^ j) by (apply Z.pow_pos_nonneg; lia).
  apply Zdigits2_unique; [lia|]. split.
  - replace (Zdigits2 m + j - 1) with ((Zdigits2 m - 1) + j) by lia.
    rewrite Z.pow_add_r by lia. nia.
  - rewrite Z.pow_add_r by lia. nia.
Qed.

Lemma pos_iter_xO m d : Z.pos (Pos.iter xO m d) = Z.pos m * 2 ^ Z.pos d.
Proof.
  induction d as [|d IH] using Pos.peano_ind.
  - cbn. lia.
  - rewrite Pos.iter_succ, Pos2Z.inj_xO, IH, Pos2Z.inj_succ, Z.pow_succ_r by lia. lia.
Qed.

Lemma shl_align_spec mx ex ex' :
  (shl_align mx ex ex').2 = Z.min ex ex' /\
  Z.pos (shl_align mx ex ex').1 = Z.pos mx * 2 ^ (ex - Z.min ex ex').
Proof.
  unfold shl_align. destruct (ex' - ex) as [|d|d] eqn:Hd; cbn [fst snd].
  - replace (Z.min ex ex') with ex by lia. rewrite Z.sub_diag. lia.
  - replace (Z.min ex ex') with ex by lia. rewrite Z.sub_diag. lia.
  - replace (Z.min ex ex') with ex' by lia. rewrite pos_iter_xO.
    replace (ex - ex') with (Z.pos d) by lia. done.
Qed.

(** [float(n)] is exact below 2^53. *)
Lemma of_Z_represents n : 0 < n < 2 ^ 53 -> represents (of_Z n) (IZR n).
Proof.
  intros Hn. destruct n as [|p|p]; try lia.
  unfold of_Z, binary_normalize, binary_round.
  pose proof (shl_align_spec p 0 (fexp prec emax (Z.pos (digits2_pos p) + 0))) as [Hez Hmz].
  destruct (shl_align p 0 _) as [mz ez]. cbn [fst snd] in *.
  change (Z.pos (digits2_pos p)) with (Zdigits2 (Z.pos p)) in *.
  change (fexp prec emax) with fexp64 in *. rewrite fexp64_eq in *.
  pose proof (Zdigits2_pos (Z.pos p) ltac:(lia)) as Hd.
  assert (Hd53 : Zdigits2 (Z.pos p) <= 53).
  { destruct (Z_le_gt_dec (Zdigits2 (Z.pos p)) 53) as [|Hgt]; [done|].
    pose proof (Zdigits2_bounds (Z.pos p) ltac:(lia)) as [Hlo _].
    assert (2 ^ 53 <= 2 ^ (Zdigits2 (Z.pos p) - 1)) by (apply Z.pow_le_mono_r; lia). lia. }
  assert (Hez' : ez = Zdigits2 (Z.pos p) - 53) by lia.
  assert (Hmz' : Z.pos mz = Z.pos p * 2 ^ (53 - Zdigits2 (Z.pos p))).
  { rewrite Hmz. f_equal. f_equal. lia. }
  assert (Hdz : Zdigits2 (Z.pos mz) = 53).
  { rewrite Hmz', Zdigits2_mul_pow2 by lia. lia. }
  assert (Hshift : shift_of (Z.pos mz) ez = 0).
  { unfold shift_of. rewrite fexp64_eq, Hdz. lia. }
  destruct (binary_round_aux_value (Z.pos mz) ez loc_Exact) as (v & Hv & _ & Hexact).
  - lia.
  - rewrite Hshift, Z.div_1_r. lia.
  - rewrite Hshift. lia.
  - rewrite Hexact in Hv; [|done|by rewrite Hshift, Z.mod_1_r].
    replace (IZR (Z.pos p)) with (IZR (Z.pos mz) * pow2 ez)%R; [done|].
    rewrite Hmz', mult_IZR, pow2_IZR, Hez', Rmult_assoc, <- pow2_add by lia.
    replace (53 - Zdigits2 (Z.pos p) + (Zdigits2 (Z.pos p) - 53)) with 0 by lia.
    rewrite pow2_0. ring.
Qed.

Lemma Zdigits2_gt_0 q : 0 <= q -> 0 < Zdigits2 q -> 0 < q.
Proof. destruct q; cbn; lia. Qed.

Lemma div_pow2_pos m k :
  0 < m -> 0 <= k < Zdigits2 m -> 0 < m / 2 ^ k.
Proof.
  intros Hm Hk. apply Zdigits2_gt_0.
  - apply Z.div_pos; [lia|]. apply Z.pow_pos_nonneg; lia.
  - rewrite Zdigits2_div by done. lia.
Qed.

Lemma represents_fits_digits m e :
  fexp64 (Zdigits2 (Z.pos m) + e) <= e -> Zdigits2 (Z.pos m) <= 53 /\ -1074 <= e.
Proof. rewrite fexp64_eq. lia. Qed.

(** Magnitude of [m * 2^e] from its real bounds. *)
Lemma magnitude_bounds m e lo hi :
  0 < m -> (pow2 lo <= IZR m * pow2 e < pow2 hi)%R ->
  lo < Zdigits2 m + e <= hi.
Proof.
  intros Hm [Hlo Hhi]. pose proof (IZR_digits_bounds m Hm) as [Hdl Hdh].
  pose proof (pow2_pos e). split.
  - apply pow2_lt_inv. rewrite pow2_add. nra.
  - assert (Zdigits2 m - 1 + e < hi); [|lia].
    apply pow2_lt_inv. rewrite pow2_add. nra.
Qed.

Definition eps : R := pow2 (-52).

(** The product of two floats, within the normal range, is within a
    relative [2^-52] of the real product. *)
Lemma fmul_represents x y vx vy :
  represents x vx -> represents y vy ->
  (pow2 (-900) <= vx * vy < pow2 900)%R ->
  exists v, represents (fmul x y) v /\
            (vx * vy * (1 - eps) <= v <= vx * vy * (1 + eps))%R.
Proof.
  intros (mx & ex & -> & Hfx & ->) (my & ey & -> & Hfy & ->) Hrange.
  unfold fmul, SFmul. cbn [xorb].
  set (m := Z.pos (mx * my)). set (e := ex + ey).
  assert (Hval : (IZR (Z.pos mx) * pow2 ex * (IZR (Z.pos my) * pow2 ey) = IZR m * pow2 e)%R).
  { unfold m, e. rewrite Pos2Z.inj_mul, mult_IZR, pow2_add. ring. }
  rewrite Hval in *.
  assert (Hm : 0 < m) by (unfold m; lia).
  pose proof (magnitude_bounds m e _ _ Hm Hrange) as Hmag.
  pose proof (IZR_digits_bounds m Hm) as [Hdl Hdh].
  pose proof (Zdigits2_pos m Hm) as Hd.
  assert (Hk : shift_of m e = Z.max 0 (Zdigits2 m - 53)).
  { unfold shift_of. rewrite fexp64_eq. lia. }
  assert (He : e < 900).
  { apply pow2_lt_inv. assert (1 <= IZR m)%R by (apply IZR_le; lia).
    pose proof (pow2_pos e). nra. }
  destruct (binary_round_aux_value m e loc_Exact Hm) as (v & Hv & Hbound & Hexact).
  - rewrite Hk. destruct (Z_le_gt_dec (Zdigits2 m) 53).
    + replace (Z.max 0 (Zdigits2 m - 53)) with 0 by lia. rewrite Z.div_1_r. lia.
    + replace (Z.max 0 (Zdigits2 m - 53)) with (Zdigits2 m - 53) by lia.
      apply div_pow2_pos; lia.
  - rewrite Hk. lia.
  - exists v. split; [done|]. unfold eps.
    pose proof (pow2_pos e) as Hpe. pose proof (pow2_pos (-52)) as Heps.
    assert (Hmr : (0 < IZR m)%R) by (apply IZR_lt; lia).
    assert (HT : (0 < IZR m * pow2 e)%R) by (by apply Rmult_lt_0_compat).
    destruct (Z_le_gt_dec (Zdigits2 m) 53).
    + rewrite Hexact; [|done|].
      * set (T := (IZR m * pow2 e)%R) in *. nra.
      * rewrite Hk. replace (Z.max 0 (Zdigits2 m - 53)) with 0 by lia. apply Z.mod_1_r.
    + rewrite Hk in Hbound.
      replace (Z.max 0 (Zdigits2 m - 53)) with (Zdigits2 m - 53) in Hbound by lia.
      replace (e + (Zdigits2 m - 53)) with ((Zdigits2 m - 1) + e + -52) in Hbound by lia.
      rewrite !pow2_add in Hbound.
      assert (Hulp : (pow2 (Zdigits2 m - 1) * pow2 e * pow2 (-52)
                      <= IZR m * pow2 e * pow2 (-52))%R).
      { apply Rmult_le_compat_r; [lra|]. apply Rmult_le_compat_r; lra. }
      set (T := (IZR m * pow2 e)%R) in *.
      set (U := (pow2 (Zdigits2 m - 1) * pow2 e * pow2 (-52))%R) in *.
      set (E := pow2 (-52)) in *. nra.
Qed.

(** Multiplying by a float that stands for 1 is exact. *)
Lemma fmul_one_represents x y vx :
  represents x vx -> represents y 1 -> (vx < pow2 900)%R ->
  represents (fmul x y) vx.
Proof.
  intros (mx & ex & -> & Hfx & ->) (my & ey & -> & Hfy & Hone) Hrange.
  unfold fmul, SFmul. cbn [xorb].
  pose proof (represents_fits_digits _ _ Hfx) as [Hdx Hex].
  assert (Hey : ey <= 0).
  { destruct (Z_le_gt_dec ey 0) as [|Hgt]; [done|].
    assert (1 <= IZR (Z.pos my))%R by (apply IZR_le; lia).
    pose proof (pow2_le 1 ey ltac:(lia)) as Hp. rewrite pow2_1 in Hp. nra. }
  assert (Hmy : Z.pos my = 2 ^ (- ey)).
  { apply eq_IZR. rewrite pow2_IZR by lia.
    pose proof (pow2_add (- ey) ey) as Hp. replace (- ey + ey) with 0 in Hp by lia.
    rewrite pow2_0 in Hp. pose proof (pow2_pos ey). nra. }
  set (m := Z.pos (mx * my)). set (e := ex + ey).
  assert (Hm : m = Z.pos mx * 2 ^ (- ey)) by (unfold m; lia).
  assert (Hd : Zdigits2 m = Zdigits2 (Z.pos mx) - ey).
  { rewrite Hm, Zdigits2_mul_pow2 by lia. lia. }
  assert (Hk : 0 <= shift_of m e <= - ey).
  { unfold shift_of. rewrite Hd. unfold e.
    replace (Zdigits2 (Z.pos mx) - ey + (ex + ey)) with (Zdigits2 (Z.pos mx) + ex) by lia.
    lia. }
  assert (Hdiv : m = (Z.pos mx * 2 ^ (- ey - shift_of m e)) * 2 ^ shift_of m e).
  { rewrite <- Z.mul_assoc, <- Z.pow_add_r by lia.
    by replace (- ey - shift_of m e + shift_of m e) with (- ey) by lia. }
  assert (Hex900 : ex < 900).
  { apply pow2_lt_inv. assert (1 <= IZR (Z.pos mx))%R by (apply IZR_le; lia).
    pose proof (pow2_pos ex). nra. }
  destruct (binary_round_aux_value m e loc_Exact) as (v & Hv & _ & Hexact).
  - lia.
  - rewrite Hdiv at 1. rewrite Z.div_mul by (apply Z.pow_nonzero; lia).
    assert (0 < 2 ^ (- ey - shift_of m e)) by (apply Z.pow_pos_nonneg; lia). lia.
  - assert (e = ex + ey) by done. lia.
  - rewrite Hexact in Hv; [|done|].
    + replace (IZR (Z.pos mx) * pow2 ex)%R with (IZR m * pow2 e)%R; [done|].
      unfold e. rewrite Hm, mult_IZR, pow2_IZR, pow2_add by lia.
      pose proof (pow2_add (- ey) ey) as Hp. replace (- ey + ey) with 0 in Hp by lia.
      rewrite pow2_0 in Hp.
      transitivity (IZR (Z.pos mx) * pow2 ex * (pow2 (- ey) * pow2 ey))%R; [ring|].
      rewrite <- Hp. ring.
    + rewrite Hdiv at 1. apply Z.mod_mul. apply Z.pow_nonzero; lia.
Qed.

(** A positive float divided by itself is exactly 1.0. *)
Definition one : float := S754_finite false 4503599627370496 (-52).

Lemma fdiv_self m e : fdiv (S754_finite false m e) (S754_finite false m e) = one.
Proof.
  unfold fdiv, SFdiv, SFdiv_core_binary. cbn [xorb].
  rewrite !Z.sub_diag.
  change (Z.min (fexp prec emax 0) 0) with (-53).
  change (0 - -53) with 53. cbv iota.
  rewrite Z.shiftl_mul_pow2 by lia.
  assert (Hdiv : Z.div_eucl (Z.pos m * 2 ^ 53) (Z.pos m) = (2 ^ 53, 0)).
  { pose proof (Z.div_eucl_eq (Z.pos m * 2 ^ 53) (Z.pos m) ltac:(lia)) as Heq.
    pose proof (Z.mod_pos_bound (Z.pos m * 2 ^ 53) (Z.pos m) ltac:(lia)) as Hmod.
    unfold Z.modulo in Hmod.
    destruct (Z.div_eucl (Z.pos m * 2 ^ 53) (Z.pos m)) as [q r]. cbn [snd] in Hmod.
    assert (q = 2 ^ 53) by nia. f_equal; nia. }
  rewrite Hdiv. unfold new_location. by destruct (Z.even (Z.pos m)); vm_compute.
Qed.

Lemma one_represents : represents one 1.
Proof.
  exists 4503599627370496%positive, (-52). split; [done|]. split; [by vm_compute|].
  change (Z.pos 4503599627370496) with (2 ^ 52). rewrite pow2_IZR by lia.
  rewrite <- pow2_add. done.
Qed.

(** [int] of a positive float truncates its value. *)
Lemma int_represents x v :
  represents x v -> exists y, int x = Ok y /\ (IZR y <= v < IZR y + 1)%R.
Proof.
  intros (m & e & -> & _ & ->). cbn [int cond_Zopp]. eexists. split; [done|].
  destruct (Z_le_gt_dec 0 e) as [He|He].
  - rewrite Z.shiftl_mul_pow2, mult_IZR, pow2_IZR by done. lra.
  - rewrite Z.shiftl_div_pow2 by lia.
    assert (H2 : 0 < 2 ^ (- e)) by (apply Z.pow_pos_nonneg; lia).
    pose proof (Z.mul_div_le (Z.pos m) (2 ^ (- e)) H2) as Hlo.
    pose proof (Z.mul_succ_div_gt (Z.pos m) (2 ^ (- e)) H2) as Hhi.
    apply IZR_le in Hlo. apply IZR_lt in Hhi.
    rewrite mult_IZR, pow2_IZR in Hlo, Hhi by lia. unfold Z.succ in Hhi.
    rewrite plus_IZR in Hhi.
    pose proof (pow2_add (- e) e) as Hp. replace (- e + e) with 0 in Hp by lia.
    rewrite pow2_0 in Hp. pose proof (pow2_pos e). pose proof (pow2_pos (- e)).
    set (q := IZR (Z.pos m / 2 ^ (- e))) in *. set (M := IZR (Z.pos m)) in *.
    set (P := pow2 (- e)) in *. set (Q := pow2 e) in *.
    apply Rmult_le_compat_r with (r := Q) in Hlo; [|lra].
    apply Rmult_lt_compat_r with (r := Q) in Hhi; [|lra].
    replace (P * q * Q)%R with (q * (P * Q))%R in Hlo by ring.
    replace (P * (q + 1) * Q)%R with ((q + 1) * (P * Q))%R in Hhi by ring.
    rewrite <- Hp in Hlo, Hhi. lra.
Qed.

(** The mantissa, exponent and location [SFdiv] hands to the rounding. *)
Lemma SFdiv_core_binary_spec m1 e1 m2 e2 :
  0 < m1 -> 0 < m2 ->
  let e' := Z.min (fexp64 (Zdigits2 m1 + e1 - (Zdigits2 m2 + e2))) (e1 - e2) in
  let s := e1 - e2 - e' in
  SFdiv_core_binary prec emax m1 e1 m2 e2 =
  ((m1 * 2 ^ s) / m2, e', new_location m2 ((m1 * 2 ^ s) mod m2)).
Proof.
  intros Hm1 Hm2 e' s. unfold SFdiv_core_binary.
  change (fexp prec emax) with fexp64. fold e'. fold s.
  assert (Hs : 0 <= s) by (unfold s, e'; lia).
  assert (Hm' : match s with
                | 0 => m1
                | Z.pos _ => Z.shiftl m1 s
                | Z.neg _ => 0
                end = m1 * 2 ^ s).
  { destruct s as [|p|p] eqn:Hsp; [lia| |lia]. by rewrite Z.shiftl_mul_pow2. }
  rewrite Hm'. unfold Z.div, Z.modulo.
  by destruct (Z.div_eucl (m1 * 2 ^ s) m2).
Qed.

(** The quotient of two floats, within the normal range, is within a
    relative [2^-51] of the real quotient. *)
Lemma fdiv_represents a b va vb :
  represents a va -> represents b vb ->
  (pow2 (-900) <= va / vb < pow2 900)%R ->
  exists v, represents (fdiv a b) v /\
            (va / vb * (1 - 2 * eps) <= v <= va / vb * (1 + 2 * eps))%R.
Proof.
  intros (m1 & e1 & -> & Hf1 & ->) (m2 & e2 & -> & Hf2 & ->) Hrange.
  unfold fdiv, SFdiv. cbn [xorb].
  rewrite (SFdiv_core_binary_spec (Z.pos m1) e1 (Z.pos m2) e2) by lia.
  set (d1 := Zdigits2 (Z.pos m1)). set (d2 := Zdigits2 (Z.pos m2)).
  set (e' := Z.min (fexp64 (d1 + e1 - (d2 + e2))) (e1 - e2)).
  set (s := e1 - e2 - e').
  set (q := Z.pos m1 * 2 ^ s / Z.pos m2).
  set (l := new_location _ _).
  set (T := (IZR (Z.pos m1) * pow2 e1 / (IZR (Z.pos m2) * pow2 e2))%R) in *.
  pose proof (IZR_digits_bounds (Z.pos m1) ltac:(lia)) as [Hl1 Hh1].
  pose proof (IZR_digits_bounds (Z.pos m2) ltac:(lia)) as [Hl2 Hh2].
  fold d1 in Hl1, Hh1. fold d2 in Hl2, Hh2.
  pose proof (pow2_pos e1) as Hp1. pose proof (pow2_pos e2) as Hp2.
  assert (HM1 : (0 < IZR (Z.pos m1))%R) by (apply IZR_lt; lia).
  assert (HM2 : (0 < IZR (Z.pos m2))%R) by (apply IZR_lt; lia).
  assert (HB : (0 < IZR (Z.pos m2) * pow2 e2)%R) by (by apply Rmult_lt_0_compat).
  assert (HA : (0 < IZR (Z.pos m1) * pow2 e1)%R) by (by apply Rmult_lt_0_compat).
  assert (HTpos : (0 < T)%R) by (by apply Rdiv_lt_0_compat).
  assert (HTeq : (T * (IZR (Z.pos m2) * pow2 e2) = IZR (Z.pos m1) * pow2 e1)%R).
  { unfold T. field. lra. }
  (* magnitude of the quotient *)
  assert (HX : -901 < d1 + e1 - (d2 + e2) < 901).
  { split.
    - assert (-900 < (d1 + e1 - (d2 + e2)) + 1); [|lia]. apply pow2_lt_inv.
      assert (T * pow2 (d2 - 1 + e2) < pow2 (d1 + e1))%R.
      { rewrite !pow2_add.
        assert (A1 : (pow2 (d2 - 1) * pow2 e2 <= IZR (Z.pos m2) * pow2 e2)%R)
          by (apply Rmult_le_compat_r; lra).
        assert (A2 : (T * (pow2 (d2 - 1) * pow2 e2) <= T * (IZR (Z.pos m2) * pow2 e2))%R)
          by (apply Rmult_le_compat_l; lra).
        assert (A3 : (IZR (Z.pos m1) * pow2 e1 < pow2 d1 * pow2 e1)%R)
          by (apply Rmult_lt_compat_r; lra).
        lra. }
      replace (d1 + e1 - (d2 + e2) + 1) with ((d1 + e1) + - (d2 - 1 + e2)) by lia.
      rewrite pow2_add.
      pose proof (pow2_add (d2 - 1 + e2) (- (d2 - 1 + e2))) as Hinv.
      replace (d2 - 1 + e2 + - (d2 - 1 + e2)) with 0 in Hinv by lia. rewrite pow2_0 in Hinv.
      pose proof (pow2_pos (d2 - 1 + e2)). pose proof (pow2_pos (- (d2 - 1 + e2))).
      pose proof (pow2_pos (d1 + e1)). nra.
    - assert ((d1 + e1 - (d2 + e2)) - 1 < 900); [|lia]. apply pow2_lt_inv.
      assert (pow2 (d1 - 1 + e1) < T * pow2 (d2 + e2))%R.
      { rewrite !pow2_add.
        assert (A1 : (IZR (Z.pos m2) * pow2 e2 < pow2 d2 * pow2 e2)%R)
          by (apply Rmult_lt_compat_r; lra).
        assert (A2 : (T * (IZR (Z.pos m2) * pow2 e2) < T * (pow2 d2 * pow2 e2))%R)
          by (apply Rmult_lt_compat_l; lra).
        assert (A3 : (pow2 (d1 - 1) * pow2 e1 <= IZR (Z.pos m1) * pow2 e1)%R)
          by (apply Rmult_le_compat_r; lra).
        lra. }
      replace (d1 + e1 - (d2 + e2) - 1) with ((d1 - 1 + e1) + - (d2 + e2)) by lia.
      rewrite pow2_add.
      pose proof (pow2_add (d2 + e2) (- (d2 + e2))) as Hinv.
      replace (d2 + e2 + - (d2 + e2)) with 0 in Hinv by lia. rewrite pow2_0 in Hinv.
      pose proof (pow2_pos (d2 + e2)). pose proof (pow2_pos (- (d2 + e2))).
      pose proof (pow2_pos (d1 - 1 + e1)). nra. }
  pose proof (Zdigits2_pos (Z.pos m1) ltac:(lia)) as Hd1. fold d1 in Hd1.
  pose proof (Zdigits2_pos (Z.pos m2) ltac:(lia)) as Hd2. fold d2 in Hd2.
  pose proof (represents_fits_digits _ _ Hf1) as [Hd153 _]. fold d1 in Hd153.
  assert (He' : e' <= d1 + e1 - (d2 + e2) - 53) by (unfold e'; rewrite fexp64_eq; lia).
  assert (Hs : d2 - d1 + 53 <= s) by (unfold s; lia).
  assert (H2s : 0 < 2 ^ s) by (apply Z.pow_pos_nonneg; lia).
  (* the integer quotient has at least 53 digits *)
  assert (Hq52 : 2 ^ 52 <= q).
  { unfold q. apply Z.div_le_lower_bound; [lia|].
    pose proof (Zdigits2_bounds (Z.pos m1) ltac:(lia)) as [Hlo1 _].
    pose proof (Zdigits2_bounds (Z.pos m2) ltac:(lia)) as [_ Hhi2].
    fold d1 in Hlo1. fold d2 in Hhi2.
    assert (2 ^ (d2 + 52) <= Z.pos m1 * 2 ^ s).
    { replace (d2 + 52) with ((d1 - 1) + (d2 - d1 + 53)) by lia.
      rewrite Z.pow_add_r by lia.
      assert (2 ^ (d2 - d1 + 53) <= 2 ^ s) by (apply Z.pow_le_mono_r; lia).
      assert (0 < 2 ^ (d2 - d1 + 53)) by (apply Z.pow_pos_nonneg; lia).
      nia. }
    rewrite Z.pow_add_r in H by lia. nia. }
  assert (Hq : 0 < q) by lia.
  assert (Hdq : 53 <= Zdigits2 q).
  { destruct (Z_le_gt_dec 53 (Zdigits2 q)) as [|Hlt]; [done|].
    pose proof (Zdigits2_bounds q Hq) as [_ Hhi].
    assert (2 ^ Zdigits2 q <= 2 ^ 52) by (apply Z.pow_le_mono_r; lia). lia. }
  (* the real quotient lies between q and q + 1 units *)
  assert (HqT : (IZR q * pow2 e' <= T < (IZR q + 1) * pow2 e')%R).
  { pose proof (Z.mul_div_le (Z.pos m1 * 2 ^ s) (Z.pos m2) ltac:(lia)) as Hlo.
    pose proof (Z.mul_succ_div_gt (Z.pos m1 * 2 ^ s) (Z.pos m2) ltac:(lia)) as Hhi.
    fold q in Hlo, Hhi. apply IZR_le in Hlo. apply IZR_lt in Hhi.
    unfold Z.succ in Hhi.
    rewrite !mult_IZR, pow2_IZR in Hlo, Hhi by lia. rewrite plus_IZR in Hhi.
    assert (Hse : (pow2 s * pow2 e' * pow2 e2 = pow2 e1)%R).
    { rewrite <- !pow2_add. f_equal. unfold s. lia. }
    pose proof (pow2_pos s). pose proof (pow2_pos e').
    set (Q := IZR q) in *. set (M1 := IZR (Z.pos m1)) in *. set (M2 := IZR (Z.pos m2)) in *.
    set (P1 := pow2 e1) in *. set (P2 := pow2 e2) in *. set (S := pow2 s) in *.
    set (E := pow2 e') in *.
    assert (HT' : (T * M2 * P2 = M1 * (S * E * P2))%R) by (rewrite Hse; lra).
    assert (HT'' : (T * M2 = M1 * S * E)%R) by nra.
    split.
    - apply Rmult_le_reg_r with (r := M2); [done|]. rewrite HT''.
      replace (Q * E * M2)%R with ((M2 * Q) * E)%R by ring.
      apply Rmult_le_compat_r; lra.
    - apply Rmult_lt_reg_r with (r := M2); [done|]. rewrite HT''.
      replace ((Q + 1) * E * M2)%R with ((M2 * (Q + 1)) * E)%R by ring.
      apply Rmult_lt_compat_r; lra. }
  pose proof (IZR_digits_bounds q Hq) as [Hlq Hhq].
  assert (Hmagq : -900 < Zdigits2 q + e' <= 900).
  { pose proof (pow2_pos e'). split.
    - apply pow2_lt_inv. rewrite pow2_add.
      assert (IZR q + 1 <= pow2 (Zdigits2 q))%R.
      { rewrite <- pow2_IZR, <- plus_IZR by lia. apply IZR_le.
        pose proof (Zdigits2_bounds q Hq). lia. }
      nra.
    - assert (Zdigits2 q - 1 + e' < 900); [|lia]. apply pow2_lt_inv.
      rewrite pow2_add. nra. }
  assert (Hk : shift_of q e' = Zdigits2 q - 53).
  { unfold shift_of. rewrite fexp64_eq. lia. }
  destruct (binary_round_aux_value q e' l Hq) as (v & Hv & Hbound & _).
  - rewrite Hk. apply div_pow2_pos; lia.
  - rewrite Hk. lia.
  - exists v. split; [done|]. rewrite Hk in Hbound.
    replace (e' + (Zdigits2 q - 53)) with ((Zdigits2 q - 1) + e' + -52) in Hbound by lia.
    rewrite !pow2_add in Hbound. fold eps in Hbound.
    assert (Heps : (0 < eps)%R) by apply pow2_pos.
    assert (Hulp : (pow2 (Zdigits2 q - 1) * pow2 e' * eps <= T * eps)%R).
    { apply Rmult_le_compat_r; [lra|]. pose proof (pow2_pos e'). nra. }
    assert (Hunit : (pow2 e' <= pow2 (Zdigits2 q - 1) * pow2 e' * eps)%R).
    { unfold eps. rewrite <- !pow2_add. apply pow2_le. lia. }
    set (U := (pow2 (Zdigits2 q - 1) * pow2 e' * eps)%R) in *.
    set (Q := (IZR q * pow2 e')%R) in *.
    assert (T < Q + pow2 e')%R by (unfold Q; lra).
    split; nra.
Qed.

Lemma eps_value : eps = (/ 4503599627370496)%R.
Proof.
  unfold eps. pose proof (pow2_add 52 (-52)) as H. change (52 + -52) with 0 in H.
  rewrite pow2_0, <- (pow2_IZR 52) in H by lia. change (2 ^ 52) with 4503599627370496 in H.
  pose proof (pow2_pos (-52)). apply Rmult_eq_reg_l with (r := 4503599627370496%R); lra.
Qed.

End Values.

(** ** Facts about the float comparisons *)

Section Comparisons.

Lemma SFcompare_lt_le_trans (x y z : float) :
  SFleb x y = true -> SFltb y z = true -> SFltb x z = true.
Proof.
  unfold SFleb, SFltb.
  destruct x as [sx|sx| |sx mx ex], y as [sy|sy| |sy my ey], z as [sz|sz| |sz mz ez];
    simpl; try discriminate; try tauto;
    repeat match goal with b : bool |- _ => destruct b end;
    simpl; try discriminate; try tauto.
  all: destruct (Z.compare_spec ex ey), (Z.compare_spec ey ez), (Z.compare_spec ex ez);
    try lia; try discriminate; try tauto; subst.
  all: rewrite ?Pos.compare_cont_spec; simpl;
    destruct (Pos.compare_spec mx my), (Pos.compare_spec my mz), (Pos.compare_spec mx mz);
    simpl; try lia; try discriminate; try tauto.
Qed.

End Comparisons.

(** ** The Detection Filter *)

Section DetectionFilter.
Import Hello.

Implicit Types (output bs : list row) (box r : row) (T : float).

Lemma retained_mono T1 T2 box :
  fle T1 T2 = true -> retained T2 box = true -> retained T1 box = true.
Proof.
  unfold retained. destruct (last box) as [conf|]; [|done].
  apply SFcompare_lt_le_trans.
Qed.

Lemma filter_sublist_mono {A} (p q : A -> bool) (l : list A) :
  (forall a, p a = true -> q a = true) ->
  sublist (List.filter p l) (List.filter q l).
Proof.
  intros Hpq. induction l as [|a l IH]; simpl; [constructor|].
  destruct (p a) eqn:Hp.
  - rewrite (Hpq a Hp). by constructor.
  - destruct (q a); [by constructor|done].
Qed.

Lemma filter_sublist_self {A} (p : A -> bool) (l : list A) :
  sublist (List.filter p l) l.
Proof.
  induction l as [|a l IH]; simpl; [constructor|].
  destruct (p a); by constructor.
Qed.

Lemma last_snoc_item box (conf : float) : last (box ++ [conf]) = Some conf.
Proof. apply last_snoc. Qed.

Lemma forallb_snoc_false {A} (p : A -> bool) (l : list A) (a : A) :
  p a = false -> forallb p (l ++ [a]) = false.
Proof.
  intros Ha. rewrite forallb_app. simpl. rewrite Ha.
  by rewrite andb_false_r.
Qed.

(** The loop skips the rows that are not retained. *)
Lemma loop_body_skip rx ry T cl img box :
  box <> [] -> retained T box = false -> loop_body rx ry T cl img box = Ok img.
Proof.
  unfold retained, loop_body, last_item.
  destruct (last box) as [conf|] eqn:Hlast.
  - intros _ Hconf. cbn. by rewrite Hconf.
  - by apply last_None in Hlast.
Qed.

Lemma for_each_retained rx ry T cl bs img :
  Forall (fun box => box <> []) bs ->
  for_each (loop_body rx ry T cl) bs img =
  for_each (loop_body rx ry T cl) (List.filter (retained T) bs) img.
Proof.
  intros Hne. revert img. induction Hne as [|box bs Hbox _ IH]; intros img; [done|].
  cbn [for_each List.filter]. destruct (retained T box) eqn:Hret.
  - cbn [for_each]. destruct (loop_body rx ry T cl img box); cbn; [apply IH|done].
  - rewrite loop_body_skip by done. cbn. apply IH.
Qed.

End DetectionFilter.

Section DetectionFilterClaims.
Import Cv2 Hello.

(** C8.  With threshold 0.3, a batch of three rows with scores 0.9, 0.4 and
    0.1 (whatever their coordinates) followed by one all-zero row is filtered
    to exactly the two rows with scores 0.9 and 0.4. *)
Theorem detection_filter_scenario (b1 b2 b3 : list float) :
  detection_filter (lit 3 1)
    [b1 ++ [lit 9 1]; b2 ++ [lit 4 1]; b3 ++ [lit 1 1]; zero_row]
  = [b1 ++ [lit 9 1]; b2 ++ [lit 4 1]].
Proof.
  unfold detection_filter, boxes. cbn [List.filter].
  rewrite !forallb_snoc_false by (by vm_compute). cbn [negb List.filter].
  replace (forallb is_zero zero_row) with true by (by vm_compute).
  cbn [negb List.filter]. unfold retained. rewrite !last_snoc_item.
  replace (flt (lit 3 1) (lit 9 1)) with true by (by vm_compute).
  replace (flt (lit 3 1) (lit 4 1)) with true by (by vm_compute).
  replace (flt (lit 3 1) (lit 1 1)) with false by (by vm_compute).
  reflexivity.
Qed.

(** C4.  Raising the threshold never retains more detections: for T1 <= T2
    the rows kept at T2 are a sub-sequence of the rows kept at T1, so they are
    at most as many, and the rows kept are a sub-sequence of the batch, in
    batch order.  This holds for the threshold test of the loop on any rows
    and for the whole filter on any model output. *)
Theorem detection_filter_monotone (T1 T2 : float) (output : list row) :
  fle T1 T2 = true ->
  (length (List.filter (retained T2) output) <= length (List.filter (retained T1) output))%nat /\
  sublist (List.filter (retained T2) output) (List.filter (retained T1) output) /\
  sublist (List.filter (retained T1) output) output /\
  (length (detection_filter T2 output) <= length (detection_filter T1 output))%nat /\
  sublist (detection_filter T2 output) (detection_filter T1 output) /\
  sublist (detection_filter T1 output) output.
Proof.
  intros HT.
  assert (Hsub : forall bs, sublist (List.filter (retained T2) bs) (List.filter (retained T1) bs)).
  { intros bs. apply filter_sublist_mono. intros box. by apply retained_mono. }
  repeat split.
  - apply sublist_length, Hsub.
  - apply Hsub.
  - apply filter_sublist_self.
  - apply sublist_length, Hsub.
  - apply Hsub.
  - unfold detection_filter, boxes.
    etrans; apply filter_sublist_self.
Qed.

Lemma detection_filter_monotone_witness :
  let output := [[of_Z 1; of_Z 2; of_Z 3; of_Z 4; lit 9 1];
                 [of_Z 5; of_Z 6; of_Z 7; of_Z 8; lit 4 1]; zero_row] in
  fle (lit 3 1) (lit 5 1) = true /\
  (length (detection_filter (lit 5 1) output) <= length (detection_filter (lit 3 1) output))%nat.
Proof.
  split; [by vm_compute|].
  apply (detection_filter_monotone (lit 3 1) (lit 5 1)). by vm_compute.
Defined.

(** C2, as stated, fails: a row whose four coordinates are zero but whose
    score is 0.9 passes the filter at threshold 0.3 and is drawn. *)
Lemma zero_box_with_score_is_rendered :
  let box := [of_Z 0; of_Z 0; of_Z 0; of_Z 0; lit 9 1] in
  let image := Image (4, 4, 3) (replicate 48 0%Z) [] in
  detection_filter default_threshold [box; zero_row] = [box] /\
  convert_result_to_image image image (boxes [box; zero_row]) default_threshold false =
  Ok (Image (4, 4, 3) (replicate 48 0%Z)
        [CvtColor COLOR_BGR2RGB; Rectangle (0, 10) (0, 10) green 3 LINE_8]).
Proof. by vm_compute. Qed.

(** C2, amended.  The filter drops exactly the rows whose five entries, the
    four coordinates and the confidence, are all zero: such a row is never
    retained, every other row of the output is kept by the zero-row step, and
    a row with zero coordinates and a non-zero score is retained whenever its
    score exceeds the threshold. *)
Theorem zero_rows_removed (T : float) (output : list row) :
  (forall r, r ∈ boxes output <-> r ∈ output /\ forallb is_zero r = false) /\
  (forall r, forallb is_zero r = true -> r ∉ detection_filter T output) /\
  (forall conf, is_zero conf = false -> flt T conf = true ->
     let r := [of_Z 0; of_Z 0; of_Z 0; of_Z 0; conf] in
     r ∈ output -> r ∈ detection_filter T output).
Proof.
  assert (Hboxes : forall r, r ∈ boxes output <-> r ∈ output /\ forallb is_zero r = false).
  { intros r. unfold boxes. rewrite !list_elem_of_In, filter_In.
    by rewrite negb_true_iff. }
  split; [exact Hboxes|]. split.
  - intros r Hr Hin. unfold detection_filter in Hin.
    apply list_elem_of_In, filter_In in Hin as [Hin _].
    apply list_elem_of_In, Hboxes in Hin as [_ Hin]. congruence.
  - intros conf Hconf HT r Hin. unfold detection_filter.
    apply list_elem_of_In, filter_In. split.
    + apply list_elem_of_In, Hboxes. split; [done|].
      by apply (forallb_snoc_false is_zero [of_Z 0; of_Z 0; of_Z 0; of_Z 0]).
    + subst r. unfold retained. by cbn.
Qed.

Lemma zero_rows_removed_witness :
  let r := [of_Z 0; of_Z 0; of_Z 0; of_Z 0; lit 9 1] in
  r ∈ detection_filter default_threshold [zero_row; r].
Proof.
  apply (zero_rows_removed default_threshold [zero_row; _]); [by vm_compute..|].
  apply list_elem_of_In. right. by left.
Defined.

End DetectionFilterClaims.

(** ** The line thickness is defined *)

Section LineThickness.
Import Detection.

Lemma two_thousandths : lit 2 3 = S754_finite false 4611686018427388 (-61).
Proof. by vm_compute. Qed.



Lemma int_finite x : is_finite x = true -> exists k, int x = Ok k.
Proof. destruct x; try done; by eexists. Qed.

End LineThickness.

(** ** The Box Renderer *)

Section BoxRenderer.
Import Cv2 Detection.

Variable getTextSize : string -> Z -> float -> Z -> (Z * Z) * Z.

Lemma draw_draw_all c cs img : draw c (draw_all cs img) = draw_all (cs ++ [c]) img.
Proof. unfold draw, draw_all. cbn. by rewrite <- app_assoc. Qed.

Lemma draw_as_draw_all c img : draw c img = draw_all [c] img.
Proof. done. Qed.

Lemma draw_all_draw_all cs cs' img :
  draw_all cs' (draw_all cs img) = draw_all (cs ++ cs') img.
Proof. unfold draw_all. cbn. by rewrite <- app_assoc. Qed.

Lemma bind_ok {A B} (m : M A) (k : A -> M B) s a s' :
  m s = (Ok a, s') -> (m ≫= k) s = k a s'.
Proof. unfold mbind, M_bind. by intros ->. Qed.

Lemma bind_raise {A B} (m : M A) (k : A -> M B) s e s' :
  m s = (Raise e, s') -> (m ≫= k) s = (Raise e, s').
Proof. unfold mbind, M_bind. by intros ->. Qed.

Lemma lift_run {A} (r : result A) s : lift r s = (r, s).
Proof. done. Qed.

Lemma randint_run a b h g sh :
  randint a b (State h g sh) =
  (Ok (a + tape g (position g) mod (b - a + 1)), State h (advance 1 g) sh).
Proof. done. Qed.

Lemma read_run l img h g sh :
  h !! l = Some img -> read l (State h g sh) = (Ok img, State h g sh).
Proof. unfold read. cbn. by intros ->. Qed.

Lemma modify_run l f img h g sh :
  h !! l = Some img ->
  modify l f (State h g sh) = (Ok tt, State (<[l := f img]> h) g sh).
Proof. unfold modify. cbn. by intros ->. Qed.

Lemma advance_advance n m g : advance n (advance m g) = advance (n + m) g.
Proof. unfold advance. cbn. f_equal. lia. Qed.

(** What one call does, case by case: it raises before drawing anything, or
    it appends its calls to the array behind [image] and returns [image]. *)
Definition add_detection_box_outcome (b : box) (image : loc) (label : option string)
    (s : state) : result loc * state :=
  match corner_points b with
  | Raise e => (Raise e, s)
  | Ok (p1, p2) =>
      let s3 := State (heap s) (advance 3 (rng s)) (shown s) in
      match heap s !! image with
      | None => (Raise ValueError, s3)
      | Some img =>
          match line_thickness_of (shape img) with
          | Raise e => (Raise e, s3)
          | Ok t =>
              (Ok image,
               State (<[image := draw_all (box_calls getTextSize p1 p2 (colour_of (rng s)) t label) img]>
                        (heap s))
                     (advance 3 (rng s)) (shown s))
          end
      end
  end.

Lemma add_detection_box_run b image label s :
  add_detection_box getTextSize b image label s = add_detection_box_outcome b image label s.
Proof.
  destruct s as [h g sh], b as [[[ymin xmin] ymax] xmax].
  unfold add_detection_box_outcome, corner_points, add_detection_box.
  cbn [heap rng shown].
  destruct (int xmin) as [x1|e]; [|done].
  destruct (int ymin) as [y1|e]; [|done].
  destruct (int xmax) as [x2|e]; [|done].
  destruct (int ymax) as [y2|e]; [|done].
  do 4 (erewrite bind_ok by apply lift_run).
  do 3 (erewrite bind_ok by apply randint_run).
  rewrite !advance_advance. change (mbind ?k (Ok ?a)) with (k a). cbn beta iota.
  destruct (h !! image) as [img|] eqn:Himg; cycle 1.
  { erewrite bind_raise; [done|]. unfold read. cbn. by rewrite Himg. }
  erewrite bind_ok by (by apply read_run).
  destruct (line_thickness_of (shape img)) as [t|e]; cycle 1.
  { by erewrite bind_raise by apply lift_run. }
  erewrite bind_ok by apply lift_run.
  unfold cv2_rectangle, cv2_putText.
  erewrite bind_ok by (by apply modify_run).
  unfold box_calls.
  destruct (truthy label).
  - erewrite bind_ok; cycle 1.
    { erewrite bind_ok by (apply modify_run, lookup_insert_eq).
      apply modify_run, lookup_insert_eq. }
    unfold mret, M_ret. rewrite !insert_insert_eq.
    unfold rectangle, putText. rewrite !draw_as_draw_all, !draw_all_draw_all.
    reflexivity.
  - erewrite bind_ok by reflexivity. unfold mret, M_ret.
    unfold rectangle. by rewrite draw_as_draw_all.
Qed.

(** Frame property: a computation that leaves [plt.imshow]'s record alone and
    changes no array other than the one behind [target]. *)
Definition touches_only (target : loc) {A} (m : M A) : Prop :=
  forall s, shown (m s).2 = shown s /\
            forall l, l <> target -> heap (m s).2 !! l = heap s !! l.

Lemma touches_only_ret target {A} (a : A) : touches_only target (mret a).
Proof. by intros s. Qed.

Lemma touches_only_lift target {A} (r : result A) : touches_only target (lift r).
Proof. by intros s. Qed.

Lemma touches_only_bind target {A B} (m : M A) (k : A -> M B) :
  touches_only target m -> (forall a, touches_only target (k a)) ->
  touches_only target (m ≫= k).
Proof.
  intros Hm Hk s. unfold mbind, M_bind.
  destruct (Hm s) as [Hsh Hheap]. destruct (m s) as [[a|e] s']; [|done].
  destruct (Hk a s') as [Hsh' Hheap']. cbn in *. split.
  - by rewrite Hsh'.
  - intros l Hl. by rewrite Hheap', Hheap.
Qed.

Lemma touches_only_add_detection_box target b label :
  touches_only target (add_detection_box getTextSize b target label).
Proof.
  intros s. rewrite add_detection_box_run. unfold add_detection_box_outcome.
  destruct (corner_points b) as [[p1 p2]|e]; [|done].
  destruct (heap s !! target) as [img|]; [|done].
  destruct (line_thickness_of (shape img)) as [t|e]; [|done].
  cbn. split; [done|]. intros l Hl. by rewrite lookup_insert_ne.
Qed.

Lemma touches_only_draw_detection r labels_map normalized target i :
  touches_only target (draw_detection getTextSize r labels_map normalized target i).
Proof.
  unfold draw_detection.
  repeat (apply touches_only_bind; [apply touches_only_lift|intros ?]).
  apply touches_only_bind; [apply touches_only_add_detection_box|intros ?].
  apply touches_only_ret.
Qed.

Lemma touches_only_for_range target body i count :
  (forall j, touches_only target (body j)) ->
  touches_only target (for_range body i count).
Proof.
  intros Hbody. revert i. induction count as [|count IH]; intros i; cbn.
  - apply touches_only_ret.
  - apply touches_only_bind; [apply Hbody|intros _; apply IH].
Qed.

Lemma same_draws_colour g1 g2 : same_draws g1 g2 -> colour_of g1 = colour_of g2.
Proof.
  intros H. unfold colour_of.
  pose proof (H 0%nat) as H0. pose proof (H 1%nat) as H1. pose proof (H 2%nat) as H2.
  cbn in H0, H1, H2. by rewrite H0, H1, H2.
Qed.

Lemma same_draws_advance k g1 g2 :
  same_draws g1 g2 -> same_draws (advance k g1) (advance k g2).
Proof.
  intros H n. unfold advance. cbn.
  replace (n + (k + position g1))%nat with ((n + k) + position g1)%nat by lia.
  replace (n + (k + position g2))%nat with ((n + k) + position g2)%nat by lia.
  apply H.
Qed.

Definition same_view (l1 l2 : loc) (s1 s2 : state) : Prop :=
  heap s1 !! l1 = heap s2 !! l2 /\ same_draws (rng s1) (rng s2).

(** Outcomes that agree up to the name of the array drawn on. *)
Definition same_outcome {A} (l1 l2 : loc) (o1 o2 : result A * state) : Prop :=
  match o1.1, o2.1 with
  | Ok _, Ok _ => True
  | Raise e1, Raise e2 => e1 = e2
  | _, _ => False
  end /\ same_view l1 l2 o1.2 o2.2.

Lemma same_outcome_add_detection_box b l1 l2 label s1 s2 :
  same_view l1 l2 s1 s2 ->
  same_outcome l1 l2 (add_detection_box getTextSize b l1 label s1)
                     (add_detection_box getTextSize b l2 label s2).
Proof.
  intros [Hheap Hrng]. rewrite !add_detection_box_run. unfold add_detection_box_outcome.
  destruct (corner_points b) as [[p1 p2]|e]; [|by repeat split].
  rewrite Hheap, (same_draws_colour _ _ Hrng).
  pose proof (same_draws_advance 3 _ _ Hrng) as Hrng'.
  destruct (heap s2 !! l2) as [img|] eqn:Himg;
    [|repeat split; cbn; first [done|congruence]].
  destruct (line_thickness_of (shape img)) as [t|e];
    [|repeat split; cbn; first [done|congruence]].
  repeat split; cbn; [|done]. by rewrite !lookup_insert_eq.
Qed.

Lemma same_outcome_bind {A B} l1 l2 (m1 m2 : M A) (k1 k2 : A -> M B) s1 s2 :
  same_outcome l1 l2 (m1 s1) (m2 s2) ->
  (forall a1 a2 s1' s2', m1 s1 = (Ok a1, s1') -> m2 s2 = (Ok a2, s2') ->
     same_outcome l1 l2 (k1 a1 s1') (k2 a2 s2')) ->
  same_outcome l1 l2 ((m1 ≫= k1) s1) ((m2 ≫= k2) s2).
Proof.
  unfold mbind, M_bind. intros [Hres Hview] Hk.
  destruct (m1 s1) as [[a1|e1] s1'], (m2 s2) as [[a2|e2] s2']; cbn in *; try done.
  by apply Hk.
Qed.

Lemma same_outcome_lift {A} l1 l2 (r : result A) s1 s2 :
  same_view l1 l2 s1 s2 -> same_outcome l1 l2 (lift r s1) (lift r s2).
Proof. intros Hview. split; [|done]. cbn. by destruct r. Qed.

Lemma lift_inv {A} (r : result A) s a s' : lift r s = (Ok a, s') -> r = Ok a /\ s' = s.
Proof. unfold lift. by intros [= -> ->]. Qed.

Lemma same_outcome_draw_detection r labels_map normalized l1 l2 i s1 s2 :
  same_view l1 l2 s1 s2 ->
  same_outcome l1 l2 (draw_detection getTextSize r labels_map normalized l1 i s1)
                     (draw_detection getTextSize r labels_map normalized l2 i s2).
Proof.
  intros Hview. unfold draw_detection.
  apply same_outcome_bind; [by apply same_outcome_lift|].
  intros cls cls' ? ? [Hcls ->]%lift_inv [Hcls' ->]%lift_inv.
  assert (cls' = cls) as -> by congruence.
  apply same_outcome_bind; [by apply same_outcome_lift|].
  intros k k' ? ? [Hk ->]%lift_inv [Hk' ->]%lift_inv.
  assert (k' = k) as -> by congruence.
  apply same_outcome_bind; [by apply same_outcome_lift|].
  intros name name' ? ? [Hname ->]%lift_inv [Hname' ->]%lift_inv.
  assert (name' = name) as -> by congruence.
  apply same_outcome_bind; [by apply same_outcome_lift|].
  intros score score' ? ? [Hscore ->]%lift_inv [Hscore' ->]%lift_inv.
  assert (score' = score) as -> by congruence.
  apply same_outcome_bind; [by apply same_outcome_lift|].
  intros b b' ? ? [Hb ->]%lift_inv [Hb' ->]%lift_inv.
  assert (b' = b) as -> by congruence.
  apply same_outcome_bind; [by apply same_outcome_add_detection_box|].
  intros a1 a2 s1' s2' H1 H2.
  pose proof (same_outcome_add_detection_box b l1 l2
    (Some (name +:+ " " +:+ format_2f score)) s1 s2 Hview) as [_ Hview'].
  rewrite H1, H2 in Hview'. by split.
Qed.

Lemma same_outcome_for_range l1 l2 (body1 body2 : nat -> M unit) i count s1 s2 :
  (forall j s1 s2, same_view l1 l2 s1 s2 -> same_outcome l1 l2 (body1 j s1) (body2 j s2)) ->
  same_view l1 l2 s1 s2 ->
  same_outcome l1 l2 (for_range body1 i count s1) (for_range body2 i count s2).
Proof.
  intros Hbody. revert i s1 s2. induction count as [|count IH]; intros i s1 s2 Hview; cbn.
  - by split.
  - apply same_outcome_bind; [by apply Hbody|].
    intros [] [] s1' s2' H1 H2. apply IH.
    pose proof (Hbody i s1 s2 Hview) as [_ Hview']. by rewrite H1, H2 in Hview'.
Qed.

(** [visualize_inference_result] up to its loop: the limit, the shape and
    the copy. *)
Definition visualize_outcome (r : inference_result) (image : loc)
    (labels_map : gmap Z string) (detections_limit : option Z) (s : state)
    : result unit * state :=
  match index (num_detections r) 0 with
  | Raise e => (Raise e, s)
  | Ok nd =>
      match limit_of detections_limit nd with
      | Raise e => (Raise e, s)
      | Ok n =>
          match heap s !! image with
          | None => (Raise ValueError, s)
          | Some img =>
              let copy := fresh (dom (heap s)) in
              let normalized :=
                map (normalize (shape img).1.1 (shape img).1.2) (detection_boxes r) in
              (for_range (draw_detection getTextSize r labels_map normalized copy)
                 0 (Z.to_nat n);; plt_imshow copy)
                (State (<[copy := img]> (heap s)) (rng s) (shown s))
          end
      end
  end.

Lemma visualize_inference_result_run r image labels_map detections_limit s :
  visualize_inference_result getTextSize r image labels_map detections_limit s =
  visualize_outcome r image labels_map detections_limit s.
Proof.
  destruct s as [h g sh].
  unfold visualize_inference_result, visualize_outcome. cbn [heap rng shown].
  destruct (index (num_detections r) 0) as [nd|e]; cycle 1.
  { by erewrite bind_raise by apply lift_run. }
  erewrite bind_ok by apply lift_run.
  destruct (limit_of detections_limit nd) as [n|e]; cycle 1.
  { by erewrite bind_raise by apply lift_run. }
  erewrite bind_ok by apply lift_run.
  destruct (h !! image) as [img|] eqn:Himg; cycle 1.
  { erewrite bind_raise; [done|]. unfold read. cbn. by rewrite Himg. }
  erewrite bind_ok by (by apply read_run).
  destruct (shape img) as [[height width] channels] eqn:Hshape. cbn [fst snd].
  erewrite bind_ok; [done|]. unfold np_copy. cbn. by rewrite Himg.
Qed.

Lemma fresh_copy_ne (h : gmap loc image) l :
  l ∈ dom h -> l <> fresh (dom h).
Proof. intros Hl ->. by apply (is_fresh (dom h)). Qed.


(** C3, amended.  Rendering is deterministic once the draws of the global
    random generator are fixed: two runs of [add_detection_box] on the same
    array contents, box and label that draw the same three colour components
    end alike, with the same annotated array; and two runs of
    [visualize_inference_result] on the same image contents whose generators
    agree on every draw to come end alike and show arrays with the same
    contents. *)
Theorem rendering_deterministic_given_draws :
  (forall b image label s1 s2,
     heap s1 !! image = heap s2 !! image ->
     colour_of (rng s1) = colour_of (rng s2) ->
     let o1 := add_detection_box getTextSize b image label s1 in
     let o2 := add_detection_box getTextSize b image label s2 in
     o1.1 = o2.1 /\ heap o1.2 !! image = heap o2.2 !! image) /\
  (forall r image labels_map detections_limit s1 s2,
     heap s1 !! image = heap s2 !! image ->
     same_draws (rng s1) (rng s2) ->
     let o1 := visualize_inference_result getTextSize r image labels_map detections_limit s1 in
     let o2 := visualize_inference_result getTextSize r image labels_map detections_limit s2 in
     o1.1 = o2.1 /\
     (o1.1 = Ok tt ->
      exists l1 l2, shown o1.2 = shown s1 ++ [l1] /\ shown o2.2 = shown s2 ++ [l2] /\
                    heap o1.2 !! l1 = heap o2.2 !! l2)).
Proof.
  split.
  - intros b image label s1 s2 Hheap Hcol o1 o2. subst o1 o2.
    rewrite !add_detection_box_run. unfold add_detection_box_outcome.
    destruct (corner_points b) as [[p1 p2]|e]; [|done].
    rewrite Hheap, Hcol. destruct (heap s2 !! image) as [img|] eqn:Himg.
    + destruct (line_thickness_of (shape img)) as [t|e]; cbn.
      * by rewrite !lookup_insert_eq.
      * by rewrite Himg.
    + cbn. by rewrite Himg.
  - intros r image labels_map detections_limit s1 s2 Hheap Hrng o1 o2. subst o1 o2.
    rewrite !visualize_inference_result_run. unfold visualize_outcome.
    destruct (index (num_detections r) 0) as [nd|e]; [|done].
    destruct (limit_of detections_limit nd) as [n|e]; [|done].
    rewrite Hheap. destruct (heap s2 !! image) as [img|] eqn:Himg; [|done].
    set (l1 := fresh (dom (heap s1))). set (l2 := fresh (dom (heap s2))).
    set (normalized := map _ _).
    set (t1 := State (<[l1:=img]> (heap s1)) (rng s1) (shown s1)).
    set (t2 := State (<[l2:=img]> (heap s2)) (rng s2) (shown s2)).
    assert (Hview : same_view l1 l2 t1 t2).
    { split; [|done]. cbn. by rewrite !lookup_insert_eq. }
    pose proof (same_outcome_for_range l1 l2
      (draw_detection getTextSize r labels_map normalized l1)
      (draw_detection getTextSize r labels_map normalized l2) 0 (Z.to_nat n) t1 t2
      (fun j u1 u2 => same_outcome_draw_detection r labels_map normalized l1 l2 j u1 u2)
      Hview) as [Hres [Hh _]].
    pose proof (touches_only_for_range l1
      (draw_detection getTextSize r labels_map normalized l1) 0 (Z.to_nat n)
      (touches_only_draw_detection r labels_map normalized l1) t1) as [Hsh1 _].
    pose proof (touches_only_for_range l2
      (draw_detection getTextSize r labels_map normalized l2) 0 (Z.to_nat n)
      (touches_only_draw_detection r labels_map normalized l2) t2) as [Hsh2 _].
    unfold mbind, M_bind.
    destruct (for_range _ 0 (Z.to_nat n) t1) as [[[]|e1] u1],
             (for_range _ 0 (Z.to_nat n) t2) as [[[]|e2] u2]; cbn in *; try done.
    + split; [done|]. intros _. exists l1, l2. by rewrite Hsh1, Hsh2.
    + by subst.
Qed.

(** C10.  [visualize_inference_result] never writes to the caller's image:
    whatever the inputs, and whether the call returns or raises, the array
    behind [image] and every other array of the store is as before; the only
    array it hands to [plt.imshow] is a new one, the copy it drew on. *)
Theorem visualize_leaves_input_untouched r image labels_map detections_limit s :
  let o := visualize_inference_result getTextSize r image labels_map detections_limit s in
  heap o.2 !! image = heap s !! image /\
  (forall l, l ∈ dom (heap s) -> heap o.2 !! l = heap s !! l) /\
  (forall l, l ∈ shown o.2 -> l ∈ shown s \/ l ∉ dom (heap s)).
Proof.
  intros o. subst o.
  rewrite visualize_inference_result_run. unfold visualize_outcome.
  destruct (index (num_detections r) 0) as [nd|e]; [|by auto].
  destruct (limit_of detections_limit nd) as [n|e]; [|by auto].
  destruct (heap s !! image) as [img|] eqn:Himg; [|by auto].
  set (copy := fresh (dom (heap s))). set (normalized := map _ _).
  set (t := State (<[copy:=img]> (heap s)) (rng s) (shown s)).
  pose proof (touches_only_for_range copy
    (draw_detection getTextSize r labels_map normalized copy) 0 (Z.to_nat n)
    (touches_only_draw_detection r labels_map normalized copy) t) as [Hsh Hheap].
  assert (Hold : forall l, l ∈ dom (heap s) ->
            heap (for_range (draw_detection getTextSize r labels_map normalized copy)
                    0 (Z.to_nat n) t).2 !! l = heap s !! l).
  { intros l Hl. pose proof (fresh_copy_ne _ _ Hl) as Hne. fold copy in Hne.
    rewrite Hheap by done. subst t. cbn. by rewrite lookup_insert_ne. }
  unfold mbind, M_bind.
  destruct (for_range _ 0 (Z.to_nat n) t) as [[[]|e] u]; cbn in *.
  - split; [by rewrite Hold by (by apply elem_of_dom_2 in Himg)|]. split; [done|].
    intros l. rewrite Hsh, elem_of_app, list_elem_of_singleton.
    intros [?| ->]; [by left|right]. apply is_fresh.
  - split; [by rewrite Hold by (by apply elem_of_dom_2 in Himg)|]. split; [done|].
    intros l. rewrite Hsh. by left.
Qed.

End BoxRenderer.

(** ** The Label Map *)

Section LabelMap.
Import Detection.

Lemma enumerate_from_cons {A} start (a : A) (l : list A) :
  enumerate_from start (a :: l) = (start, a) :: enumerate_from (start + 1) l.
Proof.
  unfold enumerate_from. cbn. f_equal; [f_equal; lia|].
  apply imap_ext. intros i x _. cbn. f_equal. lia.
Qed.

Lemma foldl_insert_lookup {A} (l : list A) start (m : gmap Z A) k :
  foldl (fun m kv => <[kv.1 := kv.2]> m) m (enumerate_from start l) !! k =
  if decide (start <= k < start + Z.of_nat (length l))
  then l !! Z.to_nat (k - start)
  else m !! k.
Proof.
  revert start m. induction l as [|a l IH]; intros start m.
  - cbn. case_decide; [lia|done].
  - rewrite enumerate_from_cons. cbn [foldl fst snd length]. rewrite IH.
    repeat case_decide; try lia.
    + replace (Z.to_nat (k - start)) with (S (Z.to_nat (k - (start + 1)))) by lia. done.
    + assert (k = start) as -> by lia. rewrite lookup_insert_eq.
      by replace (Z.to_nat (start - start)) with 0%nat by lia.
    + by rewrite lookup_insert_ne by lia.
Qed.

Lemma coco_labels_map_lookup_index (coco_labels : list string) k :
  coco_labels_map coco_labels !! k =
  if decide (1 <= k <= Z.of_nat (length coco_labels))
  then coco_labels !! Z.to_nat (k - 1)
  else None.
Proof.
  unfold coco_labels_map, dict. rewrite foldl_insert_lookup.
  repeat case_decide; try lia; done.
Qed.

(** C7.  The map built with keys from 1 from the two lines "cat" and "dog"
    sends 1 to "cat" and 2 to "dog"; for every list of lines, a key outside
    [1 .. number of lines] makes the lookup raise ([KeyError], the
    specification's LabelNotFoundError) instead of returning a string, as
    key 0 does, and a key inside returns the line at that position. *)
Theorem label_map_lookup :
  read_labels two_labels_file = ["cat"; "dog"] /\
  getitem (coco_labels_map ["cat"; "dog"]) 1 = Ok "cat" /\
  getitem (coco_labels_map ["cat"; "dog"]) 2 = Ok "dog" /\
  getitem (coco_labels_map ["cat"; "dog"]) 0 = Raise (KeyError 0) /\
  (forall (coco_labels : list string) k,
     k < 1 \/ Z.of_nat (length coco_labels) < k ->
     getitem (coco_labels_map coco_labels) k = Raise (KeyError k)) /\
  (forall (coco_labels : list string) i name,
     coco_labels !! i = Some name ->
     getitem (coco_labels_map coco_labels) (1 + Z.of_nat i) = Ok name).
Proof.
  split; [by vm_compute|].
  assert (Hout : forall (coco_labels : list string) k,
     k < 1 \/ Z.of_nat (length coco_labels) < k ->
     getitem (coco_labels_map coco_labels) k = Raise (KeyError k)).
  { intros coco_labels k Hk. unfold getitem.
    rewrite coco_labels_map_lookup_index. case_decide; [lia|done]. }
  assert (Hin : forall (coco_labels : list string) i name,
     coco_labels !! i = Some name ->
     getitem (coco_labels_map coco_labels) (1 + Z.of_nat i) = Ok name).
  { intros coco_labels i name Hi. unfold getitem.
    rewrite coco_labels_map_lookup_index.
    pose proof (lookup_lt_Some _ _ _ Hi). case_decide; [|lia].
    replace (Z.to_nat (1 + Z.of_nat i - 1)) with i by lia. by rewrite Hi. }
  split; [by apply (Hin ["cat"; "dog"] 0%nat)|].
  split; [by apply (Hin ["cat"; "dog"] 1%nat)|].
  split; [by apply Hout; left|]. by split.
Qed.

Lemma label_map_lookup_witness :
  getitem (coco_labels_map ["cat"; "dog"; "bird"]) 7 = Raise (KeyError 7) /\
  getitem (coco_labels_map ["cat"; "dog"; "bird"]) 3 = Ok "bird".
Proof.
  destruct label_map_lookup as (_ & _ & _ & _ & Hout & Hin). split.
  - apply Hout. right. cbn. lia.
  - by apply (Hin ["cat"; "dog"; "bird"] 2%nat).
Defined.

End LabelMap.

(** ** The Visualization Pipeline *)

Section Pipeline.
Import Cv2 Detection.

Variable getTextSize : string -> Z -> float -> Z -> (Z * Z) * Z.

Lemma detections_lookup r i b cls score :
  detection_boxes r !! i = Some b ->
  detection_classes r !! i = Some cls ->
  detection_scores r !! i = Some score ->
  detections r !! i = Some (b, cls, score).
Proof.
  intros Hb Hc Hs. unfold detections.
  apply lookup_zip_with_Some. exists (b, cls), score. repeat split; [|done].
  apply lookup_zip_with_Some. by exists b, cls.
Qed.

Lemma draw_detection_render r labels_map h w target i b cls score s :
  detection_boxes r !! i = Some b ->
  detection_classes r !! i = Some cls ->
  detection_scores r !! i = Some score ->
  draw_detection getTextSize r labels_map (map (normalize h w) (detection_boxes r)) target i s =
  render_detection getTextSize h w labels_map target (b, cls, score) s.
Proof.
  intros Hb Hc Hs. unfold draw_detection, render_detection, index.
  rewrite Hc, Hs, list_lookup_fmap, Hb. cbn [fmap option_fmap option_map].
  erewrite bind_ok by apply lift_run.
  destruct (int cls) as [k|e]; cycle 1.
  { by erewrite !bind_raise by apply lift_run. }
  erewrite !(bind_ok (lift (Ok k))) by apply lift_run.
  destruct (getitem labels_map k) as [name|e]; cycle 1.
  { by erewrite !bind_raise by apply lift_run. }
  erewrite !(bind_ok (lift (Ok name))) by apply lift_run.
  by do 2 (erewrite bind_ok by apply lift_run).
Qed.

Lemma for_range_detections r labels_map h w target count i s :
  (i + count <= length (detection_boxes r))%nat ->
  (i + count <= length (detection_classes r))%nat ->
  (i + count <= length (detection_scores r))%nat ->
  for_range (draw_detection getTextSize r labels_map
               (map (normalize h w) (detection_boxes r)) target) i count s =
  for_each_detection (render_detection getTextSize h w labels_map target)
    (take count (drop i (detections r))) s.
Proof.
  revert i s. induction count as [|count IH]; intros i s Hb Hc Hs; [done|].
  destruct (lookup_lt_is_Some_2 (detection_boxes r) i) as [b Hbi]; [lia|].
  destruct (lookup_lt_is_Some_2 (detection_classes r) i) as [cls Hci]; [lia|].
  destruct (lookup_lt_is_Some_2 (detection_scores r) i) as [score Hsi]; [lia|].
  rewrite (drop_S (A:=detection) (detections r) (b, cls, score) i)
    by (by apply detections_lookup).
  cbn [take for_range for_each_detection]. unfold mbind, M_bind.
  rewrite (draw_detection_render r labels_map h w target i b cls score s Hbi Hci Hsi).
  destruct (render_detection getTextSize h w labels_map target (b, cls, score) s) as [[[]|e] s']; [|done].
  apply IH; lia.
Qed.

(** C6, amended.  [visualize_inference_result] has no threshold and applies
    no Detection Filter.  With [n] the limit it computes from
    [detections_limit] and [num_detections[0]], and at least [n] boxes,
    classes and scores in the batch, it behaves on every state exactly as:
    copy the image, take the first [n] detections of the batch in order, and
    for each one scale the box by the image height and width, look the class
    up in the Label Map and call the Box Renderer on the copy; it then shows
    the copy and returns nothing. *)
Theorem visualize_is_unfiltered_pipeline r image labels_map detections_limit nd n :
  index (num_detections r) 0 = Ok nd ->
  limit_of detections_limit nd = Ok n ->
  (Z.to_nat n <= length (detection_boxes r))%nat ->
  (Z.to_nat n <= length (detection_classes r))%nat ->
  (Z.to_nat n <= length (detection_scores r))%nat ->
  (forall s,
     visualize_inference_result getTextSize r image labels_map detections_limit s =
     pipeline_unfiltered getTextSize r image labels_map detections_limit s) /\
  limit_of None nd = int nd /\
  (forall N, limit_of (Some N) nd = if flt nd (of_Z N) then int nd else Ok N) /\
  limit_of None (of_Z 300) = Ok 300 /\
  limit_of (Some 5) (of_Z 300) = Ok 5 /\
  limit_of (Some 5) (of_Z 2) = Ok 2.
Proof.
  intros Hnd Hn Hb Hc Hs.
  split; [|by repeat split; vm_compute]. intros s.
  rewrite visualize_inference_result_run.
  unfold visualize_outcome, pipeline_unfiltered. rewrite Hnd, Hn.
  erewrite bind_ok by apply lift_run. rewrite Hn.
  erewrite bind_ok by apply lift_run.
  destruct s as [h g sh]. cbn [heap rng shown].
  destruct (h !! image) as [img|] eqn:Himg; cycle 1.
  { erewrite (bind_raise (read image)); [done|]. unfold read. cbn. by rewrite Himg. }
  erewrite (bind_ok (read image)) by (by apply read_run).
  destruct (shape img) as [[height width] channels]. cbn [fst snd].
  erewrite (bind_ok (np_copy image)); cycle 1.
  { unfold np_copy. cbn. by rewrite Himg. }
  unfold mbind, M_bind.
  by rewrite for_range_detections by done.
Qed.

End Pipeline.

(** ** The Geometry Normalizer *)

Section GeometryNormalizer.
Import Cv2 Hello.

(** The comprehension on a row of five entries, coordinate by coordinate:
    entries 0 and 2 are scaled by [ratio_x], entries 1 and 3 by [ratio_y] and
    clamped. *)
Lemma scaled_corners_row rx ry (x_min y_min x_max y_max conf : float) :
  scaled_corners rx ry [x_min; y_min; x_max; y_max; conf] =
  (x0 ← int (fmul x_min rx);
   y0 ← int_max_10 (fmul y_min ry);
   x1 ← int (fmul x_max rx);
   y1 ← int_max_10 (fmul y_max ry);
   Ok (x0, y0, x1, y1)).
Proof.
  unfold scaled_corners, corners, but_last, enumerate. cbn [removelast imap].
  cbn [mapM corner Z.of_nat Pos.of_succ_nat Pos.succ compose].
  change (negb (0 mod 2 =? 0)) with false.
  change (negb (1 mod 2 =? 0)) with true.
  change (negb (2 mod 2 =? 0)) with false.
  change (negb (3 mod 2 =? 0)) with true.
  cbn match.
  destruct (int (fmul x_min rx)) as [x0|e]; [|done].
  destruct (int_max_10 (fmul y_min ry)) as [y0|e]; [|done].
  destruct (int (fmul x_max rx)) as [x1|e]; [|done].
  destruct (int_max_10 (fmul y_max ry)) as [y1|e]; [|done].
  done.
Qed.

Lemma loop_body_retained rx ry T cl img box conf :
  last box = Some conf -> flt T conf = true ->
  loop_body rx ry T cl img box =
  (c ← scaled_corners rx ry box; Ok (annotate cl conf c img)).
Proof.
  intros Hlast Hconf. unfold loop_body, last_item. rewrite Hlast.
  change (mbind ?k (Ok conf)) with (k conf). cbn beta. rewrite Hconf.
  destruct (scaled_corners rx ry box) as [[[[x0 y0] x1] y1]|e]; [|done].
  cbn. by destruct cl.
Qed.

(** C1, as stated, fails on "clamps only the top edge": with equal image
    sizes (both ratios 1.0) the box [10, 2, 50, 5] is rescaled to
    [10, 10, 50, 10]; clamping the top edge alone would give [10, 10, 50, 5]. *)
Lemma bottom_edge_is_clamped_too :
  rescale 480 640 480 640 [of_Z 10; of_Z 2; of_Z 50; of_Z 5; lit 9 1] = Ok (10, 10, 50, 10) /\
  (ratio_x ← truediv 640 640; ratio_y ← truediv 480 480;
   scaled_corners_top_clamp_only ratio_x ratio_y (of_Z 10) (of_Z 2) (of_Z 50) (of_Z 5))
  = Ok (10, 10, 50, 5).
Proof. by vm_compute. Qed.

(** C1, amended.  [convert_result_to_image] computes
    [ratio_x = real_x / resized_x] and [ratio_y = real_y / resized_y] and
    runs its loop body on the rows whose confidence exceeds the threshold;
    for such a row the body multiplies entries 0 and 2 by [ratio_x] and
    entries 1 and 3 by [ratio_y], truncates each product to an integer, and
    clamps both y-coordinates, the top edge and the bottom edge, to a minimum
    of 10 (a product below 10 becomes 10), then draws the rectangle.  Box
    [10, 10, 50, 50] of a 255x255 resized image on a 510x510 real image
    becomes [20, 20, 100, 100], and a scaled top edge of 2 is drawn at 10. *)
Theorem geometry_normalizer_scales_and_clamps :
  (forall bgr_image resized_image bs T cl real_y real_x c resized_y resized_x c',
     shape bgr_image = (real_y, real_x, c) ->
     shape resized_image = (resized_y, resized_x, c') ->
     resized_x <> 0 -> resized_y <> 0 ->
     Forall (fun box => box <> []) bs ->
     convert_result_to_image bgr_image resized_image bs T cl =
     for_each
       (loop_body (fdiv (of_Z real_x) (of_Z resized_x))
                  (fdiv (of_Z real_y) (of_Z resized_y)) T cl)
       (List.filter (retained T) bs) (cvtColor bgr_image COLOR_BGR2RGB)) /\
  (forall rx ry T cl img x_min y_min x_max y_max conf,
     flt T conf = true ->
     loop_body rx ry T cl img [x_min; y_min; x_max; y_max; conf] =
     (x0 ← int (fmul x_min rx);
      y0 ← int_max_10 (fmul y_min ry);
      x1 ← int (fmul x_max rx);
      y1 ← int_max_10 (fmul y_max ry);
      Ok (annotate cl conf (x0, y0, x1, y1) img))) /\
  (forall v, flt v (of_Z 10) = true -> int_max_10 v = Ok 10) /\
  (forall v, flt v (of_Z 10) = false -> int_max_10 v = int v) /\
  (forall conf,
     rescale 255 255 510 510 [of_Z 10; of_Z 10; of_Z 50; of_Z 50; conf] =
     Ok (20, 20, 100, 100)) /\
  (forall conf,
     rescale 480 640 480 640 [of_Z 100; of_Z 2; of_Z 200; of_Z 300; conf] =
     Ok (100, 10, 200, 300)) /\
  int_max_10 (of_Z 2) = Ok 10.
Proof.
  split; [|split; [|split; [|split; [|split; [|split]]]]].
  - intros bgr_image resized_image bs T cl real_y real_x c resized_y resized_x c'
      Hreal Hresized Hx Hy Hne.
    unfold convert_result_to_image, truediv. rewrite Hreal, Hresized.
    apply Z.eqb_neq in Hx, Hy. rewrite Hx, Hy.
    change (mbind ?k (Ok ?a)) with (k a). cbn beta.
    by apply for_each_retained.
  - intros rx ry T cl img x_min y_min x_max y_max conf Hconf.
    rewrite (loop_body_retained rx ry T cl img _ conf) by done.
    rewrite scaled_corners_row.
    destruct (int (fmul x_min rx)) as [x0|e]; [|done].
    destruct (int_max_10 (fmul y_min ry)) as [y0|e]; [|done].
    destruct (int (fmul x_max rx)) as [x1|e]; [|done].
    by destruct (int_max_10 (fmul y_max ry)) as [y1|e].
  - intros v Hv. unfold int_max_10. by rewrite Hv.
  - intros v Hv. unfold int_max_10. by rewrite Hv.
  - intros conf. by vm_compute.
  - intros conf. by vm_compute.
  - by vm_compute.
Qed.

Lemma geometry_normalizer_scales_and_clamps_witness :
  flt (lit 3 1) (lit 9 1) = true /\
  loop_body (of_Z 2) (of_Z 2) (lit 3 1) false (black 4 4)
    [of_Z 10; of_Z 10; of_Z 50; of_Z 50; lit 9 1] =
  Ok (rectangle (black 4 4) (20, 20) (100, 100) green 3 LINE_8).
Proof.
  split; [by vm_compute|].
  destruct geometry_normalizer_scales_and_clamps as (_ & Hbody & _).
  rewrite Hbody by (by vm_compute). by vm_compute.
Defined.

(** C5, as stated, fails: with equal image sizes a box whose top edge is at
    y = 0 comes back with its top edge at y = 10. *)
Lemma round_trip_moves_top_edge :
  round_trip 480 640 480 640 [of_Z 0; of_Z 0; of_Z 50; of_Z 50; lit 9 1] =
  Ok (0, 10, 50, 50).
Proof. by vm_compute. Qed.

End GeometryNormalizer.

(** ** Rescaling and rescaling back *)

Section RoundTrip.
Import Hello.

(** Scaling up by [real / resized]: the truncated product [y] of an integer
    coordinate [x] lies within one step below [x * real / resized]. *)
Lemma scale_up_bracket (x real resized y : Z) (vr vp : R) :
  1 <= resized -> resized < real < 65536 -> 1 <= x < 65536 ->
  (IZR real / IZR resized * (1 - 2 * eps) <= vr <=
     IZR real / IZR resized * (1 + 2 * eps))%R ->
  (IZR x * vr * (1 - eps) <= vp <= IZR x * vr * (1 + eps))%R ->
  (IZR y <= vp < IZR y + 1)%R ->
  x <= y /\ x * real - resized <= y * resized <= x * real.
Proof.
  intros Hn HR Hx Hvr Hvp Hy. rewrite eps_value in *.
  assert (HnR : (1 <= IZR resized)%R) by (apply IZR_le; lia).
  assert (HRn : (IZR resized + 1 <= IZR real)%R) by (rewrite <- plus_IZR; apply IZR_le; lia).
  assert (HR' : (IZR real <= 65535)%R) by (apply IZR_le; lia).
  assert (Hx1 : (1 <= IZR x)%R) by (apply IZR_le; lia).
  assert (Hx' : (IZR x <= 65535)%R) by (apply IZR_le; lia).
  set (N := IZR resized) in *. set (RR := IZR real) in *. set (X := IZR x) in *.
  set (Y := IZR y) in *. set (e := (/ 4503599627370496)%R) in *.
  assert (He : (0 < e <= / 4503599627370496)%R) by (unfold e; lra).
  (* vr * n is within 2 eps of R *)
  assert (Hvrn : (RR * (1 - 2 * e) <= vr * N <= RR * (1 + 2 * e))%R).
  { destruct Hvr as [Hlo Hhi].
    apply Rmult_le_compat_r with (r := N) in Hlo; [|lra].
    apply Rmult_le_compat_r with (r := N) in Hhi; [|lra].
    replace (RR / N * (1 - 2 * e) * N)%R with (RR * (1 - 2 * e))%R in Hlo by (field; lra).
    replace (RR / N * (1 + 2 * e) * N)%R with (RR * (1 + 2 * e))%R in Hhi by (field; lra).
    lra. }
  assert (Hvr0 : (0 < vr * N)%R) by nra.
  (* vp * n is within 4 eps of x * R *)
  assert (Hvpn : (X * RR * (1 - 4 * e) <= vp * N <= X * RR * (1 + 4 * e))%R).
  { destruct Hvp as [Hlo Hhi].
    apply Rmult_le_compat_r with (r := N) in Hlo; [|lra].
    apply Rmult_le_compat_r with (r := N) in Hhi; [|lra].
    replace (X * vr * (1 - e) * N)%R with (X * (1 - e) * (vr * N))%R in Hlo by ring.
    replace (X * vr * (1 + e) * N)%R with (X * (1 + e) * (vr * N))%R in Hhi by ring.
    set (W := (vr * N)%R) in *.
    assert (X * (1 - e) * (RR * (1 - 2 * e)) <= X * (1 - e) * W)%R
      by (apply Rmult_le_compat_l; nra).
    assert (X * (1 + e) * W <= X * (1 + e) * (RR * (1 + 2 * e)))%R
      by (apply Rmult_le_compat_l; nra).
    assert (0 <= X * RR)%R by nra.
    split; nra. }
  assert (HXR : (X * RR <= 65535 * 65535)%R) by nra.
  assert (HXR0 : (0 <= X * RR)%R) by nra.
  assert (Hslack : (X * RR * (4 * e) < 1)%R) by nra.
  split; [|split].
  - apply Z.lt_succ_r. apply lt_IZR. unfold Z.succ. rewrite plus_IZR. fold X Y.
    assert (X * N <= vp * N)%R; [|nra].
    assert (X * N + X <= X * RR)%R by nra.
    assert (X * RR * (4 * e) <= X)%R by nra. nra.
  - assert (x * real < y * resized + resized + 1); [|lia].
    apply lt_IZR. rewrite !plus_IZR, !mult_IZR. fold X RR Y N.
    assert (vp * N < (Y + 1) * N)%R by (apply Rmult_lt_compat_r; lra). nra.
  - apply Z.lt_succ_r. apply lt_IZR. unfold Z.succ. rewrite plus_IZR, !mult_IZR.
    fold X RR Y N.
    assert (Y * N <= vp * N)%R by (apply Rmult_le_compat_r; lra). nra.
Qed.

(** Scaling back down by [resized / real] lands within one pixel of [x]. *)
Lemma scale_down_bracket (x real resized y : Z) (vr vq : R) :
  1 <= resized -> resized < real < 65536 -> 1 <= x < 65536 ->
  x * real - resized <= y * resized <= x * real ->
  (IZR resized / IZR real * (1 - 2 * eps) <= vr <=
     IZR resized / IZR real * (1 + 2 * eps))%R ->
  (IZR y * vr * (1 - eps) <= vq <= IZR y * vr * (1 + eps))%R ->
  (IZR x - 1 <= vq < IZR x + 1)%R.
Proof.
  intros Hn HR Hx Hy Hvr Hvq. rewrite eps_value in *.
  assert (HnR : (1 <= IZR resized)%R) by (apply IZR_le; lia).
  assert (HRn : (IZR resized + 1 <= IZR real)%R) by (rewrite <- plus_IZR; apply IZR_le; lia).
  assert (HR' : (IZR real <= 65535)%R) by (apply IZR_le; lia).
  assert (Hx1 : (1 <= IZR x)%R) by (apply IZR_le; lia).
  assert (Hx' : (IZR x <= 65535)%R) by (apply IZR_le; lia).
  assert (HyN : (IZR x * IZR real - IZR resized <= IZR y * IZR resized <= IZR x * IZR real)%R).
  { rewrite <- !mult_IZR, <- minus_IZR. split; apply IZR_le; lia. }
  set (N := IZR resized) in *. set (RR := IZR real) in *. set (X := IZR x) in *.
  set (Y := IZR y) in *. set (e := (/ 4503599627370496)%R) in *.
  assert (He : (0 < e <= / 4503599627370496)%R) by (unfold e; lra).
  assert (Hvrn : (N * (1 - 2 * e) <= vr * RR <= N * (1 + 2 * e))%R).
  { destruct Hvr as [Hlo Hhi].
    apply Rmult_le_compat_r with (r := RR) in Hlo; [|lra].
    apply Rmult_le_compat_r with (r := RR) in Hhi; [|lra].
    replace (N / RR * (1 - 2 * e) * RR)%R with (N * (1 - 2 * e))%R in Hlo by (field; lra).
    replace (N / RR * (1 + 2 * e) * RR)%R with (N * (1 + 2 * e))%R in Hhi by (field; lra).
    lra. }
  assert (HXR : (X * RR <= 65535 * 65535)%R) by nra.
  assert (HXR1 : (RR <= X * RR)%R) by nra.
  assert (HY0 : (0 < Y * N)%R) by lra.
  assert (HY : (0 < Y)%R) by nra.
  assert (Hvqn : (Y * N * (1 - 4 * e) <= vq * RR <= Y * N * (1 + 4 * e))%R).
  { destruct Hvq as [Hlo Hhi].
    apply Rmult_le_compat_r with (r := RR) in Hlo; [|lra].
    apply Rmult_le_compat_r with (r := RR) in Hhi; [|lra].
    replace (Y * vr * (1 - e) * RR)%R with (Y * (1 - e) * (vr * RR))%R in Hlo by ring.
    replace (Y * vr * (1 + e) * RR)%R with (Y * (1 + e) * (vr * RR))%R in Hhi by ring.
    set (W := (vr * RR)%R) in *.
    assert (Y * (1 - e) * (N * (1 - 2 * e)) <= Y * (1 - e) * W)%R
      by (apply Rmult_le_compat_l; nra).
    assert (Y * (1 + e) * W <= Y * (1 + e) * (N * (1 + 2 * e)))%R
      by (apply Rmult_le_compat_l; nra).
    split; nra. }
  assert (Hslack : (X * RR * (4 * e) < 1)%R) by nra.
  assert (Hslack' : (Y * N * (4 * e) < 1)%R) by nra.
  split.
  - apply Rmult_le_reg_r with (r := RR); [lra|]. nra.
  - apply Rmult_lt_reg_r with (r := RR); [lra|]. nra.
Qed.

Lemma int_of_represents_Z v k : represents v (IZR k) -> int v = Ok k.
Proof.
  intros Hv. destruct (int_represents v _ Hv) as (y & -> & Hlo & Hhi).
  f_equal. apply le_IZR in Hlo. rewrite <- plus_IZR in Hhi. apply lt_IZR in Hhi. lia.
Qed.

Lemma ten_value : of_Z 10 = S754_finite false 5629499534213120 (-49).
Proof. by vm_compute. Qed.

(** A float that compares below 10.0 stands for a real below 10. *)
Lemma flt_ten_sound v r : represents v r -> flt v (of_Z 10) = true -> (r < 10)%R.
Proof.
  intros (m & e & -> & Hfits & ->). rewrite ten_value.
  unfold flt, SFltb, SFcompare.
  pose proof (represents_fits_digits _ _ Hfits) as [Hd _].
  pose proof (IZR_digits_bounds (Z.pos m) ltac:(lia)) as [_ Hhi].
  assert (Hm53 : (IZR (Z.pos m) < pow2 53)%R).
  { eapply Rlt_le_trans; [exact Hhi|]. by apply pow2_le. }
  assert (H49 : (pow2 49 * pow2 (-49) = 1)%R) by (by rewrite <- pow2_add).
  assert (H49' : pow2 49 = 562949953421312%R) by (by rewrite <- pow2_IZR by lia).
  pose proof (pow2_pos (-49)) as Hp49.
  destruct (Z.compare_spec e (-49)) as [-> |Hlt|Hgt]; [| |done].
  - rewrite Pos.compare_cont_spec. cbn [Pos.switch_Eq].
    destruct (Pos.compare_spec m 5629499534213120) as [|Hm|];
      [discriminate| |discriminate]. intros _.
    assert (Hlt : (IZR (Z.pos m) < 5629499534213120)%R) by (apply IZR_lt; exact Hm).
    assert (Hten : (5629499534213120 * pow2 (-49) = 10)%R).
    { replace 5629499534213120%R with (10 * pow2 49)%R by (rewrite H49'; lra).
      rewrite Rmult_assoc, H49. lra. }
    apply Rmult_lt_compat_r with (r := pow2 (-49)) in Hlt; [|done]. lra.
  - intros _.
    assert (Hpe : (pow2 e <= pow2 (-50))%R) by (apply pow2_le; lia).
    assert (H50 : (pow2 53 * pow2 (-50) = 8)%R).
    { rewrite <- pow2_add. change (53 + -50) with 3. by rewrite <- pow2_IZR by lia. }
    pose proof (pow2_pos e). pose proof (pow2_pos (-50)).
    assert (0 < IZR (Z.pos m))%R by (apply IZR_lt; lia).
    assert (IZR (Z.pos m) * pow2 e <= IZR (Z.pos m) * pow2 (-50))%R
      by (apply Rmult_le_compat_l; lra).
    assert (IZR (Z.pos m) * pow2 (-50) < pow2 53 * pow2 (-50))%R
      by (apply Rmult_lt_compat_r; lra).
    lra.
Qed.

Lemma pow2_16 : pow2 16 = 65536%R.
Proof. by rewrite <- pow2_IZR by lia. Qed.

Lemma pow2_m16 : pow2 (-16) = (/ 65536)%R.
Proof.
  pose proof (pow2_add 16 (-16)) as H. change (16 + -16) with 0 in H.
  rewrite pow2_0, pow2_16 in H. pose proof (pow2_pos (-16)).
  apply Rmult_eq_reg_l with (r := 65536%R); lra.
Qed.

Lemma pow2_40 : pow2 40 = 1099511627776%R.
Proof. by rewrite <- pow2_IZR by lia. Qed.

Lemma pow2_m40 : pow2 (-40) = (/ 1099511627776)%R.
Proof.
  pose proof (pow2_add 40 (-40)) as H. change (40 + -40) with 0 in H.
  rewrite pow2_0, pow2_40 in H. pose proof (pow2_pos (-40)).
  apply Rmult_eq_reg_l with (r := 1099511627776%R); lra.
Qed.

Lemma normal_range v :
  (/ 1099511627776 <= v < 1099511627776)%R -> (pow2 (-900) <= v < pow2 900)%R.
Proof.
  intros [Hlo Hhi]. pose proof (pow2_le (-900) (-40) ltac:(lia)).
  pose proof (pow2_le 40 900 ltac:(lia)). rewrite pow2_m40, pow2_40 in *. lra.
Qed.

(** The ratio of two image sizes. *)
Lemma ratio_represents a b :
  1 <= a < 65536 -> 1 <= b < 65536 ->
  exists vr, represents (fdiv (of_Z a) (of_Z b)) vr /\
             (IZR a / IZR b * (1 - 2 * eps) <= vr <= IZR a / IZR b * (1 + 2 * eps))%R /\
             (/ 65536 <= IZR a / IZR b <= 65536)%R.
Proof.
  intros Ha Hb.
  assert (HaR : (1 <= IZR a <= 65535)%R) by (split; apply IZR_le; lia).
  assert (HbR : (1 <= IZR b <= 65535)%R) by (split; apply IZR_le; lia).
  assert (Hq : (/ 65536 <= IZR a / IZR b <= 65536)%R).
  { split.
    - apply Rmult_le_reg_r with (r := IZR b); [lra|].
      replace (IZR a / IZR b * IZR b)%R with (IZR a) by (field; lra). lra.
    - apply Rmult_le_reg_r with (r := IZR b); [lra|].
      replace (IZR a / IZR b * IZR b)%R with (IZR a) by (field; lra). nra. }
  destruct (fdiv_represents (of_Z a) (of_Z b) (IZR a) (IZR b)) as (vr & Hvr & Hbound).
  - apply of_Z_represents. lia.
  - apply of_Z_represents. lia.
  - apply normal_range. lra.
  - by exists vr.
Qed.

(** One coordinate, scaled from the resized image to a real image at least
    as large and scaled back: the values the two products stand for. *)
Lemma round_trip_values resized real x :
  1 <= resized -> resized <= real -> real < 65536 -> 1 <= x < 65536 ->
  exists vp y vq,
    represents (fmul (of_Z x) (fdiv (of_Z real) (of_Z resized))) vp /\
    (IZR y <= vp < IZR y + 1)%R /\
    x <= y < 2 ^ 32 /\
    represents (fmul (of_Z y) (fdiv (of_Z resized) (of_Z real))) vq /\
    (IZR x - 1 <= vq < IZR x + 1)%R.
Proof.
  intros Hn Hle HR Hx.
  assert (HxR : (1 <= IZR x <= 65535)%R) by (split; apply IZR_le; lia).
  pose proof (of_Z_represents x ltac:(lia)) as Hxf.
  destruct (Z.eq_dec resized real) as [->|Hne].
  - (* equal sizes: both ratios are exactly 1.0 *)
    pose proof (of_Z_represents real ltac:(lia)) as (m & e & Hreal & _).
    rewrite Hreal, fdiv_self.
    assert (Hp : represents (fmul (of_Z x) one) (IZR x)).
    { apply fmul_one_represents; [done|apply one_represents|].
      pose proof (pow2_le 40 900 ltac:(lia)) as H. rewrite pow2_40 in H. lra. }
    exists (IZR x), x, (IZR x). repeat split; try done; try lra; try lia.
  - (* a real image strictly larger *)
    destruct (ratio_represents real resized) as (vr & Hr & Hvr & Hq); [lia..|].
    destruct (ratio_represents resized real) as (vr' & Hr' & Hvr' & Hq'); [lia..|].
    assert (Heps : (0 < eps < / 1000)%R) by (rewrite eps_value; lra).
    assert (Hq1 : (1 <= IZR real / IZR resized)%R).
    { assert (1 <= IZR resized)%R by (apply IZR_le; lia).
      assert (IZR resized <= IZR real)%R by (apply IZR_le; lia).
      apply Rmult_le_reg_r with (r := IZR resized); [lra|].
      replace (IZR real / IZR resized * IZR resized)%R with (IZR real) by (field; lra). lra. }
    assert (Hq1' : (IZR resized / IZR real <= 1)%R).
    { assert (1 <= IZR resized)%R by (apply IZR_le; lia).
      assert (IZR resized <= IZR real)%R by (apply IZR_le; lia).
      apply Rmult_le_reg_r with (r := IZR real); [lra|].
      replace (IZR resized / IZR real * IZR real)%R with (IZR resized) by (field; lra). lra. }
    set (q := (IZR real / IZR resized)%R) in *. set (q' := (IZR resized / IZR real)%R) in *.
    assert (Hvrb : (/ 2 <= vr <= 131072)%R) by nra.
    assert (Hvrb' : (/ 131072 <= vr' <= 2)%R) by nra.
    destruct (fmul_represents (of_Z x) _ (IZR x) vr Hxf Hr) as (vp & Hp & Hvp).
    { apply normal_range. nra. }
    destruct (int_represents _ _ Hp) as (y & Hy & Hyv).
    destruct (scale_up_bracket x real resized y vr vp) as (Hxy & Hbr); [lia..|done|done|done|].
    assert (Hy32 : y < 2 ^ 32) by nia.
    pose proof (of_Z_represents y ltac:(lia)) as Hyf.
    assert (HyR : (1 <= IZR y <= 4294967296)%R) by (split; apply IZR_le; lia).
    destruct (fmul_represents (of_Z y) _ (IZR y) vr' Hyf Hr') as (vq & Hq2 & Hvq).
    { apply normal_range. nra. }
    exists vp, y, vq. repeat split; try done; try lia; try lra.
    + eapply scale_down_bracket; [| | |exact Hbr|exact Hvr'|exact Hvq]; lia.
    + eapply scale_down_bracket; [| | |exact Hbr|exact Hvr'|exact Hvq]; lia.
Qed.

Lemma int_bracket z (v : R) c :
  (IZR z <= v < IZR z + 1)%R -> (IZR c - 1 <= v < IZR c + 1)%R -> c - 1 <= z <= c.
Proof.
  intros [Hz1 Hz2] [Hc1 Hc2]. split.
  - assert (c - 1 < z + 1); [|lia]. apply lt_IZR. rewrite plus_IZR, minus_IZR. lra.
  - assert (z < c + 1); [|lia]. apply lt_IZR. rewrite plus_IZR. lra.
Qed.

(** An x-coordinate: scaled, truncated, scaled back, truncated. *)
Lemma x_round_trip resized real x :
  1 <= resized -> resized <= real -> real < 65536 -> 0 <= x < 65536 ->
  exists y z,
    int (fmul (of_Z x) (fdiv (of_Z real) (of_Z resized))) = Ok y /\
    int (fmul (of_Z y) (fdiv (of_Z resized) (of_Z real))) = Ok z /\
    x - 1 <= z <= x.
Proof.
  intros Hn Hle HR Hx. destruct (Z.eq_dec x 0) as [->|Hx0].
  - destruct (ratio_represents real resized) as (vr & (m & e & -> & _) & _); [lia..|].
    destruct (ratio_represents resized real) as (vr' & (m' & e' & -> & _) & _); [lia..|].
    exists 0, 0. repeat split; try done; lia.
  - destruct (round_trip_values resized real x) as (vp & y & vq & Hp & Hy & Hxy & Hq & Hvq);
      [lia..|].
    destruct (int_represents _ _ Hp) as (y' & Hy' & Hyv).
    assert (y' = y) as ->.
    { destruct Hy, Hyv. assert (y' < y + 1) by (apply lt_IZR; rewrite plus_IZR; lra).
      assert (y < y' + 1) by (apply lt_IZR; rewrite plus_IZR; lra). lia. }
    destruct (int_represents _ _ Hq) as (z & Hz & Hzv).
    exists y, z. split; [done|]. split; [done|]. by eapply int_bracket.
Qed.

(** A y-coordinate of at least 10: both passes go through the clamp. *)
Lemma y_round_trip resized real x :
  1 <= resized -> resized <= real -> real < 65536 -> 10 <= x < 65536 ->
  exists y z,
    int_max_10 (fmul (of_Z x) (fdiv (of_Z real) (of_Z resized))) = Ok y /\
    int_max_10 (fmul (of_Z y) (fdiv (of_Z resized) (of_Z real))) = Ok z /\
    x - 1 <= z <= x.
Proof.
  intros Hn Hle HR Hx.
  destruct (round_trip_values resized real x) as (vp & y & vq & Hp & Hy & Hxy & Hq & Hvq);
    [lia..|].
  destruct (int_represents _ _ Hp) as (y' & Hy' & Hyv).
  assert (y' = y) as ->.
  { destruct Hy, Hyv. assert (y' < y + 1) by (apply lt_IZR; rewrite plus_IZR; lra).
    assert (y < y' + 1) by (apply lt_IZR; rewrite plus_IZR; lra). lia. }
  assert (HxR : (10 <= IZR x)%R) by (apply IZR_le; lia).
  assert (HxyR : (IZR x <= IZR y)%R) by (apply IZR_le; lia).
  exists y. unfold int_max_10.
  destruct (flt (fmul (of_Z x) _) (of_Z 10)) eqn:Hcmp.
  { pose proof (flt_ten_sound _ _ Hp Hcmp). lra. }
  destruct (flt (fmul (of_Z y) _) (of_Z 10)) eqn:Hcmp'.
  - pose proof (flt_ten_sound _ _ Hq Hcmp') as Hlt.
    exists 10. split; [done|]. split; [done|].
    assert (x < 11); [|lia]. apply lt_IZR. lra.
  - destruct (int_represents _ _ Hq) as (z & Hz & Hzv).
    exists z. split; [done|]. split; [done|]. by eapply int_bracket.
Qed.

Lemma truediv_ok a b : b <> 0 -> truediv a b = Ok (fdiv (of_Z a) (of_Z b)).
Proof. intros Hb. unfold truediv. apply Z.eqb_neq in Hb. by rewrite Hb. Qed.

(** C5, amended.  When the real image is at least as large as the resized
    one in both directions (all sizes below 65536), a box with integer
    coordinates, x-coordinates from 0 and y-coordinates from 10 (all below
    65536), rescaled to the real image and back with the inverse ratios comes
    back with every coordinate within one pixel of its original value: the
    coordinate itself or one less. *)
Theorem round_trip_within_one_pixel
    (resized_y resized_x real_y real_x x_min y_min x_max y_max : Z) (conf : float) :
  1 <= resized_x -> resized_x <= real_x -> real_x < 65536 ->
  1 <= resized_y -> resized_y <= real_y -> real_y < 65536 ->
  0 <= x_min < 65536 -> 0 <= x_max < 65536 ->
  10 <= y_min < 65536 -> 10 <= y_max < 65536 ->
  exists x0 y0 x1 y1,
    round_trip resized_y resized_x real_y real_x
      [of_Z x_min; of_Z y_min; of_Z x_max; of_Z y_max; conf] = Ok (x0, y0, x1, y1) /\
    x_min - 1 <= x0 <= x_min /\ y_min - 1 <= y0 <= y_min /\
    x_max - 1 <= x1 <= x_max /\ y_max - 1 <= y1 <= y_max.
Proof.
  intros Hnx Hlex HRx Hny Hley HRy Hx0 Hx1 Hy0 Hy1.
  destruct (x_round_trip resized_x real_x x_min) as (a & x0 & Ha & Hx0' & Hbx0); [lia..|].
  destruct (y_round_trip resized_y real_y y_min) as (b & y0 & Hb & Hy0' & Hby0); [lia..|].
  destruct (x_round_trip resized_x real_x x_max) as (c & x1 & Hc & Hx1' & Hbx1); [lia..|].
  destruct (y_round_trip resized_y real_y y_max) as (d & y1 & Hd & Hy1' & Hby1); [lia..|].
  exists x0, y0, x1, y1. split; [|done].
  unfold round_trip, rescale.
  rewrite !truediv_ok by lia. rewrite !result_bind_ok.
  rewrite scaled_corners_row, Ha, Hb, Hc, Hd. rewrite !result_bind_ok.
  rewrite scaled_corners_row, Hx0', Hy0', Hx1', Hy1'. by rewrite !result_bind_ok.
Qed.

(** The bounds of the theorem are needed.  Scaling down loses pixels: from a
    100x100 resized image to a 10x10 real image and back, x = 19 returns as
    10.  So do fractional coordinates: from 1000x1000 to 1001x1001 and back,
    x = 2.9 returns as 1. *)
Example round_trip_scaling_down :
  round_trip 100 100 10 10 [of_Z 19; of_Z 19; of_Z 95; of_Z 95; lit 9 1] =
  Ok (10, 100, 90, 100).
Proof. by vm_compute. Qed.

Example round_trip_fractional :
  round_trip 1000 1000 1001 1001 [lit 29 1; lit 129 1; lit 59 1; lit 1599 1; lit 9 1] =
  Ok (1, 11, 4, 159).
Proof. by vm_compute. Qed.

Lemma round_trip_within_one_pixel_witness :
  exists x0 y0 x1 y1,
    round_trip 255 255 510 510
      [of_Z 10; of_Z 10; of_Z 50; of_Z 50; lit 9 1] = Ok (x0, y0, x1, y1) /\
    10 - 1 <= x0 <= 10 /\ 10 - 1 <= y0 <= 10 /\
    50 - 1 <= x1 <= 50 /\ 50 - 1 <= y1 <= 50.
Proof. apply round_trip_within_one_pixel; lia. Defined.

End RoundTrip.

(** ** The renderer and the pipeline on concrete inputs *)

Section RendererRuns.
Import Cv2 Detection.

(** C3, as stated, fails: the same array, box and label, rendered from two
    states that differ only in the generator's next draws, give two different
    annotated arrays (boxes of colour (7, 7, 7) and (9, 9, 9)). *)
Lemma box_colour_depends_on_generator :
  let s1 := start (fun _ => 7) in
  let s2 := start (fun _ => 9) in
  let o1 := add_detection_box fixed_font unit_box 1%positive (Some "cat 0.95") s1 in
  let o2 := add_detection_box fixed_font unit_box 1%positive (Some "cat 0.95") s2 in
  heap s1 = heap s2 /\ o1.1 = Ok 1%positive /\ o2.1 = Ok 1%positive /\
  heap o1.2 !! 1%positive <> heap o2.2 !! 1%positive.
Proof.
  repeat split; [by vm_compute..|]. vm_compute. intros [=].
Qed.

Lemma rendering_deterministic_given_draws_witness :
  let s1 := start (fun n => 7 + 256 * Z.of_nat n) in
  let s2 := start (fun _ => 7) in
  heap (add_detection_box fixed_font unit_box 1%positive (Some "cat 0.95") s1).2 !! 1%positive =
  heap (add_detection_box fixed_font unit_box 1%positive (Some "cat 0.95") s2).2 !! 1%positive.
Proof.
  intros s1 s2.
  apply (proj1 (rendering_deterministic_given_draws fixed_font)); by vm_compute.
Defined.


(** C6, as stated, fails: [visualize_inference_result] has no Detection
    Filter.  On a batch with scores 0.95 and 0.12 it draws both detections,
    six calls, and returns nothing, where the specified pipeline at threshold
    0.3 draws only the first, three calls, and returns the annotated image. *)
Lemma low_score_detection_is_drawn :
  let o := visualize_inference_result fixed_font two_detections 1%positive cat_dog (Some 5)
             (start (fun _ => 7)) in
  let o' := pipeline_as_specified fixed_font (lit 3 1) two_detections 1%positive cat_dog
              (Some 5) (start (fun _ => 7)) in
  o.1 = Ok tt /\ o'.1 = Ok 2%positive /\
  (length ∘ drawn) <$> heap o.2 !! 2%positive = Some 6%nat /\
  (length ∘ drawn) <$> heap o'.2 !! 2%positive = Some 3%nat /\
  heap o.2 !! 2%positive <> heap o'.2 !! 2%positive.
Proof.
  repeat split; [by vm_compute..|]. vm_compute. intros [=].
Qed.

Lemma visualize_is_unfiltered_pipeline_witness :
  visualize_inference_result fixed_font two_detections 1%positive cat_dog (Some 5)
    (start (fun _ => 7)) =
  pipeline_unfiltered fixed_font two_detections 1%positive cat_dog (Some 5)
    (start (fun _ => 7)).
Proof.
  apply (visualize_is_unfiltered_pipeline fixed_font two_detections 1%positive cat_dog
           (Some 5) (of_Z 2) 2); by vm_compute.
Defined.

End RendererRuns.

(** * Further properties of the helpers *)

(** ** [convert_result_to_image] and the zero-only rows *)

Section ZeroRows.
Import Cv2 Hello.

Implicit Types (output bs : list row) (r : row) (T : float).

Lemma is_zero_inv c : is_zero c = true -> exists s, c = S754_zero s.
Proof.
  destruct c as [s|s| |s m e]; intros H; [by exists s|by destruct s|done|by destruct s].
Qed.

Lemma flt_zero_sign T s : flt T (S754_zero s) = flt T (of_Z 0).
Proof. by destruct T. Qed.

Lemma zero_row_not_retained T r :
  flt T (of_Z 0) = false -> forallb is_zero r = true -> retained T r = false.
Proof.
  intros HT Hr. unfold retained. destruct (last r) as [conf|] eqn:Hlast; [|done].
  apply last_Some in Hlast as [r' ->].
  rewrite forallb_app in Hr. cbn in Hr.
  apply andb_prop in Hr as [_ Hr]. rewrite andb_true_r in Hr.
  apply is_zero_inv in Hr as [s ->]. by rewrite flt_zero_sign.
Qed.

Lemma filter_retained_boxes T output :
  flt T (of_Z 0) = false ->
  List.filter (retained T) (boxes output) = List.filter (retained T) output.
Proof.
  intros HT. unfold boxes. induction output as [|r output IH]; [done|].
  cbn [List.filter]. destruct (forallb is_zero r) eqn:Hr; cbn [negb List.filter].
  - by rewrite (zero_row_not_retained T r HT Hr).
  - by rewrite IH.
Qed.

Lemma boxes_nonempty output :
  Forall (fun r => r <> []) output -> Forall (fun r => r <> []) (boxes output).
Proof.
  intros H. unfold boxes. induction H as [|r output Hr _ IH]; [constructor|].
  cbn [List.filter]. destruct (negb (forallb is_zero r)); [by constructor|done].
Qed.

Lemma convert_result_to_image_boxes bgr_image resized_image output T cl :
  flt T (of_Z 0) = false ->
  Forall (fun r => r <> []) output ->
  convert_result_to_image bgr_image resized_image (boxes output) T cl =
  convert_result_to_image bgr_image resized_image output T cl.
Proof.
  intros HT Hne. unfold convert_result_to_image.
  destruct (shape bgr_image) as [[real_y real_x] c].
  destruct (shape resized_image) as [[resized_y resized_x] c'].
  destruct (truediv real_x resized_x) as [ratio_x|e]; [|done].
  destruct (truediv real_y resized_y) as [ratio_y|e]; [|done].
  rewrite !result_bind_ok.
  rewrite (for_each_retained _ _ _ _ output) by done.
  rewrite (for_each_retained _ _ _ _ (boxes output)) by (by apply boxes_nonempty).
  by rewrite filter_retained_boxes.
Qed.

(** X1.  The cell that drops the zero-only rows changes nothing of the picture
    at a threshold that is not negative (the default 0.3 of the last cell, or
    NaN): the loop would skip those rows by their confidence of zero.  On a
    model output with no empty row, drawing the rows the cell kept and drawing
    all the rows give the same result, an exception included. *)
Theorem zero_row_removal_is_redundant bgr_image resized_image output :
  Forall (fun r => r <> []) output ->
  (forall T cl, flt T (of_Z 0) = false ->
     convert_result_to_image bgr_image resized_image (boxes output) T cl =
     convert_result_to_image bgr_image resized_image output T cl) /\
  show_result bgr_image resized_image output =
  convert_result_to_image bgr_image resized_image output default_threshold false.
Proof.
  intros Hne. split.
  - intros T cl HT. by apply convert_result_to_image_boxes.
  - unfold show_result. apply convert_result_to_image_boxes; [by vm_compute|done].
Qed.

Lemma zero_row_removal_is_redundant_witness :
  show_result (black 8 8) (black 4 4)
    [[of_Z 1; of_Z 2; of_Z 3; of_Z 4; lit 9 1]; zero_row] =
  convert_result_to_image (black 8 8) (black 4 4)
    [[of_Z 1; of_Z 2; of_Z 3; of_Z 4; lit 9 1]; zero_row] default_threshold false.
Proof.
  apply zero_row_removal_is_redundant. by repeat constructor.
Defined.

End ZeroRows.

(** ** What [convert_result_to_image] draws *)

Section Drawing.
Import Cv2 Hello.

Implicit Types (bs : list row) (r : row) (T : float) (img : image).

Definition is_rectangle (c : call) : bool :=
  match c with Rectangle _ _ _ _ _ => true | _ => false end.

Definition is_text (c : call) : bool :=
  match c with PutText _ _ _ _ _ _ _ => true | _ => false end.

(** The calls the loop makes for one retained row. *)
Definition row_calls (cl : bool) (conf : float) (c : Z * Z * Z * Z) : list call :=
  let '(x_min, y_min, x_max, y_max) := c in
  Rectangle (x_min, y_min) (x_max, y_max) green 3 LINE_8 ::
  (if cl then [PutText (format_2f conf) (x_min, y_min - 10) FONT_HERSHEY_SIMPLEX
                 (lit 8 1) red 1 LINE_AA]
   else []).

Lemma draw_all_nil img : Detection.draw_all [] img = img.
Proof. destruct img. unfold Detection.draw_all. cbn. by rewrite app_nil_r. Qed.

Lemma annotate_row_calls cl conf c img :
  annotate cl conf c img = Detection.draw_all (row_calls cl conf c) img.
Proof.
  destruct c as [[[x_min y_min] x_max] y_max]. unfold annotate, row_calls.
  unfold rectangle, putText, draw, Detection.draw_all. destruct cl; cbn; [|done].
  by rewrite <- app_assoc.
Qed.

(** The loop body, by cases on the row. *)
Lemma loop_body_cases rx ry T cl img r out :
  loop_body rx ry T cl img r = Ok out ->
  r <> [] /\
  ((retained T r = false /\ out = img) \/
   (retained T r = true /\
    exists conf c, last r = Some conf /\ scaled_corners rx ry r = Ok c /\
                   out = Detection.draw_all (row_calls cl conf c) img)).
Proof.
  unfold loop_body, last_item, retained.
  destruct (last r) as [conf|] eqn:Hlast; [|done].
  rewrite result_bind_ok. intros H. split; [by intros ->|].
  destruct (flt T conf) eqn:Hconf.
  - right. split; [done|].
    destruct (scaled_corners rx ry r) as [c|e] eqn:Hc; [|done].
    rewrite result_bind_ok in H. exists conf, c. repeat split; [].
    rewrite <- annotate_row_calls. destruct c as [[[x_min y_min] x_max] y_max].
    unfold annotate. destruct cl; congruence.
  - left. split; congruence.
Qed.

Definition drawn_row : Type := float * (Z * Z * Z * Z).

Definition rows_calls (cl : bool) (ds : list drawn_row) : list call :=
  flat_map (fun d : drawn_row => row_calls cl d.1 d.2) ds.

(** The loop: the calls of the retained rows, in the order of the batch. *)
Lemma for_each_calls rx ry T cl bs img out :
  for_each (loop_body rx ry T cl) bs img = Ok out ->
  exists ds : list drawn_row,
    out = Detection.draw_all (rows_calls cl ds) img /\
    Forall2 (fun r d => last r = Some d.1 /\ scaled_corners rx ry r = Ok d.2)
      (List.filter (retained T) bs) ds.
Proof.
  revert img. induction bs as [|r bs IH]; intros img.
  - cbn. intros [= <-]. exists []. by rewrite draw_all_nil.
  - cbn [for_each]. destruct (loop_body rx ry T cl img r) as [mid|e] eqn:Hbody; [|done].
    rewrite result_bind_ok. intros Hrest.
    destruct (IH _ Hrest) as (ds & -> & Hds).
    apply loop_body_cases in Hbody as [_ [[Hret ->]|[Hret (conf & c & Hlast & Hc & ->)]]];
      cbn [List.filter]; rewrite Hret.
    + by exists ds.
    + exists ((conf, c) :: ds). rewrite draw_all_draw_all. split; [done|].
      by constructor.
Qed.

Lemma rows_calls_rectangles cl ds :
  length (List.filter is_rectangle (rows_calls cl ds)) = length ds.
Proof.
  induction ds as [|[conf [[[x_min y_min] x_max] y_max]] ds IH]; [done|].
  unfold rows_calls in *. cbn [flat_map row_calls fst snd].
  destruct cl; cbn; by rewrite IH.
Qed.

Lemma rows_calls_texts cl ds :
  length (List.filter is_text (rows_calls cl ds)) = (if cl then length ds else 0)%nat.
Proof.
  induction ds as [|[conf [[[x_min y_min] x_max] y_max]] ds IH]; [by destruct cl|].
  unfold rows_calls in *. cbn [flat_map row_calls fst snd].
  destruct cl; cbn; by rewrite IH.
Qed.

Lemma rows_calls_kinds cl ds :
  Forall (fun c => is_rectangle c || is_text c = true) (rows_calls cl ds).
Proof.
  induction ds as [|[conf [[[x_min y_min] x_max] y_max]] ds IH]; [constructor|].
  unfold rows_calls in *. cbn [flat_map row_calls fst snd].
  destruct cl; repeat constructor; done.
Qed.

Lemma convert_result_to_image_calls bgr_image resized_image bs T cl out :
  convert_result_to_image bgr_image resized_image bs T cl = Ok out ->
  exists ratio_x ratio_y (ds : list drawn_row),
    truediv (shape bgr_image).1.2 (shape resized_image).1.2 = Ok ratio_x /\
    truediv (shape bgr_image).1.1 (shape resized_image).1.1 = Ok ratio_y /\
    out = Detection.draw_all (CvtColor COLOR_BGR2RGB :: rows_calls cl ds) bgr_image /\
    Forall2 (fun r d => last r = Some d.1 /\ scaled_corners ratio_x ratio_y r = Ok d.2)
      (List.filter (retained T) bs) ds.
Proof.
  unfold convert_result_to_image.
  destruct (shape bgr_image) as [[real_y real_x] c] eqn:Hshape.
  destruct (shape resized_image) as [[resized_y resized_x] c'].
  cbn [fst snd].
  destruct (truediv real_x resized_x) as [ratio_x|e]; [|done].
  destruct (truediv real_y resized_y) as [ratio_y|e]; [|done].
  rewrite !result_bind_ok. intros H.
  apply for_each_calls in H as (ds & -> & Hds).
  exists ratio_x, ratio_y, ds. repeat split; [|done].
  unfold cvtColor. rewrite draw_as_draw_all, draw_all_draw_all. done.
Qed.

(** X2.  On success the result is the input buffer, colour-converted, with one
    rectangle for each row whose confidence exceeds the threshold and, with
    [conf_labels], one text for each such row; nothing else is drawn and no
    sample of the buffer is written. *)
Theorem one_rectangle_per_retained_row bgr_image resized_image bs T cl out :
  convert_result_to_image bgr_image resized_image bs T cl = Ok out ->
  shape out = shape bgr_image /\
  samples out = samples bgr_image /\
  exists calls,
    drawn out = drawn bgr_image ++ CvtColor COLOR_BGR2RGB :: calls /\
    Forall (fun c => is_rectangle c || is_text c = true) calls /\
    length (List.filter is_rectangle calls) = length (List.filter (retained T) bs) /\
    length (List.filter is_text calls) =
      (if cl then length (List.filter (retained T) bs) else 0)%nat.
Proof.
  intros H. apply convert_result_to_image_calls in H as (rx & ry & ds & _ & _ & -> & Hds).
  apply Forall2_length in Hds.
  split; [done|]. split; [done|]. exists (rows_calls cl ds).
  split; [done|]. split; [apply rows_calls_kinds|].
  by rewrite rows_calls_rectangles, rows_calls_texts, Hds.
Qed.

Lemma one_rectangle_per_retained_row_witness :
  let bs := [[of_Z 1; of_Z 2; of_Z 3; of_Z 4; lit 9 1];
             [of_Z 1; of_Z 2; of_Z 3; of_Z 4; lit 1 1];
             [of_Z 5; of_Z 6; of_Z 7; of_Z 8; lit 4 1]] in
  exists out calls,
    convert_result_to_image (black 8 8) (black 4 4) bs default_threshold false = Ok out /\
    drawn out = CvtColor COLOR_BGR2RGB :: calls /\
    length (List.filter is_rectangle calls) = 2%nat.
Proof.
  eexists.
  destruct (one_rectangle_per_retained_row (black 8 8) (black 4 4)
    [[of_Z 1; of_Z 2; of_Z 3; of_Z 4; lit 9 1];
     [of_Z 1; of_Z 2; of_Z 3; of_Z 4; lit 1 1];
     [of_Z 5; of_Z 6; of_Z 7; of_Z 8; lit 4 1]] default_threshold false _ ltac:(by vm_compute))
    as (_ & _ & calls & Hdrawn & _ & Hrect & _).
  exists calls. split; [by vm_compute|]. split; [exact Hdrawn|exact Hrect].
Defined.

End Drawing.

(** ** The exceptions of [convert_result_to_image] *)

Section Exceptions.
Import Cv2 Hello.

Implicit Types (bs : list row) (r : row) (T : float) (img : image).

(** The exceptions of the conversions to [int]. *)
Definition conversion_error (e : exn) : Prop := e = ValueError \/ e = OverflowError.

Lemma int_raises x e : int x = Raise e -> conversion_error e.
Proof. destruct x; intros [= <-]; [by right|by left]. Qed.

Lemma int_max_10_raises v e : int_max_10 v = Raise e -> conversion_error e.
Proof. unfold int_max_10. destruct (flt v (of_Z 10)); [done|apply int_raises]. Qed.

Lemma corner_raises rx ry ic e : corner rx ry ic = Raise e -> conversion_error e.
Proof.
  destruct ic as [idx c]. unfold corner.
  destruct (negb (idx mod 2 =? 0)); [apply int_max_10_raises|apply int_raises].
Qed.

Lemma mapM_raises {A B} (f : A -> result B) (l : list A) e :
  mapM f l = Raise e -> exists a, a ∈ l /\ f a = Raise e.
Proof.
  induction l as [|a l IH]; [done|]. cbn [mapM].
  destruct (f a) as [b|e'] eqn:Ha.
  - rewrite result_bind_ok. destruct (mapM f l) as [ys|e'']; [done|].
    intros [= ->]. destruct IH as (a' & Hin & Ha'); [done|].
    exists a'. split; [by right|done].
  - intros [= ->]. exists a. split; [by left|done].
Qed.

Lemma mapM_length {A B} (f : A -> result B) (l : list A) (ys : list B) :
  mapM f l = Ok ys -> length ys = length l.
Proof.
  revert ys. induction l as [|a l IH]; intros ys; [by intros [= <-]|]. cbn [mapM].
  destruct (f a) as [b|e']; [|done]. rewrite result_bind_ok.
  destruct (mapM f l) as [ys'|e'']; [|done]. rewrite result_bind_ok.
  intros [= <-]. cbn. by rewrite (IH ys').
Qed.

Lemma scaled_corners_raises rx ry r e :
  scaled_corners rx ry r = Raise e -> conversion_error e.
Proof.
  unfold scaled_corners. destruct (corners rx ry r) as [cs|e'] eqn:Hcs.
  - rewrite result_bind_ok. unfold unpack4.
    destruct cs as [|a [|b [|c [|d [|]]]]]; try done; intros [= <-]; by left.
  - intros [= ->]. apply mapM_raises in Hcs as (ic & _ & Hic). by apply corner_raises in Hic.
Qed.

Lemma scaled_corners_length rx ry r c :
  scaled_corners rx ry r = Ok c -> r <> [] -> length r = 5%nat.
Proof.
  unfold scaled_corners. destruct (corners rx ry r) as [cs|e'] eqn:Hcs; [|done].
  rewrite result_bind_ok. intros Hc Hne.
  apply mapM_length in Hcs. unfold enumerate, but_last in Hcs.
  rewrite length_imap, removelast_firstn_len, length_firstn in Hcs.
  destruct cs as [|a [|b [|d [|d' [|]]]]]; try done. cbn in Hcs.
  destruct r; [done|]. cbn in *. lia.
Qed.

Lemma loop_body_raises rx ry T cl img r e :
  loop_body rx ry T cl img r = Raise e ->
  (e = IndexError /\ r = []) \/ (conversion_error e /\ retained T r = true).
Proof.
  unfold loop_body, last_item, retained.
  destruct (last r) as [conf|] eqn:Hlast.
  - rewrite result_bind_ok. destruct (flt T conf); [|done].
    destruct (scaled_corners rx ry r) as [[[[x_min y_min] x_max] y_max]|e'] eqn:Hc.
    + rewrite result_bind_ok. by destruct cl.
    + intros [= ->]. right. split; [|done]. by apply scaled_corners_raises in Hc.
  - intros [= <-]. left. split; [done|]. by apply last_None.
Qed.

Lemma for_each_raises rx ry T cl bs img e :
  for_each (loop_body rx ry T cl) bs img = Raise e ->
  (e = IndexError /\ [] ∈ bs) \/
  (conversion_error e /\ exists r, r ∈ bs /\ retained T r = true).
Proof.
  revert img. induction bs as [|r bs IH]; intros img; [done|]. cbn [for_each].
  destruct (loop_body rx ry T cl img r) as [mid|e'] eqn:Hbody.
  - rewrite result_bind_ok. intros H.
    destruct (IH _ H) as [[-> Hin]|[He (r' & Hin & Hr')]].
    + left. split; [done|by right].
    + right. split; [done|]. exists r'. split; [by right|done].
  - intros [= ->]. apply loop_body_raises in Hbody as [[-> ->]|[He Hr]].
    + left. split; [done|by left].
    + right. split; [done|]. exists r. split; [by left|done].
Qed.

(** X3.  The exceptions of [convert_result_to_image], OpenCV's calls taken to
    succeed: [ZeroDivisionError] exactly when the resized image has no width
    or no height; [IndexError] only for a batch with an empty row; and
    otherwise only the exceptions of [int], on a row whose confidence exceeds
    the threshold. *)
Theorem convert_result_to_image_exceptions bgr_image resized_image bs T cl :
  (convert_result_to_image bgr_image resized_image bs T cl = Raise ZeroDivisionError <->
   (shape resized_image).1.2 = 0 \/ (shape resized_image).1.1 = 0) /\
  (convert_result_to_image bgr_image resized_image bs T cl = Raise IndexError ->
   [] ∈ bs) /\
  (forall e, convert_result_to_image bgr_image resized_image bs T cl = Raise e ->
     e = ZeroDivisionError \/ e = IndexError \/
     ((e = ValueError \/ e = OverflowError) /\
      exists r, r ∈ bs /\ retained T r = true)).
Proof.
  unfold convert_result_to_image, truediv.
  destruct (shape bgr_image) as [[real_y real_x] c].
  destruct (shape resized_image) as [[resized_y resized_x] c']. cbn [fst snd].
  destruct (Z.eqb_spec resized_x 0) as [Hx|Hx].
  { split; [split; [by left|done]|]. split; [done|]. intros e [= <-]. by left. }
  rewrite result_bind_ok.
  destruct (Z.eqb_spec resized_y 0) as [Hy|Hy].
  { split; [split; [by right|done]|]. split; [done|]. intros e [= <-]. by left. }
  rewrite result_bind_ok.
  split; [split|split].
  - intros H. apply for_each_raises in H as [[? _]|[[?|?] _]]; done.
  - intros [?|?]; done.
  - intros H. apply for_each_raises in H as [[_ ?]|[[?|?] _]]; done.
  - intros e H. apply for_each_raises in H as [[-> _]|[He Hr]]; [by right; left|].
    right. right. done.
Qed.

Lemma convert_result_to_image_exceptions_witness :
  convert_result_to_image (black 8 8) (black 4 0)
    [[of_Z 1; of_Z 2; of_Z 3; of_Z 4; lit 9 1]] default_threshold true =
  Raise ZeroDivisionError.
Proof.
  apply (convert_result_to_image_exceptions (black 8 8) (black 4 0)). by left.
Defined.

(** X4.  A call that returns has drawn a well-formed batch: the resized image
    has a width and a height, no row is empty, and every row whose confidence
    exceeds the threshold has exactly five entries. *)
Theorem convert_result_to_image_success_requires bgr_image resized_image bs T cl out :
  convert_result_to_image bgr_image resized_image bs T cl = Ok out ->
  (shape resized_image).1.2 <> 0 /\ (shape resized_image).1.1 <> 0 /\
  Forall (fun r => r <> [] /\ (retained T r = true -> length r = 5%nat)) bs.
Proof.
  unfold convert_result_to_image, truediv.
  destruct (shape bgr_image) as [[real_y real_x] c].
  destruct (shape resized_image) as [[resized_y resized_x] c']. cbn [fst snd].
  destruct (Z.eqb_spec resized_x 0) as [Hx|Hx]; [done|]. rewrite result_bind_ok.
  destruct (Z.eqb_spec resized_y 0) as [Hy|Hy]; [done|]. rewrite result_bind_ok.
  intros H. split; [done|]. split; [done|].
  revert H. generalize (cvtColor bgr_image COLOR_BGR2RGB).
  induction bs as [|r bs IH]; intros img; [constructor|]. cbn [for_each].
  destruct (loop_body _ _ T cl img r) as [mid|e'] eqn:Hbody; [|done].
  rewrite result_bind_ok. intros H. constructor; [|by apply (IH mid)].
  apply loop_body_cases in Hbody as [Hne [[Hret _]|[_ (conf & cs & _ & Hc & _)]]].
  - split; [done|congruence].
  - split; [done|]. intros _. by apply scaled_corners_length in Hc.
Qed.

Lemma convert_result_to_image_success_requires_witness :
  4 <> 0 /\ 4 <> 0 /\
  Forall (fun r => r <> [] /\ (retained default_threshold r = true -> length r = 5%nat))
    [[of_Z 1; of_Z 2; of_Z 3; of_Z 4; lit 9 1]; [lit 1 1]].
Proof.
  apply (convert_result_to_image_success_requires (black 8 8) (black 4 4) _ _ true
           (Image (8, 8, 3) (replicate 192 0)
              [CvtColor COLOR_BGR2RGB; Rectangle (2, 10) (6, 10) green 3 LINE_8;
               PutText "0.90" (2, 0) FONT_HERSHEY_SIMPLEX (lit 8 1) red 1 LINE_AA])).
  by vm_compute.
Defined.

End Exceptions.

(** ** Batches with nothing to draw *)

Section NothingRetained.
Import Cv2 Hello.

Lemma retained_nan r : retained S754_nan r = false.
Proof. unfold retained. by destruct (last r). Qed.

Lemma filter_none {A} (p : A -> bool) (l : list A) :
  Forall (fun a => p a = false) l -> List.filter p l = [].
Proof. induction 1 as [|a l Ha _ IH]; [done|]. cbn. by rewrite Ha. Qed.

(** X5.  With no row above the threshold the call returns the buffer only
    colour-converted, whatever the coordinates of the rows are, NaN or
    infinite ones included: so for an empty batch, and so at a NaN threshold,
    which no confidence exceeds. *)
Theorem nothing_retained_only_converts bgr_image resized_image bs T cl :
  (shape resized_image).1.2 <> 0 -> (shape resized_image).1.1 <> 0 ->
  Forall (fun r => r <> []) bs ->
  T = S754_nan \/ Forall (fun r => retained T r = false) bs ->
  convert_result_to_image bgr_image resized_image bs T cl =
  Ok (cvtColor bgr_image COLOR_BGR2RGB).
Proof.
  intros Hx Hy Hne HT. unfold convert_result_to_image.
  destruct (shape bgr_image) as [[real_y real_x] c].
  destruct (shape resized_image) as [[resized_y resized_x] c']. cbn [fst snd] in *.
  rewrite !truediv_ok, !result_bind_ok by done.
  rewrite for_each_retained by done.
  rewrite filter_none; [done|].
  destruct HT as [->|HT]; [|done].
  apply Forall_forall. intros r _. apply retained_nan.
Qed.

Lemma nothing_retained_only_converts_witness :
  convert_result_to_image (black 8 8) (black 4 4)
    [[S754_nan; S754_infinity false; of_Z 3; of_Z 4; lit 2 1]] default_threshold true =
  Ok (cvtColor (black 8 8) COLOR_BGR2RGB).
Proof.
  apply nothing_retained_only_converts; [done|done|by repeat constructor|].
  right. by repeat constructor.
Defined.

End NothingRetained.

(** ** Binary64 values

    The floats the interpreter works with are the normalised ones: a finite
    float whose mantissa has the number of digits its exponent asks for.  The
    operations keep that form, and on it the comparisons of the float
    specification are the comparisons of the values. *)

Section Binary64.

Definition valid (x : float) : bool := valid_binary prec emax x.

Lemma valid_finite s m e :
  valid (S754_finite s m e) = true <->
  fexp64 (Zdigits2 (Z.pos m) + e) = e /\ e <= 971.
Proof.
  unfold valid, valid_binary, SpecFloat.bounded, canonical_mantissa.
  rewrite andb_true_iff, Z.eqb_eq, Z.leb_le. cbn [Zdigits2]. unfold fexp64, emax, prec.
  lia.
Qed.

Lemma pack_valid s m e :
  0 <= m -> (0 < m -> fexp64 (Zdigits2 m + e) = e) -> valid (pack s m e) = true.
Proof.
  intros Hm Hc. unfold pack. destruct m as [|p|p]; [done| |lia].
  unfold emax, prec. destruct (Z.leb_spec e (1024 - 53)); [|done].
  apply valid_finite. split; [apply Hc|]; lia.
Qed.

(** The two shifts of [binary_round_aux], with the rounding between them. *)
Lemma binary_round_aux_steps s m e l :
  0 <= m ->
  exists m2,
    (m2 = m / 2 ^ shift_of m e \/ m2 = m / 2 ^ shift_of m e + 1) /\
    binary_round_aux prec emax s m e l =
    pack s (m2 / 2 ^ shift_of m2 (e + shift_of m e))
           (e + shift_of m e + shift_of m2 (e + shift_of m e)).
Proof.
  intros Hm. unfold binary_round_aux.
  pose proof (shr_fexp_spec m e l Hm) as [Hm1 He1].
  assert (Hk0 : 0 <= shift_of m e) by (unfold shift_of; lia).
  assert (Hm1pos : 0 <= m / 2 ^ shift_of m e) by (apply Z.div_pos; lia).
  destruct (shr_fexp prec emax m e l) as [mrs' e']. cbn [fst snd] in *. subst e'.
  rewrite Hm1.
  set (m2 := round_nearest_even _ _).
  assert (Hm2 : m2 = m / 2 ^ shift_of m e \/ m2 = m / 2 ^ shift_of m e + 1)
    by apply round_nearest_even_range.
  pose proof (shr_fexp_spec m2 (e + shift_of m e) loc_Exact ltac:(lia)) as [Hm3 He3].
  destruct (shr_fexp prec emax m2 _ loc_Exact) as [mrs'' e'']. cbn [fst snd] in *.
  exists m2. split; [done|]. rewrite <- Hm3, <- He3. unfold pack.
  by destruct (shr_m mrs'').
Qed.

Lemma Zdigits2_le m n : 0 <= m <= n -> Zdigits2 m <= Zdigits2 n.
Proof.
  intros [Hm Hmn]. destruct (Z.eq_dec m 0) as [->|Hne]; [apply Zdigits2_nonneg|].
  pose proof (Zdigits2_bounds m ltac:(lia)) as [Hlo _].
  pose proof (Zdigits2_bounds n ltac:(lia)) as [_ Hhi].
  destruct (Z_le_gt_dec (Zdigits2 m) (Zdigits2 n)) as [|Hgt]; [done|].
  assert (2 ^ Zdigits2 n <= 2 ^ (Zdigits2 m - 1)).
  { apply Z.pow_le_mono_r; [lia|]. lia. }
  lia.
Qed.

Lemma Zdigits2_div_pos m k :
  0 < m -> 0 <= k -> 0 < m / 2 ^ k -> Zdigits2 (m / 2 ^ k) = Zdigits2 m - k.
Proof.
  intros Hm Hk Hq. apply Zdigits2_div; [done|]. split; [done|].
  destruct (Z_lt_le_dec k (Zdigits2 m)) as [|Hge]; [done|].
  rewrite Zdigits2_div_small in Hq by done. lia.
Qed.

(** Rounding a mantissa that has at least the digits of its format gives a
    binary64 value. *)
Lemma binary_round_aux_valid s m e l :
  0 <= m ->
  (0 < m -> e <= fexp64 (Zdigits2 m + e)) ->
  (m = 0 -> e <= -1074) ->
  valid (binary_round_aux prec emax s m e l) = true.
Proof.
  intros Hm Hfit Hzero.
  destruct (binary_round_aux_steps s m e l Hm) as (m2 & Hm2 & ->).
  set (k := shift_of m e) in *. set (m1 := m / 2 ^ k) in *. set (e1 := e + k) in *.
  assert (Hk : 0 <= k) by (unfold k, shift_of; lia).
  assert (Hm1 : 0 <= m1) by (apply Z.div_pos; lia).
  assert (He1 : (0 < m1 -> fexp64 (Zdigits2 m1 + e1) = e1) /\ (m1 = 0 -> e1 = -1074)).
  { destruct (Z.eq_dec m 0) as [->|Hne].
    - subst m1 e1 k. unfold shift_of. cbn [Zdigits2]. rewrite Zdiv_0_l, !fexp64_eq.
      specialize (Hzero eq_refl). lia.
    - specialize (Hfit ltac:(lia)).
      assert (Hke : e1 = fexp64 (Zdigits2 m + e)) by (unfold e1, k, shift_of; lia).
      split.
      + intros Hpos. unfold m1. rewrite Zdigits2_div_pos by (fold m1; lia).
        replace (Zdigits2 m - k + e1) with (Zdigits2 m + e) by lia. done.
      + intros Hz. destruct (Z_lt_le_dec k (Zdigits2 m)) as [Hlt|Hge].
        * pose proof (Zdigits2_div m k ltac:(lia) ltac:(lia)) as Hd. fold m1 in Hd.
          rewrite Hz in Hd. cbn [Zdigits2] in Hd. lia.
        * rewrite fexp64_eq in Hke. lia. }
  destruct He1 as [Hpos1 Hzero1].
  set (k2 := shift_of m2 e1).
  assert (Hk2 : 0 <= k2) by (unfold k2, shift_of; lia).
  assert (Hm2pos : 0 <= m2) by lia.
  apply pack_valid; [apply Z.div_pos; lia|]. intros Hm3.
  assert (Hm2' : 0 < m2).
  { destruct (Z.eq_dec m2 0) as [Hz|]; [|lia]. rewrite Hz, Zdiv_0_l in Hm3. lia. }
  assert (Hge : e1 <= fexp64 (Zdigits2 m2 + e1)).
  { destruct (Z.eq_dec m1 0) as [Hz|Hnz].
    - rewrite (Hzero1 Hz), fexp64_eq. lia.
    - rewrite <- (Hpos1 ltac:(lia)) at 1. rewrite !fexp64_eq.
      pose proof (Zdigits2_le m1 m2 ltac:(lia)). lia. }
  assert (Hk2' : k2 = fexp64 (Zdigits2 m2 + e1) - e1) by (unfold k2, shift_of; lia).
  rewrite Zdigits2_div_pos by lia.
  replace (Zdigits2 m2 - k2 + (e1 + k2)) with (Zdigits2 m2 + e1) by lia. lia.
Qed.

(** [float(n)] is a binary64 value. *)
Lemma of_Z_valid n : valid (of_Z n) = true.
Proof.
  unfold of_Z, binary_normalize, binary_round. destruct n as [|p|p]; [done| |].
  all: pose proof (shl_align_spec p 0 (fexp prec emax (Z.pos (digits2_pos p) + 0)))
         as [Hez Hmz];
       destruct (shl_align p 0 _) as [mz ez]; cbn [fst snd] in *;
       change (Z.pos (digits2_pos p)) with (Zdigits2 (Z.pos p)) in *;
       change (fexp prec emax) with fexp64 in *;
       apply binary_round_aux_valid; [lia| |lia]; intros _;
       rewrite Hmz, Zdigits2_mul_pow2 by lia; rewrite !fexp64_eq in *; lia.
Qed.

Lemma Zdigits2_mul_ge a b :
  0 < a -> 0 < b -> Zdigits2 a + Zdigits2 b - 1 <= Zdigits2 (a * b).
Proof.
  intros Ha Hb.
  pose proof (Zdigits2_bounds a Ha) as [Hla _]. pose proof (Zdigits2_bounds b Hb) as [Hlb _].
  pose proof (Zdigits2_bounds (a * b) ltac:(lia)) as [_ Hh].
  pose proof (Zdigits2_pos a Ha). pose proof (Zdigits2_pos b Hb).
  assert (Hprod : 2 ^ (Zdigits2 a - 1 + (Zdigits2 b - 1)) <= a * b).
  { rewrite Z.pow_add_r by lia. apply Z.mul_le_mono_nonneg; lia. }
  destruct (Z_le_gt_dec (Zdigits2 a + Zdigits2 b - 1) (Zdigits2 (a * b))) as [|Hgt]; [done|].
  assert (2 ^ Zdigits2 (a * b) <= 2 ^ (Zdigits2 a - 1 + (Zdigits2 b - 1))).
  { apply Z.pow_le_mono_r; lia. }
  lia.
Qed.

(** The product of two binary64 values is one. *)
Lemma fmul_valid x y : valid x = true -> valid y = true -> valid (fmul x y) = true.
Proof.
  destruct x as [sx|sx| |sx mx ex], y as [sy|sy| |sy my ey]; try done.
  intros Hx Hy. apply valid_finite in Hx as [Hx _], Hy as [Hy _].
  unfold fmul, SFmul. apply binary_round_aux_valid; [lia| |lia]. intros _.
  pose proof (Zdigits2_mul_ge (Z.pos mx) (Z.pos my) ltac:(lia) ltac:(lia)) as Hd.
  pose proof (Zdigits2_pos (Z.pos mx) ltac:(lia)).
  pose proof (Zdigits2_pos (Z.pos my) ltac:(lia)).
  change (Z.pos (mx * my)) with (Z.pos mx * Z.pos my).
  rewrite !fexp64_eq in *. lia.
Qed.

(** The quotient of two binary64 values is one. *)
Lemma fdiv_valid x y : valid x = true -> valid y = true -> valid (fdiv x y) = true.
Proof.
  destruct x as [sx|sx| |sx mx ex], y as [sy|sy| |sy my ey]; try done.
  intros Hx Hy. apply valid_finite in Hx as [Hx _], Hy as [Hy _].
  unfold fdiv, SFdiv.
  rewrite (SFdiv_core_binary_spec (Z.pos mx) ex (Z.pos my) ey) by lia.
  set (d1 := Zdigits2 (Z.pos mx)) in *. set (d2 := Zdigits2 (Z.pos my)) in *.
  set (e' := Z.min (fexp64 (d1 + ex - (d2 + ey))) (ex - ey)).
  set (s := ex - ey - e').
  set (q := Z.pos mx * 2 ^ s / Z.pos my).
  assert (Hd1 : 0 < d1) by (apply Zdigits2_pos; lia).
  assert (Hd2 : 0 < d2) by (apply Zdigits2_pos; lia).
  assert (Hs : 0 <= s) by (unfold s, e'; lia).
  assert (H2s : 0 < 2 ^ s) by (apply Z.pow_pos_nonneg; lia).
  pose proof (Zdigits2_bounds (Z.pos mx) ltac:(lia)) as [Hl1 Hh1]. fold d1 in Hl1, Hh1.
  pose proof (Zdigits2_bounds (Z.pos my) ltac:(lia)) as [Hl2 Hh2]. fold d2 in Hl2, Hh2.
  assert (Hq0 : 0 <= q) by (apply Z.div_pos; lia).
  (* a lower bound on the quotient *)
  assert (Hqlow : forall j, 0 <= j -> j + d2 <= d1 - 1 + s -> 2 ^ j <= q).
  { intros j Hj Hjs. unfold q. apply Z.div_le_lower_bound; [lia|].
    assert (Hpow : 2 ^ (j + d2) <= 2 ^ (d1 - 1 + s)) by (apply Z.pow_le_mono_r; lia).
    rewrite !Z.pow_add_r in Hpow by lia.
    assert (Hj0 : 0 < 2 ^ j) by (apply Z.pow_pos_nonneg; lia).
    assert (H1 : Z.pos my * 2 ^ j <= 2 ^ j * 2 ^ d2) by nia.
    assert (H2 : 2 ^ (d1 - 1) * 2 ^ s <= Z.pos mx * 2 ^ s) by nia.
    lia. }
  apply binary_round_aux_valid; [done| |].
  - intros Hq.
    assert (Hdq : d1 + s - d2 <= Zdigits2 q).
    { pose proof (Zdigits2_pos q Hq).
      destruct (Z_le_gt_dec (d1 + s - d2) 1) as [|Hgt]; [lia|].
      pose proof (Hqlow (d1 + s - d2 - 1) ltac:(lia) ltac:(lia)) as Hlow.
      pose proof (Zdigits2_bounds q Hq) as [_ Hqh].
      destruct (Z_le_gt_dec (d1 + s - d2) (Zdigits2 q)) as [|Hgt']; [done|].
      assert (2 ^ Zdigits2 q <= 2 ^ (d1 + s - d2 - 1)) by (apply Z.pow_le_mono_r; lia).
      lia. }
    unfold s in Hdq. subst e'. rewrite !fexp64_eq in *. lia.
  - intros Hq. destruct (Z_le_gt_dec e' (-1074)) as [|Hgt]; [done|].
    assert (Hs' : s = 53 - d1 + d2) by (unfold s, e' in *; rewrite !fexp64_eq in *; lia).
    pose proof (Hqlow 0 ltac:(lia) ltac:(rewrite !fexp64_eq in *; lia)) as Hlow.
    change (2 ^ 0) with 1 in Hlow. lia.
Qed.

End Binary64.

(** ** Comparisons of binary64 values *)

Section Ordering.

Lemma valid_represents m e :
  valid (S754_finite false m e) = true ->
  represents (S754_finite false m e) (IZR (Z.pos m) * pow2 e).
Proof. intros [Hc _]%valid_finite. exists m, e. repeat split. lia. Qed.

(** On positive binary64 values, [<] of the float specification is [<] of
    the values. *)
Lemma flt_valid x y vx vy :
  represents x vx -> valid x = true -> represents y vy -> valid y = true ->
  (flt x y = true <-> (vx < vy)%R).
Proof.
  intros (m1 & e1 & -> & _ & ->) [Hc1 _]%valid_finite
         (m2 & e2 & -> & _ & ->) [Hc2 _]%valid_finite.
  rewrite fexp64_eq in Hc1, Hc2.
  pose proof (Zdigits2_bounds (Z.pos m1) ltac:(lia)) as [Hl1 Hh1].
  pose proof (Zdigits2_bounds (Z.pos m2) ltac:(lia)) as [Hl2 Hh2].
  pose proof (Zdigits2_pos (Z.pos m1) ltac:(lia)) as Hd1.
  pose proof (Zdigits2_pos (Z.pos m2) ltac:(lia)) as Hd2.
  assert (Hshift : forall ma ea mb eb,
    0 < ma -> 0 < mb -> ea < eb -> Zdigits2 ma <= 53 -> Zdigits2 mb = 53 ->
    (IZR ma * pow2 ea < IZR mb * pow2 eb)%R).
  { intros ma ea mb eb Ha Hb He Hda Hdb.
    replace eb with ((eb - ea) + ea) by lia. rewrite pow2_add, <- (pow2_IZR (eb - ea)) by lia.
    rewrite <- Rmult_assoc, <- mult_IZR. apply Rmult_lt_compat_r; [apply pow2_pos|].
    apply IZR_lt.
    pose proof (Zdigits2_bounds ma Ha) as [_ Hha].
    pose proof (Zdigits2_bounds mb Hb) as [Hlb _]. rewrite Hdb in Hlb.
    assert (2 ^ Zdigits2 ma <= 2 ^ 53) by (apply Z.pow_le_mono_r; lia).
    assert (2 ^ 1 <= 2 ^ (eb - ea)) by (apply Z.pow_le_mono_r; lia).
    change (2 ^ 1) with 2 in *. change (2 ^ (53 - 1)) with 4503599627370496 in *.
    change (2 ^ 53) with 9007199254740992 in *. nia. }
  unfold flt, SFltb, SFcompare.
  destruct (Z.compare_spec e1 e2) as [->|Hlt|Hgt].
  - change (PosDef.Pos.compare_cont Eq m1 m2) with (Pos.compare m1 m2).
    pose proof (pow2_pos e2) as Hp.
    destruct (Pos.compare_spec m1 m2) as [->|Hm|Hm].
    + split; [done|lra].
    + split; [intros _|done]. apply Rmult_lt_compat_r; [done|]. apply IZR_lt. lia.
    + split; [done|]. intros Hlt.
      apply Rmult_lt_reg_r in Hlt; [|done]. apply lt_IZR in Hlt. lia.
  - split; [intros _|done]. apply Hshift; lia.
  - split; [done|]. intros Hlt.
    pose proof (Hshift (Z.pos m2) e2 (Z.pos m1) e1 ltac:(lia) ltac:(lia) ltac:(lia)
                  ltac:(lia) ltac:(lia)). lra.
Qed.

Lemma ten_represents : represents (of_Z 10) 10.
Proof. apply (of_Z_represents 10). lia. Qed.

(** [int(max(v, 10))] is at least 10. *)
Lemma int_max_10_ge v k :
  valid v = true -> Hello.int_max_10 v = Ok k -> 10 <= k.
Proof.
  intros Hv. unfold Hello.int_max_10.
  destruct (flt v (of_Z 10)) eqn:Hlt; [intros [= <-]; lia|].
  rewrite ten_value in Hlt.
  destruct v as [s|s| |s m e]; [discriminate Hlt|intros [=]|intros [=]|].
  - destruct s; [discriminate Hlt|]. rewrite <- ten_value in Hlt.
    pose proof (valid_represents m e Hv) as Hr.
    destruct (int_represents _ _ Hr) as (y & -> & Hy). intros [= <-].
    pose proof (flt_valid _ _ _ _ Hr Hv ten_represents (of_Z_valid 10)) as Hiff.
    assert (Hge : ~ (IZR (Z.pos m) * pow2 e < 10)%R).
    { intros H. apply Hiff in H. congruence. }
    assert (Hy' : (10 < IZR y + 1)%R) by lra.
    rewrite <- plus_IZR in Hy'. apply lt_IZR in Hy'. lia.
Qed.

End Ordering.

(** ** The top margin of [convert_result_to_image] *)

Section TopMargin.
Import Cv2 Hello.

(** A call that stays below the top margin: a rectangle whose two corners
    have [y >= 10], a text whose origin has [y >= 0]. *)
Definition below_top_margin (c : call) : Prop :=
  match c with
  | Rectangle (_, y1) (_, y2) _ _ _ => 10 <= y1 /\ 10 <= y2
  | PutText _ (_, y) _ _ _ _ _ => 0 <= y
  | CvtColor _ => False
  end.

Lemma truediv_valid a b ratio : truediv a b = Ok ratio -> valid ratio = true.
Proof.
  unfold truediv. destruct (b =? 0); [done|]. intros [= <-].
  apply fdiv_valid; apply of_Z_valid.
Qed.

Lemma scaled_corners_clamped rx ry r x_min y_min x_max y_max :
  valid ry = true -> Forall (fun c => valid c = true) r -> r <> [] ->
  scaled_corners rx ry r = Ok (x_min, y_min, x_max, y_max) ->
  10 <= y_min /\ 10 <= y_max.
Proof.
  intros Hry Hr Hne Hc. pose proof (scaled_corners_length _ _ _ _ Hc Hne) as Hlen.
  destruct r as [|a [|b [|c [|d [|conf [|]]]]]]; try done.
  rewrite scaled_corners_row in Hc.
  apply Forall_cons in Hr as [_ Hr]. apply Forall_cons in Hr as [Hb Hr].
  apply Forall_cons in Hr as [_ Hr]. apply Forall_cons in Hr as [Hd _].
  destruct (int (fmul a rx)) as [x0|]; [|done]. rewrite result_bind_ok in Hc.
  destruct (int_max_10 (fmul b ry)) as [y0|] eqn:Hy0; [|done]. rewrite result_bind_ok in Hc.
  destruct (int (fmul c rx)) as [x1|]; [|done]. rewrite result_bind_ok in Hc.
  destruct (int_max_10 (fmul d ry)) as [y1|] eqn:Hy1; [|done]. rewrite result_bind_ok in Hc.
  injection Hc as <- <- <- <-.
  split; (eapply int_max_10_ge; [|eassumption]); by apply fmul_valid.
Qed.

(** X6.  Whatever the batch of binary64 rows and the two image sizes, every
    rectangle [convert_result_to_image] draws has both its corners at
    [y >= 10], the bottom one included, and every confidence text has its
    origin at [y >= 0]: nothing is anchored above the image. *)
Theorem drawn_rows_stay_below_top_margin bgr_image resized_image bs T cl out :
  Forall (Forall (fun c => valid c = true)) bs ->
  convert_result_to_image bgr_image resized_image bs T cl = Ok out ->
  exists calls,
    drawn out = drawn bgr_image ++ CvtColor COLOR_BGR2RGB :: calls /\
    Forall below_top_margin calls.
Proof.
  intros Hbs H.
  apply convert_result_to_image_calls in H as (rx & ry & ds & _ & Hry & -> & Hds).
  apply truediv_valid in Hry.
  exists (rows_calls cl ds). split; [done|].
  assert (Hrows : Forall (Forall (fun c => valid c = true)) (List.filter (retained T) bs)).
  { apply Forall_forall. intros r Hr%list_elem_of_In%filter_In.
    rewrite Forall_forall in Hbs. apply Hbs, list_elem_of_In, Hr. }
  clear Hbs. induction Hds as [|r [conf [[[x_min y_min] x_max] y_max]] rs ds [Hlast Hc] _ IH];
    [constructor|].
  apply Forall_cons in Hrows as [Hr Hrows]. cbn [fst snd] in *.
  assert (Hne : r <> []) by (by intros ->).
  destruct (scaled_corners_clamped _ _ _ _ _ _ _ Hry Hr Hne Hc) as [H1 H2].
  unfold rows_calls. cbn [flat_map row_calls fst snd]. constructor; [done|].
  destruct cl; [constructor; [cbn; lia|]|]; by apply IH.
Qed.

Lemma drawn_rows_stay_below_top_margin_witness :
  exists out calls,
    convert_result_to_image (black 8 8) (black 4 4)
      [[of_Z 1; of_Z 2; of_Z 3; of_Z 4; lit 9 1]] default_threshold true = Ok out /\
    drawn out = CvtColor COLOR_BGR2RGB :: calls /\ Forall below_top_margin calls.
Proof.
  eexists.
  destruct (drawn_rows_stay_below_top_margin (black 8 8) (black 4 4)
    [[of_Z 1; of_Z 2; of_Z 3; of_Z 4; lit 9 1]] default_threshold true _
    ltac:(by repeat constructor) ltac:(by vm_compute)) as (calls & Hdrawn & Hcalls).
  exists calls. split; [by vm_compute|]. split; [exact Hdrawn|exact Hcalls].
Defined.

End TopMargin.

(** ** Scaling between images of the same size *)

Section SameSize.
Import Cv2 Hello.

Lemma ratio_one n : 0 < n < 2 ^ 53 -> fdiv (of_Z n) (of_Z n) = one.
Proof.
  intros Hn. destruct (of_Z_represents n Hn) as (m & e & -> & _). apply fdiv_self.
Qed.

Lemma int_fmul_one a : 0 <= a < 2 ^ 53 -> int (fmul (of_Z a) one) = Ok a.
Proof.
  intros Ha. destruct (Z.eq_dec a 0) as [->|Hne]; [done|].
  apply int_of_represents_Z, fmul_one_represents.
  - apply of_Z_represents. lia.
  - apply one_represents.
  - pose proof (pow2_le 53 900 ltac:(lia)) as Hp. rewrite <- (pow2_IZR 53) in Hp by lia.
    assert (IZR a < IZR (2 ^ 53))%R by (apply IZR_lt; lia). lra.
Qed.

Lemma int_max_10_fmul_one b :
  0 <= b < 2 ^ 53 -> int_max_10 (fmul (of_Z b) one) = Ok (Z.max b 10).
Proof.
  intros Hb. destruct (Z_lt_le_dec b 10) as [Hlt|Hge].
  - replace (Z.max b 10) with 10 by lia.
    assert (Hcases : b = 0 \/ b = 1 \/ b = 2 \/ b = 3 \/ b = 4 \/ b = 5 \/ b = 6 \/
                     b = 7 \/ b = 8 \/ b = 9) by lia.
    destruct Hcases as [->|[->|[->|[->|[->|[->|[->|[->|[->| ->]]]]]]]]]; by vm_compute.
  - replace (Z.max b 10) with b by lia. unfold int_max_10.
    assert (Hr : represents (fmul (of_Z b) one) (IZR b)).
    { apply fmul_one_represents; [apply of_Z_represents; lia|apply one_represents|].
      pose proof (pow2_le 53 900 ltac:(lia)) as Hp. rewrite <- (pow2_IZR 53) in Hp by lia.
      assert (IZR b < IZR (2 ^ 53))%R by (apply IZR_lt; lia). lra. }
    destruct (flt _ (of_Z 10)) eqn:Hcmp.
    + pose proof (flt_ten_sound _ _ Hr Hcmp) as H. apply lt_IZR in H. lia.
    + by apply int_of_represents_Z.
Qed.

(** X7.  Between two images of the same size the scaling is exact: a row with
    integer coordinates keeps its x-coordinates and has its two y-coordinates
    raised to 10 when they are smaller. *)
Theorem same_size_scaling_is_exact size_y size_x x_min y_min x_max y_max conf :
  0 < size_y < 2 ^ 53 -> 0 < size_x < 2 ^ 53 ->
  0 <= x_min < 2 ^ 53 -> 0 <= y_min < 2 ^ 53 ->
  0 <= x_max < 2 ^ 53 -> 0 <= y_max < 2 ^ 53 ->
  rescale size_y size_x size_y size_x
    [of_Z x_min; of_Z y_min; of_Z x_max; of_Z y_max; conf] =
  Ok (x_min, Z.max y_min 10, x_max, Z.max y_max 10).
Proof.
  intros Hy Hx H1 H2 H3 H4. unfold rescale.
  rewrite !truediv_ok by lia. rewrite !result_bind_ok, !ratio_one by done.
  rewrite scaled_corners_row.
  by rewrite !int_fmul_one, !int_max_10_fmul_one by done.
Qed.

Lemma same_size_scaling_is_exact_witness :
  rescale 480 640 480 640 [of_Z 100; of_Z 2; of_Z 200; of_Z 300; lit 9 1] =
  Ok (100, 10, 200, 300).
Proof. apply (same_size_scaling_is_exact 480 640 100 2 200 300); lia. Defined.

End SameSize.

(** ** Scaling up keeps a box inside the image *)

Section ScalingUp.
Import Cv2 Hello.

(** [int(max(v, 10))] is [max(int(v), 10)] on every finite binary64
    value. *)
Lemma int_max_10_max v y :
  valid v = true -> int v = Ok y -> int_max_10 v = Ok (Z.max y 10).
Proof.
  intros Hv Hy. unfold int_max_10. destruct (flt v (of_Z 10)) eqn:Hlt.
  - f_equal. rewrite ten_value in Hlt.
    destruct v as [s|s| |s m e]; [injection Hy as <-; lia|done|done|].
    destruct s.
    + cbn [int cond_Zopp] in Hy. injection Hy as <-.
      pose proof (Z.shiftl_nonneg (Z.pos m) e). lia.
    + rewrite <- ten_value in Hlt. pose proof (valid_represents m e Hv) as Hr.
      pose proof (flt_ten_sound _ _ Hr Hlt) as H10.
      destruct (int_represents _ _ Hr) as (y' & Hy' & Hb).
      rewrite Hy in Hy'. injection Hy' as <-.
      assert (H : (IZR y < IZR 10)%R) by lra. apply lt_IZR in H. lia.
  - rewrite Hy. f_equal.
    assert (Hge : int_max_10 v = Ok y) by (unfold int_max_10; by rewrite Hlt).
    pose proof (int_max_10_ge v y Hv Hge). lia.
Qed.

(** One coordinate scaled up: the truncated product, between the exact
    quotient less one and the exact quotient. *)
Lemma scale_up_value resized real x :
  1 <= resized -> resized <= real -> real < 65536 -> 0 <= x < 65536 ->
  exists y,
    int (fmul (of_Z x) (fdiv (of_Z real) (of_Z resized))) = Ok y /\
    x <= y /\ x * real - resized <= y * resized <= x * real.
Proof.
  intros Hn Hle HR Hx.
  destruct (Z.eq_dec resized real) as [->|Hne].
  { rewrite ratio_one, int_fmul_one by lia. exists x. split; [done|]. nia. }
  destruct (Z.eq_dec x 0) as [->|Hx0].
  { destruct (ratio_represents real resized) as (vr & (m & e & -> & _) & _); [lia..|].
    exists 0. split; [done|lia]. }
  assert (HxR : (1 <= IZR x <= 65535)%R) by (split; apply IZR_le; lia).
  pose proof (of_Z_represents x ltac:(lia)) as Hxf.
  destruct (ratio_represents real resized) as (vr & Hr & Hvr & Hq); [lia..|].
  assert (Heps : (0 < eps < / 1000)%R) by (rewrite eps_value; lra).
  assert (Hq1 : (1 <= IZR real / IZR resized)%R).
  { assert (1 <= IZR resized)%R by (apply IZR_le; lia).
    assert (IZR resized <= IZR real)%R by (apply IZR_le; lia).
    apply Rmult_le_reg_r with (r := IZR resized); [lra|].
    replace (IZR real / IZR resized * IZR resized)%R with (IZR real) by (field; lra). lra. }
  set (q := (IZR real / IZR resized)%R) in *.
  assert (Hvrb : (/ 2 <= vr <= 131072)%R) by nra.
  destruct (fmul_represents (of_Z x) _ (IZR x) vr Hxf Hr) as (vp & Hp & Hvp).
  { apply normal_range. nra. }
  destruct (int_represents _ _ Hp) as (y & Hy & Hyv).
  destruct (scale_up_bracket x real resized y vr vp) as (Hxy & Hbr); [lia..|done|done|done|].
  by exists y.
Qed.

Lemma scaled_valid x real resized :
  valid (fmul (of_Z x) (fdiv (of_Z real) (of_Z resized))) = true.
Proof. apply fmul_valid; [|apply fdiv_valid]; apply of_Z_valid. Qed.

(** X8.  A box with integer coordinates inside the resized image, scaled up to
    a real image at least as large: the rectangle drawn is inside the real
    image (but for the y-coordinates raised to 10) and keeps its orientation,
    the first corner above and to the left of the second. *)
Theorem upscaled_box_stays_inside resized_y resized_x real_y real_x
    x_min y_min x_max y_max conf :
  1 <= resized_x -> resized_x <= real_x -> real_x < 65536 ->
  1 <= resized_y -> resized_y <= real_y -> real_y < 65536 ->
  0 <= x_min -> x_min <= x_max -> x_max <= resized_x ->
  0 <= y_min -> y_min <= y_max -> y_max <= resized_y ->
  exists x0 y0 x1 y1,
    rescale resized_y resized_x real_y real_x
      [of_Z x_min; of_Z y_min; of_Z x_max; of_Z y_max; conf] = Ok (x0, y0, x1, y1) /\
    0 <= x0 /\ x0 <= x1 /\ x1 <= real_x /\
    10 <= y0 /\ y0 <= y1 /\ y1 <= Z.max real_y 10.
Proof.
  intros Hrx1 Hrx2 Hrx3 Hry1 Hry2 Hry3 Hx1 Hx2 Hx3 Hy1 Hy2 Hy3.
  destruct (scale_up_value resized_x real_x x_min) as (x0 & Hx0 & Hx0l & Hx0b); [lia..|].
  destruct (scale_up_value resized_x real_x x_max) as (x1 & Hx1' & Hx1l & Hx1b); [lia..|].
  destruct (scale_up_value resized_y real_y y_min) as (y0 & Hy0 & Hy0l & Hy0b); [lia..|].
  destruct (scale_up_value resized_y real_y y_max) as (y1 & Hy1' & Hy1l & Hy1b); [lia..|].
  exists x0, (Z.max y0 10), x1, (Z.max y1 10). unfold rescale.
  rewrite !truediv_ok, !result_bind_ok by lia. rewrite scaled_corners_row.
  rewrite Hx0, Hx1', !result_bind_ok.
  rewrite (int_max_10_max _ y0 (scaled_valid _ _ _) Hy0).
  rewrite (int_max_10_max _ y1 (scaled_valid _ _ _) Hy1'), !result_bind_ok.
  split; [done|].
  assert (Hord : forall resized real a b ya yb,
    1 <= resized -> resized <= real -> a < b ->
    a * real - resized <= ya * resized <= a * real ->
    b * real - resized <= yb * resized <= b * real -> ya <= yb).
  { intros resized real a b ya yb H1 H2 Hab Ha Hb. nia. }
  assert (Hx01 : x0 <= x1).
  { destruct (Z.eq_dec x_min x_max) as [Heq|Hne].
    - rewrite Heq in Hx0. rewrite Hx0 in Hx1'. injection Hx1' as ->. lia.
    - eapply (Hord resized_x real_x x_min x_max); [| | |done|done]; lia. }
  assert (Hy01 : y0 <= y1).
  { destruct (Z.eq_dec y_min y_max) as [Heq|Hne].
    - rewrite Heq in Hy0. rewrite Hy0 in Hy1'. injection Hy1' as ->. lia.
    - eapply (Hord resized_y real_y y_min y_max); [| | |done|done]; lia. }
  assert (Hx1r : x1 <= real_x) by nia.
  assert (Hy1r : y1 <= real_y) by nia.
  lia.
Qed.

Lemma upscaled_box_stays_inside_witness :
  exists x0 y0 x1 y1,
    rescale 255 255 510 510 [of_Z 10; of_Z 10; of_Z 50; of_Z 50; lit 9 1]
      = Ok (x0, y0, x1, y1) /\
    0 <= x0 /\ x0 <= x1 /\ x1 <= 510 /\ 10 <= y0 /\ y0 <= y1 /\ y1 <= Z.max 510 10.
Proof.
  refine (upscaled_box_stays_inside 255 255 510 510 10 10 50 50 (lit 9 1)
            _ _ _ _ _ _ _ _ _ _ _ _); lia.
Defined.

End ScalingUp.

(** ** Failures of [add_detection_box] *)

Section BoxRendererFailures.
Import Cv2 Detection.

Variable getTextSize : string -> Z -> float -> Z -> (Z * Z) * Z.

Lemma round_raises x e : round x = Raise e -> conversion_error e.
Proof. destruct x; intros [= <-]; [by right|by left]. Qed.

Lemma line_thickness_of_raises sh e : line_thickness_of sh = Raise e -> conversion_error e.
Proof.
  destruct sh as [[h w] c]. unfold line_thickness_of.
  destruct (round _) as [t|e'] eqn:Ht; [done|].
  intros [= ->]. by apply round_raises in Ht.
Qed.

Lemma corner_points_raises b e : corner_points b = Raise e -> conversion_error e.
Proof.
  destruct b as [[[ymin xmin] ymax] xmax]. unfold corner_points.
  destruct (int xmin) as [x1|e1] eqn:H1; [|intros [= ->]; by apply int_raises in H1].
  destruct (int ymin) as [y1|e2] eqn:H2; [|intros [= ->]; by apply int_raises in H2].
  destruct (int xmax) as [x2|e3] eqn:H3; [|intros [= ->]; by apply int_raises in H3].
  destruct (int ymax) as [y2|e4] eqn:H4; [|intros [= ->]; by apply int_raises in H4].
  done.
Qed.

Lemma corner_points_finite ymin xmin ymax xmax :
  (exists p, corner_points (ymin, xmin, ymax, xmax) = Ok p) <->
  is_finite ymin = true /\ is_finite xmin = true /\
  is_finite ymax = true /\ is_finite xmax = true.
Proof.
  unfold corner_points. split.
  - intros [p Hp]. destruct xmin, ymin, xmax, ymax; done.
  - intros (H1 & H2 & H3 & H4).
    destruct (int_finite _ H1) as [y1 ->], (int_finite _ H2) as [x1 ->],
             (int_finite _ H3) as [y2 ->], (int_finite _ H4) as [x2 ->].
    by eexists.
Qed.

(** X9.  [add_detection_box] fails before it draws: when it raises (OpenCV's
    calls taken to succeed), every array of the store, the one behind [image]
    included, is as it was and nothing has been shown; the exception is one
    of [int] or [round], [ValueError] or [OverflowError]. *)
Theorem add_detection_box_fails_before_drawing b image label s e :
  (add_detection_box getTextSize b image label s).1 = Raise e ->
  heap (add_detection_box getTextSize b image label s).2 = heap s /\
  shown (add_detection_box getTextSize b image label s).2 = shown s /\
  (e = ValueError \/ e = OverflowError).
Proof.
  rewrite add_detection_box_run. unfold add_detection_box_outcome.
  destruct (corner_points b) as [[p1 p2]|e'] eqn:Hb.
  - destruct (heap s !! image) as [img|].
    + destruct (line_thickness_of (shape img)) as [t|e''] eqn:Ht; [done|].
      intros [= ->]. by apply line_thickness_of_raises in Ht.
    + intros [= <-]. repeat split. by left.
  - intros [= ->]. by apply corner_points_raises in Hb.
Qed.

(** X10.  A box with a NaN or an infinite coordinate is rejected with the
    state exactly as it was: nothing drawn, nothing shown, no random draw
    made. *)
Theorem add_detection_box_rejects_non_finite ymin xmin ymax xmax image label s :
  is_finite ymin && is_finite xmin && is_finite ymax && is_finite xmax = false ->
  exists e,
    add_detection_box getTextSize (ymin, xmin, ymax, xmax) image label s = (Raise e, s) /\
    (e = ValueError \/ e = OverflowError).
Proof.
  intros Hb. rewrite add_detection_box_run. unfold add_detection_box_outcome.
  destruct (corner_points (ymin, xmin, ymax, xmax)) as [p|e] eqn:Hp.
  - assert (Hfin : exists p, corner_points (ymin, xmin, ymax, xmax) = Ok p) by eauto.
    apply corner_points_finite in Hfin as (H1 & H2 & H3 & H4).
    by rewrite H1, H2, H3, H4 in Hb.
  - exists e. split; [done|]. by apply corner_points_raises in Hp.
Qed.

End BoxRendererFailures.

(** ** Runs of [visualize_inference_result] *)

Section VisualizeRuns.
Import Cv2 Detection.

Variable getTextSize : string -> Z -> float -> Z -> (Z * Z) * Z.

Implicit Types (r : inference_result) (labels_map : gmap Z string) (s : state).

(** The label of a detection, never empty. *)
Definition label_of (name : string) (score : float) : string :=
  name +:+ " " +:+ format_2f score.

Lemma label_of_truthy name score : truthy (Some (label_of name score)) = true.
Proof. by destruct name. Qed.

(** What [draw_detection] reads for detection [i]. *)
Definition detection_inputs r labels_map (normalized : list box) (i : nat)
    : result (string * box) :=
  cls ← index (detection_classes r) i;
  k ← int cls;
  detected_class_name ← getitem labels_map k;
  score ← index (detection_scores r) i;
  b ← index normalized i;
  Ok (label_of detected_class_name score, b).

Lemma draw_detection_run r labels_map normalized target i s :
  draw_detection getTextSize r labels_map normalized target i s =
  match detection_inputs r labels_map normalized i with
  | Raise e => (Raise e, s)
  | Ok (label, b) =>
      match add_detection_box_outcome getTextSize b target (Some label) s with
      | (Ok _, s') => (Ok tt, s')
      | (Raise e, s') => (Raise e, s')
      end
  end.
Proof.
  unfold draw_detection, detection_inputs.
  destruct (index (detection_classes r) i) as [cls|e]; cycle 1.
  { by erewrite bind_raise by apply lift_run. }
  erewrite bind_ok by apply lift_run. rewrite result_bind_ok.
  destruct (int cls) as [k|e]; cycle 1.
  { by erewrite bind_raise by apply lift_run. }
  erewrite bind_ok by apply lift_run. rewrite result_bind_ok.
  destruct (getitem labels_map k) as [name|e]; cycle 1.
  { by erewrite bind_raise by apply lift_run. }
  erewrite bind_ok by apply lift_run. rewrite result_bind_ok.
  destruct (index (detection_scores r) i) as [score|e]; cycle 1.
  { by erewrite bind_raise by apply lift_run. }
  erewrite bind_ok by apply lift_run. rewrite result_bind_ok.
  destruct (index normalized i) as [b|e]; cycle 1.
  { by erewrite bind_raise by apply lift_run. }
  erewrite bind_ok by apply lift_run. rewrite result_bind_ok.
  unfold mbind, M_bind. rewrite add_detection_box_run.
  by destruct (add_detection_box_outcome _ _ _ _ _) as [[l|e] s'].
Qed.

Lemma box_calls_labelled p1 p2 c t label :
  truthy (Some label) = true ->
  exists c1 c2 c3,
    box_calls getTextSize p1 p2 c t (Some label) = [c1; c2; c3] /\
    is_rectangle c1 = true /\ is_rectangle c2 = true /\ is_text c3 = true.
Proof. intros Hl. unfold box_calls. rewrite Hl. by do 3 eexists. Qed.

(** One successful iteration: the inputs were there, and the array behind
    [target] has gained a box, a filled box and a text. *)
Lemma draw_detection_ok r labels_map normalized target i s s' img :
  draw_detection getTextSize r labels_map normalized target i s = (Ok tt, s') ->
  heap s !! target = Some img ->
  exists label b c1 c2 c3,
    detection_inputs r labels_map normalized i = Ok (label, b) /\
    is_rectangle c1 = true /\ is_rectangle c2 = true /\ is_text c3 = true /\
    s' = State (<[target := draw_all [c1; c2; c3] img]> (heap s))
               (advance 3 (rng s)) (shown s).
Proof.
  rewrite draw_detection_run. intros Hrun Himg.
  destruct (detection_inputs r labels_map normalized i) as [[label b]|e] eqn:Hin; [|done].
  assert (Hl : truthy (Some label) = true).
  { unfold detection_inputs in Hin.
    destruct (index (detection_classes r) i) as [cls|]; [|done].
    rewrite result_bind_ok in Hin. destruct (int cls) as [k|]; [|done].
    rewrite result_bind_ok in Hin. destruct (getitem labels_map k) as [name|]; [|done].
    rewrite result_bind_ok in Hin. destruct (index (detection_scores r) i) as [score|]; [|done].
    rewrite result_bind_ok in Hin. destruct (index normalized i) as [b'|]; [|done].
    rewrite result_bind_ok in Hin. injection Hin as <- <-. apply label_of_truthy. }
  unfold add_detection_box_outcome in Hrun.
  destruct (corner_points b) as [[p1 p2]|e]; [|done]. rewrite Himg in Hrun.
  destruct (line_thickness_of (shape img)) as [t|e]; [|done].
  destruct (box_calls_labelled p1 p2 (colour_of (rng s)) t label Hl)
    as (c1 & c2 & c3 & Hcalls & H1 & H2 & H3).
  rewrite Hcalls in Hrun. injection Hrun as <-.
  by exists label, b, c1, c2, c3.
Qed.

(** The loop, when it completes. *)
Lemma for_range_ok r labels_map normalized target count i s s' img :
  for_range (draw_detection getTextSize r labels_map normalized target) i count s
    = (Ok tt, s') ->
  heap s !! target = Some img ->
  (forall j, (i <= j < i + count)%nat ->
     exists label b, detection_inputs r labels_map normalized j = Ok (label, b)) /\
  exists calls,
    s' = State (<[target := draw_all calls img]> (heap s))
               (advance (3 * count) (rng s)) (shown s) /\
    length calls = (3 * count)%nat /\
    length (List.filter is_rectangle calls) = (2 * count)%nat /\
    length (List.filter is_text calls) = count.
Proof.
  revert i s s' img. induction count as [|count IH]; intros i s s' img.
  - cbn. intros [= <-] Himg. split; [intros j; lia|]. exists [].
    rewrite draw_all_nil, insert_id by done. by destruct s as [h [g p] sh].
  - cbn [for_range]. unfold mbind, M_bind.
    destruct (draw_detection _ _ _ _ _ _ _) as [[[]|e] s1] eqn:Hstep; [|done].
    intros Hrest Himg.
    destruct (draw_detection_ok _ _ _ _ _ _ _ _ Hstep Himg)
      as (label & b & c1 & c2 & c3 & Hin & H1 & H2 & H3 & ->).
    destruct (IH _ _ _ (draw_all [c1; c2; c3] img) Hrest)
      as (Hinputs & calls & -> & Hl & Hr & Ht).
    { cbn. by rewrite lookup_insert_eq. }
    split.
    + intros j Hj. destruct (decide (j = i)) as [->|Hne]; [by eauto|].
      apply Hinputs. lia.
    + exists ([c1; c2; c3] ++ calls). cbn [heap rng shown].
      rewrite insert_insert_eq, draw_all_draw_all, advance_advance.
      replace (3 * count + 3)%nat with (3 * S count)%nat by lia.
      split; [done|]. destruct c1, c2, c3; try done. cbn. rewrite Hl, Hr, Ht. lia.
Qed.

(** The loop, when it raises. *)
Lemma detection_inputs_raises r labels_map normalized i e :
  detection_inputs r labels_map normalized i = Raise e ->
  (e = IndexError /\
   (length (detection_classes r) <= i \/ length (detection_scores r) <= i \/
    length normalized <= i)%nat) \/
  conversion_error e \/
  (exists cls k, detection_classes r !! i = Some cls /\ int cls = Ok k /\
                 labels_map !! k = None /\ e = KeyError k).
Proof.
  unfold detection_inputs, index, getitem.
  destruct (detection_classes r !! i) as [cls|] eqn:Hcls; cycle 1.
  { intros [= <-]. left. split; [done|]. left. by apply lookup_ge_None. }
  rewrite result_bind_ok. destruct (int cls) as [k|e'] eqn:Hk; cycle 1.
  { intros [= ->]. right. left. by apply int_raises in Hk. }
  rewrite result_bind_ok. destruct (labels_map !! k) as [name|] eqn:Hname; cycle 1.
  { intros [= <-]. right. right. by exists cls, k. }
  rewrite result_bind_ok. destruct (detection_scores r !! i) as [score|] eqn:Hscore; cycle 1.
  { intros [= <-]. left. split; [done|]. right. left. by apply lookup_ge_None. }
  rewrite result_bind_ok. destruct (normalized !! i) as [b|] eqn:Hb; cycle 1.
  { intros [= <-]. left. split; [done|]. right. right. by apply lookup_ge_None. }
  done.
Qed.

Lemma add_detection_box_outcome_raises b image label s e s' :
  add_detection_box_outcome getTextSize b image label s = (Raise e, s') ->
  conversion_error e.
Proof.
  unfold add_detection_box_outcome.
  destruct (corner_points b) as [[p1 p2]|e'] eqn:Hb.
  - destruct (heap s !! image) as [img|]; [|intros [= <- _]; by left].
    destruct (line_thickness_of (shape img)) as [t|e''] eqn:Ht; [done|].
    intros [= -> _]. by apply line_thickness_of_raises in Ht.
  - intros [= -> _]. by apply corner_points_raises in Hb.
Qed.

Lemma for_range_raises r labels_map normalized target count i s s' e :
  for_range (draw_detection getTextSize r labels_map normalized target) i count s
    = (Raise e, s') ->
  (e = IndexError /\
   (length (detection_classes r) < i + count \/ length (detection_scores r) < i + count \/
    length normalized < i + count)%nat) \/
  conversion_error e \/
  (exists j cls k, (j < i + count)%nat /\ detection_classes r !! j = Some cls /\
                   int cls = Ok k /\ labels_map !! k = None /\ e = KeyError k).
Proof.
  revert i s s' e. induction count as [|count IH]; intros i s s' e; [done|].
  cbn [for_range]. unfold mbind, M_bind.
  destruct (draw_detection _ _ _ _ _ _ _) as [[[]|e1] s1] eqn:Hstep.
  - intros Hrest. destruct (IH _ _ _ _ Hrest) as [[-> Hlen]|[He|(j & cls & k & Hj & H)]].
    + left. split; [done|lia].
    + by right; left.
    + right. right. exists j, cls, k. split; [lia|done].
  - intros [= -> ->]. rewrite draw_detection_run in Hstep.
    destruct (detection_inputs r labels_map normalized i) as [[label b]|e1] eqn:Hin.
    + destruct (add_detection_box_outcome _ _ _ _ _) as [[l|e1] s1] eqn:Hbox; [done|].
      injection Hstep as <- <-. right. left.
      by apply add_detection_box_outcome_raises in Hbox.
    + injection Hstep as <- <-.
      apply detection_inputs_raises in Hin as [[-> Hlen]|[He|(cls & k & H)]].
      * left. split; [done|lia].
      * by right; left.
      * right. right. exists i, cls, k. split; [lia|done].
Qed.

Lemma detection_inputs_ok r labels_map normalized i label b :
  detection_inputs r labels_map normalized i = Ok (label, b) ->
  exists cls k name score,
    detection_classes r !! i = Some cls /\ int cls = Ok k /\
    labels_map !! k = Some name /\ detection_scores r !! i = Some score /\
    normalized !! i = Some b /\ label = label_of name score.
Proof.
  unfold detection_inputs, index, getitem.
  destruct (detection_classes r !! i) as [cls|]; [|done].
  rewrite result_bind_ok. destruct (int cls) as [k|] eqn:Hk; [|done].
  rewrite result_bind_ok. destruct (labels_map !! k) as [name|] eqn:Hname; [|done].
  rewrite result_bind_ok. destruct (detection_scores r !! i) as [score|]; [|done].
  rewrite result_bind_ok. destruct (normalized !! i) as [b'|]; [|done].
  rewrite result_bind_ok. intros [= <- <-]. by exists cls, k, name, score.
Qed.

(** The state a successful call ends in. *)
Lemma visualize_ok_state r image labels_map detections_limit s :
  (visualize_inference_result getTextSize r image labels_map detections_limit s).1 = Ok tt ->
  exists nd n img calls,
    index (num_detections r) 0 = Ok nd /\
    limit_of detections_limit nd = Ok n /\
    heap s !! image = Some img /\
    length calls = (3 * Z.to_nat n)%nat /\
    length (List.filter is_rectangle calls) = (2 * Z.to_nat n)%nat /\
    length (List.filter is_text calls) = Z.to_nat n /\
    visualize_inference_result getTextSize r image labels_map detections_limit s =
    (Ok tt, State (<[fresh (dom (heap s)) := draw_all calls img]> (heap s))
                  (advance (3 * Z.to_nat n) (rng s))
                  (shown s ++ [fresh (dom (heap s))])).
Proof.
  rewrite visualize_inference_result_run. unfold visualize_outcome.
  destruct (index (num_detections r) 0) as [nd|e] eqn:Hnd; [|done].
  destruct (limit_of detections_limit nd) as [n|e] eqn:Hn; [|done].
  destruct (heap s !! image) as [img|] eqn:Himg; [|done].
  set (copy := fresh (dom (heap s))). set (normalized := map _ _).
  set (t := State (<[copy:=img]> (heap s)) (rng s) (shown s)).
  unfold mbind, M_bind.
  destruct (for_range _ 0 (Z.to_nat n) t) as [[[]|e] u] eqn:Hloop; [|done].
  intros _.
  apply (for_range_ok _ _ _ _ _ _ _ _ img) in Hloop as (_ & calls & -> & Hl & Hr & Ht);
    cycle 1.
  { subst t. cbn. by rewrite lookup_insert_eq. }
  exists nd, n, img, calls. subst t. unfold plt_imshow. cbn [fst snd heap rng shown].
  by rewrite insert_insert_eq.
Qed.

(** X11.  A call that returns has shown one new array: a copy of the image
    with, for each of the [n] detections it was limited to, a box, a filled
    box and a text (the label is never empty), nothing else; the generator has
    made three draws for each. *)
Theorem visualize_labels_every_detection r image labels_map detections_limit s :
  let o := visualize_inference_result getTextSize r image labels_map detections_limit s in
  o.1 = Ok tt ->
  exists nd n img copy calls,
    index (num_detections r) 0 = Ok nd /\
    limit_of detections_limit nd = Ok n /\
    heap s !! image = Some img /\
    (copy ∉ dom (heap s)) /\
    shown o.2 = shown s ++ [copy] /\
    heap o.2 !! copy = Some (draw_all calls img) /\
    length calls = (3 * Z.to_nat n)%nat /\
    length (List.filter is_rectangle calls) = (2 * Z.to_nat n)%nat /\
    length (List.filter is_text calls) = Z.to_nat n /\
    rng o.2 = advance (3 * Z.to_nat n) (rng s).
Proof.
  intros o Ho. subst o.
  destruct (visualize_ok_state _ _ _ _ _ Ho)
    as (nd & n & img & calls & Hnd & Hn & Himg & Hl & Hr & Ht & ->).
  exists nd, n, img, (fresh (dom (heap s))), calls. cbn [fst snd heap rng shown].
  split; [done|]. split; [done|]. split; [done|]. split; [apply is_fresh|].
  split; [done|]. split; [by rewrite lookup_insert_eq|]. done.
Qed.

(** X12.  A call that returns has found all it read: the limit it computed
    does not exceed the number of boxes, classes and scores of the batch, and
    the class of each of the detections drawn is a key of the Label Map. *)
Theorem visualize_success_requires r image labels_map detections_limit s :
  (visualize_inference_result getTextSize r image labels_map detections_limit s).1 = Ok tt ->
  exists nd n,
    index (num_detections r) 0 = Ok nd /\
    limit_of detections_limit nd = Ok n /\
    (Z.to_nat n <= length (detection_boxes r))%nat /\
    (Z.to_nat n <= length (detection_classes r))%nat /\
    (Z.to_nat n <= length (detection_scores r))%nat /\
    forall i, (i < Z.to_nat n)%nat ->
      exists cls k name,
        detection_classes r !! i = Some cls /\ int cls = Ok k /\
        labels_map !! k = Some name.
Proof.
  rewrite visualize_inference_result_run. unfold visualize_outcome.
  destruct (index (num_detections r) 0) as [nd|e] eqn:Hnd; [|done].
  destruct (limit_of detections_limit nd) as [n|e] eqn:Hn; [|done].
  destruct (heap s !! image) as [img|] eqn:Himg; [|done].
  set (copy := fresh (dom (heap s))). set (normalized := map _ _).
  set (t := State (<[copy:=img]> (heap s)) (rng s) (shown s)).
  unfold mbind, M_bind.
  destruct (for_range _ 0 (Z.to_nat n) t) as [[[]|e] u] eqn:Hloop; [|done].
  intros _. apply (for_range_ok _ _ _ _ _ _ _ _ img) in Hloop as (Hinputs & _); cycle 1.
  { subst t. cbn. by rewrite lookup_insert_eq. }
  exists nd, n. split; [done|]. split; [done|].
  assert (Hall : forall i, (i < Z.to_nat n)%nat ->
    exists cls k name score b,
      detection_classes r !! i = Some cls /\ int cls = Ok k /\
      labels_map !! k = Some name /\ detection_scores r !! i = Some score /\
      normalized !! i = Some b).
  { intros i Hi. destruct (Hinputs i) as (label & b & Hin); [lia|].
    apply detection_inputs_ok in Hin as (cls & k & name & score & H1 & H2 & H3 & H4 & H5 & _).
    by exists cls, k, name, score, b. }
  assert (Hlen : forall {A} (l : list A),
            (forall i, (i < Z.to_nat n)%nat -> is_Some (l !! i)) ->
            (Z.to_nat n <= length l)%nat).
  { intros A l Hl. destruct (Z.to_nat n) as [|m]; [lia|].
    destruct (Hl m) as [a Ha]; [lia|]. apply lookup_lt_Some in Ha. lia. }
  repeat split.
  - rewrite <- (length_map (normalize (shape img).1.1 (shape img).1.2)). apply Hlen.
    intros i Hi. destruct (Hall i Hi) as (? & ? & ? & ? & b & _ & _ & _ & _ & Hb). eauto.
  - apply Hlen. intros i Hi. destruct (Hall i Hi) as (cls & ? & ? & ? & ? & Hc & _). eauto.
  - apply Hlen. intros i Hi.
    destruct (Hall i Hi) as (? & ? & ? & score & ? & _ & _ & _ & Hs & _). eauto.
  - intros i Hi. destruct (Hall i Hi) as (cls & k & name & ? & ? & H1 & H2 & H3 & _).
    by exists cls, k, name.
Qed.

(** X13.  A call that raises shows nothing.  It raises [KeyError k] only for a
    class [k] of the batch that is not a key of the Label Map, [IndexError]
    only when [num_detections] is empty or the limit exceeds the number of
    boxes, classes or scores, and otherwise [ValueError] or [OverflowError]. *)
Theorem visualize_failure_shows_nothing r image labels_map detections_limit s e :
  let o := visualize_inference_result getTextSize r image labels_map detections_limit s in
  o.1 = Raise e ->
  shown o.2 = shown s /\
  ((exists k i cls, e = KeyError k /\ labels_map !! k = None /\
                    detection_classes r !! i = Some cls /\ int cls = Ok k) \/
   (e = IndexError /\
    (num_detections r = [] \/
     exists nd n, index (num_detections r) 0 = Ok nd /\ limit_of detections_limit nd = Ok n /\
       (length (detection_classes r) < Z.to_nat n \/
        length (detection_scores r) < Z.to_nat n \/
        length (detection_boxes r) < Z.to_nat n)%nat)) \/
   e = ValueError \/ e = OverflowError).
Proof.
  intros o. subst o. rewrite visualize_inference_result_run. unfold visualize_outcome.
  destruct (index (num_detections r) 0) as [nd|e'] eqn:Hnd; cycle 1.
  { intros [= ->]. split; [done|]. right. left. unfold index in Hnd.
    destruct (num_detections r) as [|x l]; [|done]. injection Hnd as <-. by split; [|left]. }
  destruct (limit_of detections_limit nd) as [n|e'] eqn:Hn; cycle 1.
  { intros [= ->]. split; [done|]. right. right. unfold limit_of in Hn.
    destruct detections_limit as [N|]; [destruct (flt nd (of_Z N)); [|done]|];
      by apply int_raises in Hn. }
  destruct (heap s !! image) as [img|] eqn:Himg; cycle 1.
  { intros [= <-]. split; [done|]. right. right. by left. }
  set (copy := fresh (dom (heap s))). set (normalized := map _ _).
  set (t := State (<[copy:=img]> (heap s)) (rng s) (shown s)).
  pose proof (touches_only_for_range copy
    (draw_detection getTextSize r labels_map normalized copy) 0 (Z.to_nat n)
    (touches_only_draw_detection getTextSize r labels_map normalized copy) t) as [Hsh _].
  unfold mbind, M_bind.
  destruct (for_range _ 0 (Z.to_nat n) t) as [[[]|e'] u] eqn:Hloop; [done|].
  intros [= ->]. split; [done|].
  apply for_range_raises in Hloop as [[-> Hlen]|[[->| ->]|(j & cls & k & _ & Hc & Hk & Hnone & ->)]].
  - right. left. split; [done|]. right. exists nd, n. repeat split; [done..|].
    subst normalized. rewrite length_map in Hlen. lia.
  - right. right. by left.
  - right. right. by right.
  - left. by exists k, j, cls.
Qed.

(** X14.  With nothing to draw, a count or a limit of zero or less, the call
    succeeds whatever the boxes, classes, scores and labels are: it shows an
    unannotated copy of the image and makes no random draw. *)
Theorem visualize_nothing_to_draw r image labels_map detections_limit s nd n img :
  index (num_detections r) 0 = Ok nd ->
  limit_of detections_limit nd = Ok n ->
  n <= 0 ->
  heap s !! image = Some img ->
  visualize_inference_result getTextSize r image labels_map detections_limit s =
  (Ok tt, State (<[fresh (dom (heap s)) := img]> (heap s)) (rng s)
                (shown s ++ [fresh (dom (heap s))])).
Proof.
  intros Hnd Hn Hle Himg. rewrite visualize_inference_result_run.
  unfold visualize_outcome. rewrite Hnd, Hn, Himg.
  replace (Z.to_nat n) with 0%nat by lia. done.
Qed.

(** X15.  Two calls in a row on the same image: each one shows a new array of
    its own, a copy of the untouched original with that call's boxes; the
    array the first call showed is not drawn on by the second. *)
Theorem visualize_twice r1 r2 image labels_map1 labels_map2 limit1 limit2 s :
  let o1 := visualize_inference_result getTextSize r1 image labels_map1 limit1 s in
  let o2 := visualize_inference_result getTextSize r2 image labels_map2 limit2 o1.2 in
  o1.1 = Ok tt -> o2.1 = Ok tt ->
  exists img copy1 copy2 calls1 calls2,
    heap s !! image = Some img /\
    shown o2.2 = shown s ++ [copy1; copy2] /\
    copy1 <> copy2 /\ copy1 <> image /\ copy2 <> image /\
    heap o1.2 !! copy1 = Some (draw_all calls1 img) /\
    heap o2.2 !! copy1 = Some (draw_all calls1 img) /\
    heap o2.2 !! copy2 = Some (draw_all calls2 img) /\
    heap o2.2 !! image = Some img.
Proof.
  intros o1 o2 H1 H2. subst o2.
  destruct (visualize_ok_state _ _ _ _ _ H1)
    as (nd1 & n1 & img & calls1 & _ & _ & Himg & _ & _ & _ & Ho1).
  fold o1 in Ho1. destruct o1 as [res1 s1]. injection Ho1 as -> ->. cbn [fst snd] in *.
  set (copy1 := fresh (dom (heap s))) in *.
  assert (Hne1 : copy1 <> image).
  { intros <-. apply (is_fresh (dom (heap s))). by apply elem_of_dom_2 in Himg. }
  destruct (visualize_ok_state _ _ _ _ _ H2)
    as (nd2 & n2 & img2 & calls2 & _ & _ & Himg2 & _ & _ & _ & Ho2).
  cbn [heap rng shown] in Himg2, Ho2. rewrite lookup_insert_ne in Himg2 by done.
  rewrite Himg in Himg2. injection Himg2 as <-.
  set (copy2 := fresh (dom (<[copy1:=draw_all calls1 img]> (heap s)))) in *.
  assert (Hfresh2 : copy2 ∉ dom (<[copy1:=draw_all calls1 img]> (heap s))) by apply is_fresh.
  rewrite dom_insert_L in Hfresh2.
  assert (Hne12 : copy1 <> copy2) by set_solver.
  assert (Hne2 : copy2 <> image).
  { intros ->. apply elem_of_dom_2 in Himg. set_solver. }
  rewrite Ho2. cbn [fst snd heap rng shown].
  exists img, copy1, copy2, calls1, calls2. rewrite <- app_assoc.
  split; [done|]. split; [done|]. split; [done|]. split; [done|]. split; [done|].
  split; [by rewrite lookup_insert_eq|].
  split; [by rewrite lookup_insert_ne, lookup_insert_eq|].
  split; [by rewrite lookup_insert_eq|].
  by rewrite !lookup_insert_ne.
Qed.

End VisualizeRuns.


(** ** The detections limit *)

Section Limit.
Import Cv2 Detection.

Lemma binary_round_aux_opp m e l :
  binary_round_aux prec emax true m e l = SFopp (binary_round_aux prec emax false m e l).
Proof.
  unfold binary_round_aux. destruct (shr_fexp prec emax m e l) as [mrs' e'].
  destruct (shr_fexp prec emax _ e' loc_Exact) as [mrs'' e''].
  destruct (shr_m mrs''); [done| |done]. by destruct (e'' <=? emax - prec).
Qed.

Lemma of_Z_opp n : n <> 0 -> of_Z (- n) = SFopp (of_Z n).
Proof.
  intros Hn. destruct n as [|p|p]; [done| |].
  - change (- Z.pos p) with (Z.neg p). unfold of_Z, binary_normalize, binary_round.
    destruct (shl_align p 0 _) as [mz ez]. apply binary_round_aux_opp.
  - change (- Z.neg p) with (Z.pos p). unfold of_Z, binary_normalize, binary_round.
    destruct (shl_align p 0 _) as [mz ez]. rewrite binary_round_aux_opp.
    by destruct (binary_round_aux prec emax false (Z.pos mz) ez loc_Exact) as [[]|[]| |[] ? ?].
Qed.

(** [float(k) < float(n)] for integers that floats hold exactly. *)
Lemma flt_of_Z k n :
  0 <= k < 2 ^ 53 -> - 2 ^ 53 < n < 2 ^ 53 ->
  flt (of_Z k) (of_Z n) = (k <? n).
Proof.
  intros Hk Hn.
  assert (Hpos : forall j, 0 < j < 2 ^ 53 -> exists m e, of_Z j = S754_finite false m e).
  { intros j Hj. destruct (of_Z_represents j Hj) as (m & e & -> & _). by exists m, e. }
  destruct (Z.eq_dec k 0) as [->|Hk0].
  - change (of_Z 0) with (S754_zero false).
    destruct (Z.ltb_spec 0 n) as [Hn0|Hn0].
    + destruct (Hpos n ltac:(lia)) as (m & e & ->). done.
    + destruct (Z.eq_dec n 0) as [->|Hne]; [done|].
      replace n with (- - n) by lia. rewrite of_Z_opp by lia.
      destruct (Hpos (- n) ltac:(lia)) as (m & e & ->). done.
  - destruct (Z.ltb_spec 0 n) as [Hn0|Hn0].
    + pose proof (flt_valid _ _ _ _ (of_Z_represents k ltac:(lia)) (of_Z_valid k)
                    (of_Z_represents n ltac:(lia)) (of_Z_valid n)) as Hiff.
      destruct (Z.ltb_spec k n) as [Hkn|Hkn].
      * apply Hiff, IZR_lt. done.
      * destruct (flt (of_Z k) (of_Z n)); [|done].
        destruct Hiff as [Hiff _]. specialize (Hiff eq_refl). apply lt_IZR in Hiff. lia.
    + destruct (Hpos k ltac:(lia)) as (m & e & ->).
      replace (k <? n) with false by (symmetry; apply Z.ltb_ge; lia).
      destruct (Z.eq_dec n 0) as [->|Hne]; [done|].
      replace n with (- - n) by lia. rewrite of_Z_opp by lia.
      destruct (Hpos (- n) ltac:(lia)) as (m' & e' & ->). done.
Qed.

Lemma int_of_Z k : 0 <= k < 2 ^ 53 -> int (of_Z k) = Ok k.
Proof.
  intros Hk. destruct (Z.eq_dec k 0) as [->|Hne]; [done|].
  apply int_of_represents_Z, of_Z_represents. lia.
Qed.

(** X16.  The number of detections drawn is the smaller of the limit and the
    count the model reports: for a count [k] and a limit [N] that floats hold
    exactly, [limit_of] gives [min N k], and [k] itself without a limit.  A
    negative limit is passed on as it is. *)
Theorem limit_of_is_minimum k N :
  0 <= k < 2 ^ 53 -> - 2 ^ 53 < N < 2 ^ 53 ->
  limit_of (Some N) (of_Z k) = Ok (Z.min N k) /\
  limit_of None (of_Z k) = Ok k.
Proof.
  intros Hk HN. unfold limit_of. rewrite flt_of_Z, int_of_Z by done.
  split; [|done]. destruct (Z.ltb_spec k N); f_equal; lia.
Qed.

Lemma limit_of_is_minimum_witness :
  limit_of (Some 5) (of_Z 300) = Ok 5 /\ limit_of None (of_Z 300) = Ok 300.
Proof. apply (limit_of_is_minimum 300 5); lia. Defined.

End Limit.

(** ** The line thickness follows the image size *)

Section Thickness.
Import Cv2 Detection.

Lemma round_half_even_near num den :
  0 < den ->
  - den <= 2 * (round_half_even num den * den - num) <= den.
Proof.
  intros Hden. unfold round_half_even.
  pose proof (Z.div_mod num den ltac:(lia)) as Hdm.
  pose proof (Z.mod_pos_bound num den Hden) as Hr.
  destruct (Z.compare_spec (2 * (num mod den)) den) as [Heq|Hlt|Hgt].
  - destruct (Z.even (num / den)); nia.
  - nia.
  - nia.
Qed.

(** [round] of a positive float is within a half of its value. *)
Lemma round_represents x v :
  represents x v -> exists k, round x = Ok k /\ (IZR k - / 2 <= v <= IZR k + / 2)%R.
Proof.
  intros (m & e & -> & _ & ->). cbn [round cond_Zopp]. eexists. split; [done|].
  destruct (Z.leb_spec 0 e) as [He|He].
  - rewrite mult_IZR, pow2_IZR by done. lra.
  - assert (H2 : 0 < 2 ^ (- e)) by (apply Z.pow_pos_nonneg; lia).
    pose proof (round_half_even_near (Z.pos m) (2 ^ (- e)) H2) as [Hlo Hhi].
    set (k := round_half_even (Z.pos m) (2 ^ (- e))) in *.
    apply IZR_le in Hlo, Hhi.
    rewrite opp_IZR, !mult_IZR, minus_IZR, mult_IZR, pow2_IZR in Hlo by lia.
    rewrite !mult_IZR, minus_IZR, mult_IZR, pow2_IZR in Hhi by lia.
    pose proof (pow2_add (- e) e) as Hp. replace (- e + e) with 0 in Hp by lia.
    rewrite pow2_0 in Hp. pose proof (pow2_pos e) as HQ. pose proof (pow2_pos (- e)) as HP.
    set (M := IZR (Z.pos m)) in *. set (K := IZR k) in *.
    set (P := pow2 (- e)) in *. set (Q := pow2 e) in *.
    assert (HPQ : (P = / Q)%R).
    { apply Rmult_eq_reg_r with (r := Q); [|lra]. rewrite Rinv_l by lra. lra. }
    assert (Hlo' : ((- P) * Q <= 2 * (K * P - M) * Q)%R) by (apply Rmult_le_compat_r; lra).
    assert (Hhi' : (2 * (K * P - M) * Q <= P * Q)%R) by (apply Rmult_le_compat_r; lra).
    replace (2 * (K * P - M) * Q)%R with (2 * (K * (P * Q) - M * Q))%R in Hlo', Hhi' by ring.
    replace (- P * Q)%R with (- (P * Q))%R in Hlo' by ring.
    rewrite <- Hp in Hlo', Hhi'. lra.
Qed.

Lemma pow2_m61 : pow2 (-61) = (/ 2305843009213693952)%R.
Proof.
  pose proof (pow2_add 61 (-61)) as H. change (61 + -61) with 0 in H.
  rewrite pow2_0, <- (pow2_IZR 61) in H by lia.
  change (2 ^ 61) with 2305843009213693952 in H. pose proof (pow2_pos (-61)).
  apply Rmult_eq_reg_l with (r := 2305843009213693952%R); lra.
Qed.

(** X17.  [round(0.002 * (h + w) / 2) + 1] is one more than [(h + w) / 1000]
    rounded to a nearest integer: at least 1, and one more for every thousand
    pixels of height plus width. *)
Theorem line_thickness_follows_image_size h w c :
  0 <= h + w < 2 ^ 40 ->
  exists t,
    line_thickness_of (h, w, c) = Ok t /\
    1 <= t /\
    h + w - 500 <= 1000 * (t - 1) <= h + w + 500.
Proof.
  intros Hn. unfold line_thickness_of.
  destruct (Z.eq_dec (h + w) 0) as [Hz|Hne].
  { rewrite Hz. exists 1. split; [by vm_compute|lia]. }
  assert (Hk : represents (lit 2 3) (4611686018427388 * pow2 (-61))).
  { rewrite two_thousandths. eexists _, _. split; [done|]. split; [by vm_compute|done]. }
  rewrite pow2_m61 in Hk.
  set (k := (4611686018427388 * / 2305843009213693952)%R) in *.
  assert (Hkv : (2 / 1000 <= k <= 2 / 1000 * (1 + eps))%R).
  { unfold k. rewrite eps_value. lra. }
  pose proof (of_Z_represents (h + w) ltac:(lia)) as Hsum.
  assert (HnR : (1 <= IZR (h + w) < 1099511627776)%R).
  { split; [apply IZR_le|apply IZR_lt]; lia. }
  set (n := IZR (h + w)) in *.
  assert (Heps : eps = (/ 4503599627370496)%R) by apply eps_value.
  destruct (fmul_represents (lit 2 3) (of_Z (h + w)) k n Hk Hsum) as (v & Hv & Hvb).
  { apply normal_range. rewrite Heps in Hkv. nra. }
  assert (Hvn : (n * (2 / 1000) * (1 - eps) <= v <= n * (2 / 1000) * (1 + eps) * (1 + eps))%R).
  { rewrite Heps in *. nra. }
  pose proof (of_Z_represents 2 ltac:(lia)) as H2.
  destruct (fdiv_represents _ (of_Z 2) v 2 Hv H2) as (u & Hu & Hub).
  { apply normal_range. rewrite Heps in *. nra. }
  destruct (round_represents _ _ Hu) as (r & -> & Hr). rewrite result_bind_ok.
  exists (r + 1). split; [done|].
  assert (Hu' : (n - / 1000 <= 1000 * u <= n + / 1000)%R).
  { rewrite Heps in *. nra. }
  assert (Hlo : (IZR (h + w - 501) < IZR (1000 * r))%R).
  { rewrite minus_IZR, mult_IZR. fold n. lra. }
  assert (Hhi : (IZR (1000 * r) < IZR (h + w + 501))%R).
  { rewrite plus_IZR, mult_IZR. fold n. lra. }
  apply lt_IZR in Hlo, Hhi. lia.
Qed.

Lemma line_thickness_follows_image_size_witness :
  exists t, line_thickness_of (480, 640, 3) = Ok t /\ 1 <= t /\
            480 + 640 - 500 <= 1000 * (t - 1) <= 480 + 640 + 500.
Proof. apply (line_thickness_follows_image_size 480 640 3). lia. Defined.

End Thickness.

(** ** Normalised boxes land inside the image *)

Section InsideImage.
Import Cv2 Detection.

(** A coordinate of the model output between 0 and 1: zero, or a positive
    float of value at most 1 (and at least 2^-149, as every positive float32
    is). *)
Definition unit_coordinate (v : float) : Prop :=
  (exists s, v = S754_zero s) \/
  exists r, represents v r /\ (pow2 (-149) <= r <= 1)%R.

Lemma scaled_unit_coordinate v n :
  unit_coordinate v -> 1 <= n < 2 ^ 52 ->
  exists k, int (fmul v (of_Z n)) = Ok k /\ 0 <= k <= n.
Proof.
  intros Hv Hn. pose proof (of_Z_represents n ltac:(lia)) as Hr.
  destruct Hv as [[s ->]|(r & Hv & Hlo & Hhi)].
  - destruct Hr as (m & e & -> & _). exists 0. split; [done|lia].
  - assert (HnR : (1 <= IZR n < 4503599627370496)%R).
    { split; [apply IZR_le|apply IZR_lt]; lia. }
    pose proof (pow2_pos (-149)) as H149.
    destruct (fmul_represents v (of_Z n) r (IZR n) Hv Hr) as (p & Hp & Hpb).
    { pose proof (pow2_le (-900) (-149) ltac:(lia)).
      pose proof (pow2_le 52 900 ltac:(lia)) as H52. rewrite <- (pow2_IZR 52) in H52 by lia.
      change (2 ^ 52) with 4503599627370496 in H52. split; nra. }
    destruct (int_represents _ _ Hp) as (k & Hk & Hkb). exists k. split; [done|].
    pose proof (represents_pos _ _ Hp) as Hp0. rewrite eps_value in Hpb.
    assert (Hup : (p < IZR n + 1)%R) by nra.
    assert (H1 : (IZR k < IZR (n + 1))%R) by (rewrite plus_IZR; lra).
    assert (H2 : (IZR (-1) < IZR k)%R) by lra.
    apply lt_IZR in H1, H2. lia.
Qed.

(** X18.  A box whose four coordinates are between 0 and 1, scaled by the
    height and the width of the image as [visualize_inference_result] does and
    truncated as [add_detection_box] does, has its two corners inside the
    image:  [0 <= x <= width] and [0 <= y <= height]. *)
Theorem normalized_box_inside_image ymin xmin ymax xmax h w :
  unit_coordinate ymin -> unit_coordinate xmin ->
  unit_coordinate ymax -> unit_coordinate xmax ->
  1 <= h < 2 ^ 52 -> 1 <= w < 2 ^ 52 ->
  exists x1 y1 x2 y2,
    corner_points (normalize h w (ymin, xmin, ymax, xmax)) = Ok ((x1, y1), (x2, y2)) /\
    0 <= x1 <= w /\ 0 <= y1 <= h /\ 0 <= x2 <= w /\ 0 <= y2 <= h.
Proof.
  intros Hymin Hxmin Hymax Hxmax Hh Hw.
  destruct (scaled_unit_coordinate _ _ Hymin Hh) as (y1 & Hy1 & ?).
  destruct (scaled_unit_coordinate _ _ Hxmin Hw) as (x1 & Hx1 & ?).
  destruct (scaled_unit_coordinate _ _ Hymax Hh) as (y2 & Hy2 & ?).
  destruct (scaled_unit_coordinate _ _ Hxmax Hw) as (x2 & Hx2 & ?).
  exists x1, y1, x2, y2. unfold normalize, corner_points.
  by rewrite Hx1, Hy1, Hx2, Hy2.
Qed.

Lemma normalized_box_inside_image_witness :
  exists x1 y1 x2 y2,
    corner_points (normalize 480 640 (of_Z 0, of_Z 0, of_Z 1, of_Z 1))
      = Ok ((x1, y1), (x2, y2)) /\
    0 <= x1 <= 640 /\ 0 <= y1 <= 480 /\ 0 <= x2 <= 640 /\ 0 <= y2 <= 480.
Proof.
  assert (H0 : unit_coordinate (of_Z 0)) by (left; by exists false).
  assert (H1 : unit_coordinate (of_Z 1)).
  { right. exists 1%R. split; [apply (of_Z_represents 1); lia|].
    split; [|lra]. rewrite <- pow2_0. apply pow2_le. lia. }
  apply (normalized_box_inside_image _ _ _ _ 480 640 H0 H0 H1 H1); lia.
Defined.

End InsideImage.

(** ** Reading the labels file *)

Section LabelsFile.
Import Detection.


Fixpoint all_space (s : string) : bool :=
  match s with
  | String a s' => is_space a && all_space s'
  | EmptyString => true
  end.

Fixpoint has_newline (s : string) : bool :=
  match s with
  | String a s' => Ascii.eqb a newline || has_newline s'
  | EmptyString => false
  end.



Lemma append_cons a s t : String a s +:+ t = String a (s +:+ t).
Proof. done. Qed.

Lemma append_nil_r s : s +:+ "" = s.
Proof. induction s as [|a s IH]; [done|]. by rewrite append_cons, IH. Qed.








Lemma lstrip_all_space pad s : all_space pad = true -> lstrip (pad +:+ s) = lstrip s.
Proof.
  induction pad as [|a pad IH]; [done|]. cbn [all_space]. intros [Ha Hpad]%andb_prop.
  rewrite append_cons. cbn [lstrip]. rewrite Ha. by apply IH.
Qed.




Lemma strip_all_space s : all_space s = true -> strip s = "".
Proof.
  intros Hs. unfold strip.
  rewrite <- (append_nil_r s), lstrip_all_space by done. done.
Qed.

Lemma split_lines_not_nil s : split_lines s <> [].
Proof.
  induction s as [|a s IH]; [done|]. cbn.
  destruct (Ascii.eqb a newline); [done|]. by destruct (split_lines s).
Qed.

Lemma split_lines_no_newline s : Forall (fun l => has_newline l = false) (split_lines s).
Proof.
  induction s as [|a s IH]; [by repeat constructor|]. cbn.
  destruct (Ascii.eqb a newline) eqn:Ha; [by constructor|].
  destruct (split_lines s) as [|w ws]; [by repeat constructor; cbn; rewrite Ha|].
  apply Forall_cons in IH as [Hw Hws]. constructor; [|done]. cbn. by rewrite Ha.
Qed.








(** X20.  Whatever the file holds, the list of labels is never empty and no
    label contains a newline, so the map always has the key 1; a file that is
    empty or all white space gives the single label [""]. *)
Theorem labels_map_always_has_first_key content :
  read_labels content <> [] /\
  Forall (fun l => has_newline l = false) (read_labels content) /\
  (exists name, getitem (coco_labels_map (read_labels content)) 1 = Ok name) /\
  (all_space content = true -> read_labels content = [""]).
Proof.
  unfold read_labels. split; [apply split_lines_not_nil|].
  split; [apply split_lines_no_newline|]. split.
  - unfold getitem. rewrite coco_labels_map_lookup_index.
    pose proof (split_lines_not_nil (strip content)) as Hne.
    destruct (split_lines (strip content)) as [|name names]; [done|].
    exists name. cbn [length]. case_decide; [done|lia].
  - intros Hs. by rewrite strip_all_space.
Qed.

Lemma labels_map_always_has_first_key_witness :
  read_labels (String newline (String newline "")) = [""].
Proof. by apply (labels_map_always_has_first_key (String newline (String newline ""))). Defined.

End LabelsFile.

(** ** The renderer and the pipeline on concrete inputs, continued *)

Section DetectionRuns.
Import Cv2 Detection.

Lemma add_detection_box_fails_before_drawing_witness :
  heap (add_detection_box fixed_font (lit 1 1, S754_nan, lit 5 1, lit 6 1) 1%positive
          (Some "cat 0.95") (start (fun _ => 7))).2 = heap (start (fun _ => 7)).
Proof.
  by apply (add_detection_box_fails_before_drawing fixed_font _ _ _ _ ValueError).
Defined.

Lemma add_detection_box_rejects_non_finite_witness :
  exists e,
    add_detection_box fixed_font (lit 1 1, lit 2 1, S754_infinity false, lit 6 1) 1%positive
      None (start (fun _ => 7)) = (Raise e, start (fun _ => 7)) /\
    (e = ValueError \/ e = OverflowError).
Proof. by apply add_detection_box_rejects_non_finite. Defined.

Lemma visualize_labels_every_detection_witness :
  exists nd n img copy calls,
    index (num_detections two_detections) 0 = Ok nd /\
    limit_of (Some 5) nd = Ok n /\
    heap (start (fun _ => 7)) !! 1%positive = Some img /\
    (copy ∉ dom (heap (start (fun _ => 7)))) /\
    shown (visualize_inference_result fixed_font two_detections 1%positive cat_dog (Some 5)
             (start (fun _ => 7))).2 = shown (start (fun _ => 7)) ++ [copy] /\
    heap (visualize_inference_result fixed_font two_detections 1%positive cat_dog (Some 5)
            (start (fun _ => 7))).2 !! copy = Some (draw_all calls img) /\
    length calls = (3 * Z.to_nat n)%nat /\
    length (List.filter is_rectangle calls) = (2 * Z.to_nat n)%nat /\
    length (List.filter is_text calls) = Z.to_nat n /\
    rng (visualize_inference_result fixed_font two_detections 1%positive cat_dog (Some 5)
           (start (fun _ => 7))).2 = advance (3 * Z.to_nat n) (rng (start (fun _ => 7))).
Proof.
  apply (visualize_labels_every_detection fixed_font two_detections 1%positive cat_dog
           (Some 5) (start (fun _ => 7))).
  by vm_compute.
Defined.

Lemma visualize_success_requires_witness :
  exists nd n,
    index (num_detections two_detections) 0 = Ok nd /\
    limit_of (Some 5) nd = Ok n /\
    (Z.to_nat n <= length (detection_boxes two_detections))%nat /\
    (Z.to_nat n <= length (detection_classes two_detections))%nat /\
    (Z.to_nat n <= length (detection_scores two_detections))%nat /\
    forall i, (i < Z.to_nat n)%nat ->
      exists cls k name,
        detection_classes two_detections !! i = Some cls /\ int cls = Ok k /\
        cat_dog !! k = Some name.
Proof.
  apply (visualize_success_requires fixed_font two_detections 1%positive cat_dog
           (Some 5) (start (fun _ => 7))).
  by vm_compute.
Defined.

Lemma visualize_failure_shows_nothing_witness :
  shown (visualize_inference_result fixed_font two_detections 1%positive ∅ (Some 5)
           (start (fun _ => 7))).2 = [].
Proof.
  by apply (visualize_failure_shows_nothing fixed_font two_detections 1%positive ∅ (Some 5)
              (start (fun _ => 7)) (KeyError 1)).
Defined.

Lemma visualize_nothing_to_draw_witness :
  (visualize_inference_result fixed_font two_detections 1%positive ∅ (Some 0)
     (start (fun _ => 7))).1 = Ok tt.
Proof.
  by rewrite (visualize_nothing_to_draw fixed_font two_detections 1%positive ∅ (Some 0)
                (start (fun _ => 7)) (of_Z 2) 0 (black 8 10)
                ltac:(by vm_compute) ltac:(by vm_compute) ltac:(lia) ltac:(by vm_compute)).
Defined.

Lemma visualize_twice_witness :
  exists img copy1 copy2 calls1 calls2,
    heap (start (fun _ => 7)) !! 1%positive = Some img /\
    shown
      (visualize_inference_result fixed_font two_detections 1%positive cat_dog None
         (visualize_inference_result fixed_font two_detections 1%positive cat_dog
            (Some 1) (start (fun _ => 7))).2).2 = [copy1; copy2] /\
    copy1 <> copy2 /\ copy1 <> 1%positive /\ copy2 <> 1%positive /\
    heap
      (visualize_inference_result fixed_font two_detections 1%positive cat_dog
         (Some 1) (start (fun _ => 7))).2 !! copy1 = Some (draw_all calls1 img) /\
    heap
      (visualize_inference_result fixed_font two_detections 1%positive cat_dog None
         (visualize_inference_result fixed_font two_detections 1%positive cat_dog
            (Some 1) (start (fun _ => 7))).2).2 !! copy1
      = Some (draw_all calls1 img) /\
    heap
      (visualize_inference_result fixed_font two_detections 1%positive cat_dog None
         (visualize_inference_result fixed_font two_detections 1%positive cat_dog
            (Some 1) (start (fun _ => 7))).2).2 !! copy2
      = Some (draw_all calls2 img) /\
    heap
      (visualize_inference_result fixed_font two_detections 1%positive cat_dog None
         (visualize_inference_result fixed_font two_detections 1%positive cat_dog
            (Some 1) (start (fun _ => 7))).2).2 !! 1%positive = Some img.
Proof.
  refine (visualize_twice fixed_font two_detections two_detections 1%positive cat_dog cat_dog
            (Some 1) None (start (fun _ => 7)) _ _); by vm_compute.
Defined.

End DetectionRuns.
